(** * navidown: a navigable markdown session

    A shallow embedding of the Go package [navidown] (markers.go, history.go,
    the path resolver, markdown_session.go) and the properties of its
    specification that can be settled on it.

    Conventions.
    - A Go [string] is a byte sequence: Rocq's [string] (a list of [ascii]).
    - A Go [int] is a 64-bit two's complement integer: a [Z], with the
      wrap-around of [+] and [-] written out by [wrap].
    - A Go slice is a [list]; [append] adds at the end, so the top of a
      history stack is the last element.
    - A run-time panic is the [Panic] result. *)

From Stdlib Require Import ZArith Lia Ascii String DecimalString.
From stdpp Require Import base tactics option list strings gmap.

Local Open Scope Z_scope.

(** ** Go integers *)

Module GoInt.

Definition wrap (z : Z) : Z := (z + 2 ^ 63) mod 2 ^ 64 - 2 ^ 63.

Definition add (a b : Z) : Z := wrap (a + b).
Definition sub (a b : Z) : Z := wrap (a - b).
Definition neg (a : Z) : Z := wrap (- a).

(** [len(s)] of a slice. *)
Definition len {A} (l : list A) : Z := Z.of_nat (length l).

End GoInt.

Notation "a +i b" := (GoInt.add a b) (at level 50, left associativity).
Notation "a -i b" := (GoInt.sub a b) (at level 50, left associativity).
Abbreviation len := GoInt.len.

(** ** Results of code that can panic *)

Inductive result (A : Type) : Type :=
| Ok (a : A)
| Panic.
Arguments Ok {A} a.
Arguments Panic {A}.

(** ** The part of Go's [strings] package the code uses, on byte strings *)

Module GoStrings.

Definition strlen (s : string) : Z := Z.of_nat (String.length s).

(** [strings.HasPrefix(s, prefix)] *)
Definition HasPrefix (s prefix : string) : bool := String.prefix prefix s.

Definition dropBytes (n : nat) (s : string) : string :=
  String.substring n (String.length s - n) s.

(** [strings.HasSuffix(s, suffix)] *)
Definition HasSuffix (s suffix : string) : bool :=
  (String.length suffix <=? String.length s)%nat
  && String.eqb (dropBytes (String.length s - String.length suffix) s) suffix.

(** Byte offset of the first occurrence of [substr] in [s], as
    [strings.Index] finds it ([None] for -1). *)
Fixpoint Index (s substr : string) : option nat :=
  if String.prefix substr s then Some O
  else match s with
       | EmptyString => None
       | String _ s' => S <$> Index s' substr
       end.

(** [strings.Contains(s, substr)] *)
Definition Contains (s substr : string) : bool := bool_decide (is_Some (Index s substr)).

(** [strings.Count(s, substr)] for a non-empty [substr]: the number of
    non-overlapping occurrences.  Every round consumes at least one byte, so
    [String.length s] rounds are enough. *)
Fixpoint countFrom (fuel : nat) (s substr : string) : Z :=
  match fuel with
  | O => 0
  | S fuel' =>
      match Index s substr with
      | None => 0
      | Some i => 1 + countFrom fuel' (dropBytes (i + String.length substr) s) substr
      end
  end.

Definition Count (s substr : string) : Z := countFrom (String.length s) s substr.

(** [strings.Repeat(s, count)] for [count >= 0]. *)
Fixpoint Repeat (s : string) (count : nat) : string :=
  match count with
  | O => ""
  | S n => s +:+ Repeat s n
  end.

(** [s[lo:hi]]: panics unless [0 <= lo <= hi <= len(s)]. *)
Definition slice (s : string) (lo hi : Z) : result string :=
  if (0 <=? lo) && (lo <=? hi) && (hi <=? strlen s)
  then Ok (String.substring (Z.to_nat lo) (Z.to_nat (hi - lo)) s)
  else Panic.

(** [strings.Split(s, sep)] for a one-byte separator. *)
Fixpoint splitByte (sep : ascii) (s : string) : list string :=
  match s with
  | EmptyString => [""]
  | String c s' =>
      if Ascii.eqb c sep then "" :: splitByte sep s'
      else match splitByte sep s' with
           | [] => [String c ""]
           | p :: ps => String c p :: ps
           end
  end.

(** [strings.Join(elems, sep)] *)
Fixpoint Join (elems : list string) (sep : string) : string :=
  match elems with
  | [] => ""
  | [e] => e
  | e :: es => e +:+ sep +:+ Join es sep
  end.

End GoStrings.

(** ** markers.go *)

Module Markers.
Import GoStrings.

Definition bytes (l : list nat) : string :=
  string_of_list_ascii (ascii_of_nat <$> l).

(** The zero-width runes, in UTF-8. *)
Definition zws : string := bytes [226; 128; 139]%nat.   (* U+200B *)
Definition zwnj : string := bytes [226; 128; 140]%nat.  (* U+200C *)
Definition zwj : string := bytes [226; 128; 141]%nat.   (* U+200D *)
Definition wj : string := bytes [226; 129; 160]%nat.    (* U+2060 *)

Definition LinkStartMarker : string := zws +:+ zwnj.
Definition LinkEndMarker : string := zwnj +:+ zws.

Definition headerMarkerPrefix : string := zwj.
Definition headerLevelChar : string := wj.
Definition HeaderEndMarker : string := zwj +:+ zwnj.

Definition HeaderStartMarker (level : Z) : string :=
  let level := if level <? 1 then 1 else level in
  let level := if level >? 6 then 6 else level in
  headerMarkerPrefix +:+ Repeat headerLevelChar (Z.to_nat level) +:+ headerMarkerPrefix.

Definition DecodeHeaderLevel (marker : string) : result Z :=
  if negb (HasPrefix marker headerMarkerPrefix) then Ok 0
  else if negb (HasSuffix marker headerMarkerPrefix) then Ok 0
  else
    match slice marker (strlen headerMarkerPrefix)
                       (strlen marker - strlen headerMarkerPrefix) with
    | Panic => Panic
    | Ok inner =>
        let level := Count inner headerLevelChar in
        if (level <? 1) || (level >? 6) then Ok 0 else Ok level
    end.

(** The level a start marker is generated for. *)
Definition clampLevel (level : Z) : Z := Z.max 1 (Z.min 6 level).

End Markers.

(** ** Errors *)

Inductive error : Type :=
| ErrDirectoryTraversal
| ErrFileNotFound
| errRenderFailed
| errorString (msg : string).

Global Instance error_eq_dec : EqDecision error.
Proof. solve_decision. Defined.

(** ** The path resolver *)

Module PathResolver.
Import GoStrings.

(** *** Go's [path/filepath] on Unix, where the separator is ["/"] *)

Definition Separator : ascii := "/"%char.

(** [filepath.IsAbs] *)
Definition IsAbs (path : string) : bool := HasPrefix path "/".

(** One path element of [filepath.Clean].  [out] holds the elements kept so
    far, the last one first: empty and ["."] elements are dropped, [".."]
    removes the element before it, is dropped at the root, and is kept at
    the start of a relative path. *)
Definition cleanElem (rooted : bool) (out : list string) (elem : string) : list string :=
  if bool_decide (elem = "") || bool_decide (elem = ".") then out
  else if bool_decide (elem = "..") then
    match out with
    | [] => if rooted then [] else [".."]
    | e :: out' => if bool_decide (e = "..") then ".." :: out else out'
    end
  else elem :: out.

(** [filepath.Clean] *)
Definition Clean (path : string) : string :=
  if bool_decide (path = "") then "."
  else
    let rooted := HasPrefix path "/" in
    let out := reverse (foldl (cleanElem rooted) [] (splitByte Separator path)) in
    if rooted then "/" +:+ Join out "/"
    else if bool_decide (out = []) then "." else Join out "/".

(** [filepath.Join] of two elements: empty elements are ignored and the
    result is cleaned. *)
Definition Join2 (a b : string) : string :=
  if negb (bool_decide (a = "")) then Clean (a +:+ "/" +:+ b)
  else if negb (bool_decide (b = "")) then Clean b
  else "".

(** The bytes of [path] up to and including its last separator. *)
Fixpoint throughLastSeparator (path : string) : string :=
  match path with
  | EmptyString => ""
  | String c rest =>
      if Contains path "/" then String c (throughLastSeparator rest) else ""
  end.

(** [filepath.Dir] *)
Definition Dir (path : string) : string := Clean (throughLastSeparator path).

(** *** The resolver *)

Definition isHTTPURL (url : string) : bool :=
  HasPrefix url "http://" || HasPrefix url "https://".

(** Sensitive first elements of an absolute path: the keys of the map
    [sensitive]. *)
Definition sensitive : list string := ["etc"; "sys"; "proc"; "root"].

(** The two lists [sensitivePatterns]. *)
Definition sensitiveParts : list string := ["etc"; "var"; "usr"; "sys"; "proc"; "root"].
Definition sensitivePatterns : list string :=
  ["etc/"; "var/"; "usr/"; "sys/"; "proc/"; "root/"].

(** The number of [".."] parts before the first other part. *)
Fixpoint escapeCount (parts : list string) : Z :=
  match parts with
  | part :: rest => if bool_decide (part = "..") then 1 + escapeCount rest else 0
  | [] => 0
  end.

Definition inList (s : string) (l : list string) : bool := bool_decide (s ∈ l).

Definition containsDirectoryTraversal (path : string) : bool :=
  if IsAbs path
     && (let parts := splitByte Separator (Clean path) in
         match parts !! 1%nat with
         | Some p => inList p sensitive
         | None => false
         end)
  then true
  else if (HasPrefix path "../" || bool_decide (path = ".."))
          && (let parts := splitByte Separator (Clean path) in
              (escapeCount parts >? 1)
              || existsb (fun part => inList part sensitiveParts) parts)
  then true
  else if negb (IsAbs path)
          && existsb (fun pattern =>
                        HasPrefix path pattern || Contains path ("/" +:+ pattern))
                     sensitivePatterns
  then true
  else false.

Section Resolve.

(** The file system, as [fileExists] sees it ([os.Stat] succeeds and the
    entry is not a directory). *)
Variable fileExists : string -> bool.

(** The first search root under which the link exists. *)
Fixpoint trySearchRoots (linkURL : string) (searchRoots : list string) : string * option error :=
  match searchRoots with
  | [] => ("", Some ErrFileNotFound)
  | root :: rest =>
      if bool_decide (root = "") then trySearchRoots linkURL rest
      else
        let candidate := Clean (Join2 root linkURL) in
        if fileExists candidate then (candidate, None)
        else trySearchRoots linkURL rest
  end.

Definition ResolveMarkdownPath (linkURL sourceFilePath : string)
    (searchRoots : list string) : string * option error :=
  if bool_decide (linkURL = "") then ("", None)
  else if isHTTPURL linkURL then (linkURL, None)
  else if containsDirectoryTraversal linkURL then ("", Some ErrDirectoryTraversal)
  else if IsAbs linkURL then
    if fileExists linkURL then (linkURL, None) else ("", Some ErrFileNotFound)
  else
    let candidate := Clean (Join2 (Dir sourceFilePath) linkURL) in
    if negb (bool_decide (sourceFilePath = "")) && fileExists candidate
    then (candidate, None)
    else trySearchRoots linkURL searchRoots.

End Resolve.

(** *** The blocking rule as the specification words it *)

(** The first element of an absolute path, after lexical cleaning. *)
Definition firstSegment (url : string) : option string :=
  splitByte Separator (Clean url) !! 1%nat.

(** [url] contains the path element [name] followed by a separator. *)
Definition hasSegmentSlash (url name : string) : Prop :=
  HasPrefix url (name +:+ "/") = true ∨ Contains url ("/" +:+ name +:+ "/") = true.

(** Blocked, by the wording of the specification: an absolute path into
    [etc], [sys], [proc] or [root]; a relative path with a segment [etc/],
    [var/], [usr/], [sys/], [proc/] or [root/]; a relative path that begins
    with more than one parent-directory escape. *)
Definition specBlocked (url : string) : Prop :=
  (IsAbs url = true ∧ ∃ p, firstSegment url = Some p ∧ p ∈ sensitive)
  ∨ (IsAbs url = false ∧ ∃ name, name ∈ sensitiveParts ∧ hasSegmentSlash url name)
  ∨ (IsAbs url = false ∧ (HasPrefix url "../../" = true ∨ url = "../..")).

(** Blocked, as the code decides it. *)
Definition codeBlocked (url : string) : Prop :=
  (IsAbs url = true ∧ ∃ p, firstSegment url = Some p ∧ p ∈ sensitive)
  ∨ (IsAbs url = false ∧ ∃ name, name ∈ sensitiveParts ∧ hasSegmentSlash url name)
  ∨ ((HasPrefix url "../" = true ∨ url = "..")
     ∧ (1 < escapeCount (splitByte Separator (Clean url))
        ∨ ∃ part, part ∈ splitByte Separator (Clean url) ∧ part ∈ sensitiveParts)).

End PathResolver.

(** ** types.go *)

Inductive NavElementType : Type :=
| NavElementHeader
| NavElementURL.

Global Instance NavElementType_eq_dec : EqDecision NavElementType.
Proof. solve_decision. Defined.

Record NavElement : Type := mkNavElement {
  Type_ : NavElementType;
  Text : string;
  URL : string;
  Level : Z;
  Slug : string;
  SourceFilePath : string;
  StartLine : Z;
  EndLine : Z;
  StartCol : Z;
  EndCol : Z
}.

(** A [LineCleaner] is used through its [Clean] method only. *)
Definition LineCleaner : Type := string -> string.

Module PageState.
Record t : Type := mk {
  Markdown : string;
  SourceFilePath : string;
  SelectedIndex : Z;
  ScrollOffset : Z;
  Elements : list NavElement;
  RenderedLines : list string;
  Cleaner : option LineCleaner;
  Width : Z
}.
End PageState.

(** ** history.go *)

Module History.

Record NavigationHistory (T : Type) : Type := mk {
  backStack : list T;
  forwardStack : list T;
  maxSize : Z
}.
Arguments mk {T}.
Arguments backStack {T}.
Arguments forwardStack {T}.
Arguments maxSize {T}.

Section Methods.
Context {T : Type}.

Definition trim (h : NavigationHistory T) (slice : list T) : list T :=
  if maxSize h <=? 0 then slice
  else if len slice <=? maxSize h then slice
  else drop (Z.to_nat (len slice - maxSize h)) slice.

Definition NewNavigationHistory (maxSize : Z) : NavigationHistory T :=
  mk [] [] maxSize.

Definition CanGoBack (h : NavigationHistory T) : bool := len (backStack h) >? 0.
Definition CanGoForward (h : NavigationHistory T) : bool := len (forwardStack h) >? 0.

Definition Push (h : NavigationHistory T) (state : T) : NavigationHistory T :=
  let h1 := mk (backStack h ++ [state]) (forwardStack h) (maxSize h) in
  mk (trim h1 (backStack h1)) [] (maxSize h).

(** [slice[:len(slice)-1]] *)
Definition dropLast (slice : list T) : list T := take (length slice - 1) slice.

(** [Back] returns the popped state, or no state when there is none. *)
Definition Back (h : NavigationHistory T) : option T * NavigationHistory T :=
  if negb (CanGoBack h) then (None, h)
  else
    match last (backStack h) with
    | Some state => (Some state, mk (dropLast (backStack h)) (forwardStack h) (maxSize h))
    | None => (None, h)
    end.

Definition Forward (h : NavigationHistory T) : option T * NavigationHistory T :=
  if negb (CanGoForward h) then (None, h)
  else
    match last (forwardStack h) with
    | Some state => (Some state, mk (backStack h) (dropLast (forwardStack h)) (maxSize h))
    | None => (None, h)
    end.

Definition PushToForward (h : NavigationHistory T) (state : T) : NavigationHistory T :=
  let h1 := mk (backStack h) (forwardStack h ++ [state]) (maxSize h) in
  mk (backStack h1) (trim h1 (forwardStack h1)) (maxSize h).

Definition PushToBack (h : NavigationHistory T) (state : T) : NavigationHistory T :=
  let h1 := mk (backStack h ++ [state]) (forwardStack h) (maxSize h) in
  mk (trim h1 (backStack h1)) (forwardStack h1) (maxSize h).

Definition Clear (h : NavigationHistory T) : NavigationHistory T :=
  mk [] [] (maxSize h).

Definition BackStackSize (h : NavigationHistory T) : Z := len (backStack h).
Definition ForwardStackSize (h : NavigationHistory T) : Z := len (forwardStack h).

End Methods.
End History.

(** ** Text: Go's standard library on runes *)

Definition rune : Type := Z.

(** What [generateSlug] takes from [strings], [unicode] and the [range]
    loop over a string. *)
Class GoText : Type := {
  TrimSpace : string -> string;    (* strings.TrimSpace *)
  runesOf : string -> list rune;   (* the runes a [range] loop yields *)
  IsLetter : rune -> bool;         (* unicode.IsLetter *)
  IsDigit : rune -> bool;          (* unicode.IsDigit *)
  ToLower : rune -> rune;          (* unicode.ToLower *)
  WriteRune : rune -> string       (* the UTF-8 bytes WriteRune appends *)
}.

(** [fmt.Sprintf("%d", n)] *)
Definition itoa (n : Z) : string := NilZero.string_of_int (Z.to_int n).

Section Slug.
Context `{GoText}.

Definition generateSlug (text : string) : string :=
  let trimmed := TrimSpace text in
  foldl (fun result r =>
           if IsLetter r || IsDigit r then result +:+ WriteRune (ToLower r)
           else if r =? 32 then result +:+ "-"
           else if (r =? 45) || (r =? 95) then result +:+ WriteRune r
           else result)
        "" (runesOf trimmed).



End Slug.

(** ** The markdown parser *)

(** What the walk over goldmark's syntax tree meets, in order: a heading
    with the text of its [Text] children and its level, a link with its
    text and destination, an autolink with its URL. *)
Inductive Node : Type :=
| Heading (text : string) (level : Z)
| Link (text destination : string)
| AutoLink (url : string).

Class Goldmark : Type := {
  walk : string -> list Node
}.

Section Parse.
Context `{GoText}.

(** The slug of a heading whose base slug was met [count] times before. *)
Definition numberedSlug (baseSlug : string) (count : Z) : string :=
  if count >? 0 then baseSlug +:+ "-" +:+ itoa count else baseSlug.

(** One visited node: the element appended and the slug counts after. *)
Definition visit (sourceFilePath : string)
    (st : list NavElement * gmap string Z) (n : Node) : list NavElement * gmap string Z :=
  let '(elements, slugCounts) := st in
  match n with
  | Heading text level =>
      let baseSlug := generateSlug text in
      let count := default 0 (slugCounts !! baseSlug) in
      let slugCounts := <[baseSlug := count + 1]> slugCounts in
      let slug := numberedSlug baseSlug count in
      (elements ++ [mkNavElement NavElementHeader text "" level slug sourceFilePath 0 0 0 0],
       slugCounts)
  | Link text destination =>
      (elements ++ [mkNavElement NavElementURL text destination 0 "" sourceFilePath 0 0 0 0],
       slugCounts)
  | AutoLink url =>
      (elements ++ [mkNavElement NavElementURL url url 0 "" sourceFilePath 0 0 0 0],
       slugCounts)
  end.

Definition parseNodes (nodes : list Node) (sourceFilePath : string) : list NavElement :=
  fst (foldl (visit sourceFilePath) ([], ∅) nodes).

Definition parseMarkdownWithSource `{Goldmark} (source sourceFilePath : string) : list NavElement :=
  parseNodes (walk source) sourceFilePath.

(** How many headings of [nodes] have the base slug [s]. *)
Definition hasBase (s : string) (n : Node) : bool :=
  match n with
  | Heading text _ => bool_decide (generateSlug text = s)
  | _ => false
  end.

Definition headingsWithBase (s : string) (nodes : list Node) : Z :=
  len (List.filter (hasBase s) nodes).

End Parse.

(** ** renderer.go *)

Module RenderResult.
Record t : Type := mk {
  Lines : list string;
  Cleaner : option LineCleaner
}.
End RenderResult.

(** The implementations of the [Renderer] interface: the glamour-based
    [ANSIStyleRenderer], of which the session reads and writes [wordWrap]
    only, and any other implementation, given by its [Render] method. *)
Inductive Renderer : Type :=
| ANSIStyleRenderer (wordWrap : Z)
| customRenderer (render : string -> RenderResult.t * option error).

(** The terminal renderer of glamour at a word-wrap width, and the cleaner
    that strips ANSI sequences and markers from its lines. *)
Class Glamour : Type := {
  glamourRender : Z -> string -> string * option error;
  stripANSIAndMarkers : LineCleaner
}.

Definition newline : ascii := ascii_of_nat 10.

Definition Render `{Glamour} (r : Renderer) (markdown : string) : RenderResult.t * option error :=
  match r with
  | ANSIStyleRenderer wordWrap =>
      match glamourRender wordWrap markdown with
      | (_, Some err) =>
          (RenderResult.mk (GoStrings.splitByte newline markdown) (Some (fun s => s)), Some err)
      | (out, None) =>
          (RenderResult.mk (GoStrings.splitByte newline out) (Some stripANSIAndMarkers), None)
      end
  | customRenderer render => render markdown
  end.

Definition NewANSIRenderer : Renderer := ANSIStyleRenderer 0.

(** The two renderers of the package's tests. *)
Definition staticRenderer (lines : list string) (cleaner : option LineCleaner) : Renderer :=
  customRenderer (fun _ =>
    (RenderResult.mk lines (Some (default (fun s => s) cleaner)), None)).

Definition errorRenderer (err : error) : Renderer :=
  customRenderer (fun _ => (RenderResult.mk [] None, Some err)).

(** ** correlator.go: the [PositionCorrelator] interface *)

(** A correlator is an object of some type [C] with its own state.
    [CorrelatePosition] returns [(lineIdx, startCol, endCol, found)] and the
    object after the call; [resetMarkerCorrelator] is [Reset] on a
    [*MarkerCorrelator] and nothing on any other implementation. *)
Class PositionCorrelator (C : Type) : Type := {
  NewMarkerCorrelator : C;
  resetMarkerCorrelator : C -> C;
  CorrelatePosition :
    C -> NavElement -> list string -> option LineCleaner -> (Z * Z * Z * bool) * C
}.

(** ** markdown_session.go *)

Module Options.
Record t (C : Type) : Type := mk {
  Renderer_ : option Renderer;
  Correlator : option C;
  HistoryMax : Z;
  AlwaysScrollToAnchor : bool
}.
Arguments mk {C}.
Arguments Renderer_ {C}.
Arguments Correlator {C}.
Arguments HistoryMax {C}.
Arguments AlwaysScrollToAnchor {C}.
End Options.

Record MarkdownSession (C : Type) : Type := mkSession {
  (* content *)
  markdown : string;
  currentSourceFile : string;
  renderedLines : list string;
  cleaner : option LineCleaner;
  elements : list NavElement;
  (* navigation *)
  selectedIndex : Z;
  scrollOffset : Z;
  (* history *)
  history : History.NavigationHistory PageState.t;
  (* strategies *)
  renderer : Renderer;
  correlator : C;
  (* rendering *)
  currentWidth : Z;
  (* behavior *)
  alwaysScrollToAnchor : bool
}.
Arguments mkSession {C}.
Arguments markdown {C}.
Arguments currentSourceFile {C}.
Arguments renderedLines {C}.
Arguments cleaner {C}.
Arguments elements {C}.
Arguments selectedIndex {C}.
Arguments scrollOffset {C}.
Arguments history {C}.
Arguments renderer {C}.
Arguments correlator {C}.
Arguments currentWidth {C}.
Arguments alwaysScrollToAnchor {C}.

Section Session.
Context {C : Type}.
Context `{GoText} `{Goldmark} `{Glamour} `{PositionCorrelator C}.

Abbreviation Session := (MarkdownSession C).

(** *** Assignments to the fields of the session *)

Definition setContent (v : Session) (md src : string) (elems : list NavElement)
    (lines : list string) : Session :=
  mkSession md src lines (cleaner v) elems (selectedIndex v) (scrollOffset v)
    (history v) (renderer v) (correlator v) (currentWidth v) (alwaysScrollToAnchor v).

Definition setRenderedLines (v : Session) (lines : list string) : Session :=
  mkSession (markdown v) (currentSourceFile v) lines (cleaner v) (elements v)
    (selectedIndex v) (scrollOffset v) (history v) (renderer v) (correlator v)
    (currentWidth v) (alwaysScrollToAnchor v).

Definition setElements (v : Session) (elems : list NavElement) : Session :=
  mkSession (markdown v) (currentSourceFile v) (renderedLines v) (cleaner v) elems
    (selectedIndex v) (scrollOffset v) (history v) (renderer v) (correlator v)
    (currentWidth v) (alwaysScrollToAnchor v).

Definition setSelectedIndex (v : Session) (i : Z) : Session :=
  mkSession (markdown v) (currentSourceFile v) (renderedLines v) (cleaner v) (elements v)
    i (scrollOffset v) (history v) (renderer v) (correlator v)
    (currentWidth v) (alwaysScrollToAnchor v).

Definition setScrollOffset (v : Session) (o : Z) : Session :=
  mkSession (markdown v) (currentSourceFile v) (renderedLines v) (cleaner v) (elements v)
    (selectedIndex v) o (history v) (renderer v) (correlator v)
    (currentWidth v) (alwaysScrollToAnchor v).

Definition setHistory (v : Session) (h : History.NavigationHistory PageState.t) : Session :=
  mkSession (markdown v) (currentSourceFile v) (renderedLines v) (cleaner v) (elements v)
    (selectedIndex v) (scrollOffset v) h (renderer v) (correlator v)
    (currentWidth v) (alwaysScrollToAnchor v).

Definition setCurrentWidth (v : Session) (w : Z) : Session :=
  mkSession (markdown v) (currentSourceFile v) (renderedLines v) (cleaner v) (elements v)
    (selectedIndex v) (scrollOffset v) (history v) (renderer v) (correlator v)
    w (alwaysScrollToAnchor v).

Definition assignRenderer (v : Session) (r : Renderer) : Session :=
  mkSession (markdown v) (currentSourceFile v) (renderedLines v) (cleaner v) (elements v)
    (selectedIndex v) (scrollOffset v) (history v) r (correlator v)
    (currentWidth v) (alwaysScrollToAnchor v).

Definition assignCorrelator (v : Session) (c : C) : Session :=
  mkSession (markdown v) (currentSourceFile v) (renderedLines v) (cleaner v) (elements v)
    (selectedIndex v) (scrollOffset v) (history v) (renderer v) c
    (currentWidth v) (alwaysScrollToAnchor v).

(** *** Construction and strategies *)

Definition New (opts : Options.t C) : Session :=
  let renderer := default NewANSIRenderer (Options.Renderer_ opts) in
  let correlator := default NewMarkerCorrelator (Options.Correlator opts) in
  let hmax := if Options.HistoryMax opts <=? 0 then 50 else Options.HistoryMax opts in
  mkSession "" "" [] None [] (-1) 0 (History.NewNavigationHistory hmax)
    renderer correlator 0 (Options.AlwaysScrollToAnchor opts).

Definition SetCorrelator (v : Session) (c : option C) : Session :=
  assignCorrelator v (default NewMarkerCorrelator c).

Definition SetRenderer (v : Session) (r : option Renderer) : Session :=
  assignRenderer v (default NewANSIRenderer r).

(** *** Accessors *)

(** [v.elements[i]] behind a bounds check the caller has made. *)
Definition elementAt (v : Session) (i : Z) : option NavElement :=
  elements v !! Z.to_nat i.

Definition Selected (v : Session) : option NavElement :=
  if (selectedIndex v <? 0) || (selectedIndex v >=? len (elements v)) then None
  else elementAt v (selectedIndex v).

(** [VisibleLines] writes [scrollOffset] when it is negative; the slice
    expression panics when [end] has wrapped around below the offset. *)
Definition VisibleLines (v : Session) (viewportHeight : Z) : result (list string * Session) :=
  if (viewportHeight <=? 0) || (len (renderedLines v) =? 0) then Ok ([], v)
  else
    let v := if scrollOffset v <? 0 then setScrollOffset v 0 else v in
    if scrollOffset v >=? len (renderedLines v) then Ok ([], v)
    else
      let end_ := scrollOffset v +i viewportHeight in
      let end_ := if end_ >? len (renderedLines v) then len (renderedLines v) else end_ in
      if end_ <? scrollOffset v then Panic
      else Ok (take (Z.to_nat (end_ - scrollOffset v))
                    (drop (Z.to_nat (scrollOffset v)) (renderedLines v)), v).

(** *** Rendering and correlation *)

(** [WithWordWrap] writes the width into the renderer the session holds. *)
Definition rendererForWidth (v : Session) (cols : Z) : Renderer :=
  if cols >? 0 then
    match renderer v with
    | ANSIStyleRenderer _ => ANSIStyleRenderer cols
    | r => r
    end
  else renderer v.

Definition setCleaner (v : Session) (c : option LineCleaner) : Session :=
  mkSession (markdown v) (currentSourceFile v) (renderedLines v)
    (Some (default (fun s => s) c)) (elements v)
    (selectedIndex v) (scrollOffset v) (history v) (renderer v) (correlator v)
    (currentWidth v) (alwaysScrollToAnchor v).

(** The first loop of [correlatePositions]: one call of the correlator for
    each element, in order.  A correlation that was found is
    [Some (lineIdx, startCol, endCol)]. *)
Fixpoint correlateAll (c : C) (elems : list NavElement) (lines : list string)
    (cl : option LineCleaner) : list (option (Z * Z * Z)) * C :=
  match elems with
  | [] => ([], c)
  | elem :: rest =>
      let '((lineIdx, startCol, endCol, found), c1) := CorrelatePosition c elem lines cl in
      let '(cs, c2) := correlateAll c1 rest lines cl in
      ((if found then Some (lineIdx, startCol, endCol) else None) :: cs, c2)
  end.

(** The second loop: the longest match for each key.  The key
    [Sprintf("%d:%d", lineIdx, startCol)] is the pair it prints. *)
Definition recordLongest (usedPositions : gmap (Z * Z) Z) (c : option (Z * Z * Z))
    : gmap (Z * Z) Z :=
  match c with
  | None => usedPositions
  | Some (lineIdx, startCol, endCol) =>
      let matchLen := endCol -i startCol in
      match usedPositions !! (lineIdx, startCol) with
      | Some existingLen =>
          if matchLen >? existingLen then <[(lineIdx, startCol) := matchLen]> usedPositions
          else usedPositions
      | None => <[(lineIdx, startCol) := matchLen]> usedPositions
      end
  end.

Definition withPosition (elem : NavElement) (lineIdx startCol endCol : Z) : NavElement :=
  mkNavElement (Type_ elem) (Text elem) (URL elem) (Level elem) (Slug elem)
    (SourceFilePath elem) lineIdx lineIdx startCol endCol.

(** The third loop: a correlation is written into its element when its
    length is the winning one. *)
Definition applyCorrelation (usedPositions : gmap (Z * Z) Z) (elem : NavElement)
    (c : option (Z * Z * Z)) : NavElement :=
  match c with
  | None => elem
  | Some (lineIdx, startCol, endCol) =>
      let matchLen := endCol -i startCol in
      let winningLen := default 0 (usedPositions !! (lineIdx, startCol)) in
      if matchLen =? winningLen then withPosition elem lineIdx startCol endCol else elem
  end.

Definition correlatePositions (v : Session) : Session :=
  if (len (elements v) =? 0) || (len (renderedLines v) =? 0) then v
  else
    let c0 := resetMarkerCorrelator (correlator v) in
    let '(correlations, c1) := correlateAll c0 (elements v) (renderedLines v) (cleaner v) in
    let usedPositions := foldl recordLongest ∅ correlations in
    setElements (assignCorrelator v c1)
      (zip_with (applyCorrelation usedPositions) (elements v) correlations).

Definition reRenderWithWidth (v : Session) (cols : Z) : option error * Session :=
  let r := rendererForWidth v cols in
  let v := assignRenderer v r in
  match Render r (markdown v) with
  | (_, Some err) => (Some err, v)
  | (rendered, None) =>
      let v := setRenderedLines v (RenderResult.Lines rendered) in
      let v := setCleaner v (RenderResult.Cleaner rendered) in
      (None, correlatePositions v)
  end.

(** *** Loops over the element table *)

(** [for i := start; i < len(l); i++]: the first index with [p], counting
    from [i] at the head of [l]. *)
Fixpoint findIndexFrom {A} (p : A -> bool) (l : list A) (i : Z) : option Z :=
  match l with
  | [] => None
  | x :: l' => if p x then Some i else findIndexFrom p l' (i + 1)
  end.

Definition firstIndexFrom {A} (p : A -> bool) (l : list A) (start : Z) : option Z :=
  findIndexFrom p (drop (Z.to_nat start) l) start.

(** [for i := n; i >= 0; i--]: the last index at most [n] with [p]. *)
Fixpoint lastIndexUpTo {A} (p : A -> bool) (l : list A) (n : nat) : option Z :=
  let here := match l !! n with Some x => p x | None => false end in
  if here then Some (Z.of_nat n)
  else match n with
       | O => None
       | S n' => lastIndexUpTo p l n'
       end.

(** The loop of [findElementNearLine]. *)
Fixpoint nearLoop (lineIdx : Z) (elems : list NavElement) (i bestIdx bestDist : Z) : Z :=
  match elems with
  | [] => bestIdx
  | e :: rest =>
      let dist := StartLine e -i lineIdx in
      let dist := if dist <? 0 then GoInt.neg dist else dist in
      if (bestIdx =? -1) || (dist <? bestDist)
      then nearLoop lineIdx rest (i + 1) i dist
      else nearLoop lineIdx rest (i + 1) bestIdx bestDist
  end.

(** The element found is a pointer into the table: its index. *)
Definition findElementNearLine (v : Session) (lineIdx : Z) : option nat :=
  if len (elements v) =? 0 then None
  else
    let bestIdx := nearLoop lineIdx (elements v) 0 (-1) (-1) in
    if bestIdx >=? 0 then Some (Z.to_nat bestIdx) else None.

Definition elementsMatch (e1 e2 : NavElement) : bool :=
  if negb (bool_decide (Type_ e1 = Type_ e2)) then false
  else if bool_decide (Type_ e1 = NavElementHeader) then bool_decide (Slug e1 = Slug e2)
  else bool_decide (URL e1 = URL e2) && bool_decide (Text e1 = Text e2).

(** The test of the traversal functions: a link with a span. *)
Definition isNavigableLink (e : NavElement) : bool :=
  bool_decide (Type_ e = NavElementURL) && (EndCol e >? StartCol e).

(** *** Width change *)

Definition restoreScrollAndSelection (v : Session) (anchorElem : option nat)
    (selectedElem : option NavElement) : Session :=
  let v :=
    match anchorElem ≫= (fun a => elements v !! a) with
    | Some anchor =>
        match List.find (fun e => elementsMatch e anchor) (elements v) with
        | Some e => setScrollOffset v (StartLine e)
        | None => v
        end
    | None => v
    end in
  let restored :=
    match selectedElem with
    | Some s =>
        if bool_decide (Type_ s = NavElementURL)
        then findIndexFrom (fun e => elementsMatch e s) (elements v) 0
        else None
    | None => None
    end in
  match restored with
  | Some i => setSelectedIndex v i
  | None =>
      let v := setSelectedIndex v (-1) in
      if (len (renderedLines v) >? 0) && (scrollOffset v >=? len (renderedLines v))
      then setScrollOffset v (len (renderedLines v) -i 1)
      else v
  end.

Definition SetWidth (v : Session) (cols : Z) : bool * Session :=
  let cols := if cols <? 0 then 0 else cols in
  if currentWidth v =? cols then (false, v)
  else if bool_decide (markdown v = "") then (false, setCurrentWidth v cols)
  else
    let selectedElem := Selected v in
    let anchorElem :=
      if (scrollOffset v >=? 0) && (scrollOffset v <? len (renderedLines v)) then
        match findElementNearLine v (scrollOffset v) with
        | Some a =>
            match elements v !! a with
            | Some anchor => if EndCol anchor <=? StartCol anchor then None else Some a
            | None => None
            end
        | None => None
        end
      else None in
    let oldWidth := currentWidth v in
    let v := setCurrentWidth v cols in
    match reRenderWithWidth v cols with
    | (Some _, v) => (false, setCurrentWidth v oldWidth)
    | (None, v) => (true, restoreScrollAndSelection v anchorElem selectedElem)
    end.

(** *** Loading *)

Definition saveCurrentState (v : Session) : PageState.t :=
  PageState.mk (markdown v) (currentSourceFile v) (selectedIndex v) (scrollOffset v)
    (elements v) (renderedLines v) (cleaner v) (currentWidth v).

Definition SetMarkdownWithSource (v : Session) (content sourceFilePath : string)
    (pushToHistory : bool) : option error * Session :=
  let tmpElements := parseMarkdownWithSource content sourceFilePath in
  let r := rendererForWidth v (currentWidth v) in
  let v := assignRenderer v r in
  match Render r content with
  | (_, Some err) => (Some err, v)
  | (rendered, None) =>
      let v :=
        if pushToHistory && negb (bool_decide (markdown v = ""))
        then setHistory v (History.Push (history v) (saveCurrentState v))
        else v in
      let v := setContent v content sourceFilePath tmpElements (RenderResult.Lines rendered) in
      let v := setCleaner v (RenderResult.Cleaner rendered) in
      let v := correlatePositions v in
      let v := setSelectedIndex v (-1) in
      (None, setScrollOffset v 0)
  end.

Definition SetMarkdown (v : Session) (content : string) : option error * Session :=
  SetMarkdownWithSource v content "" false.

(** *** History *)

Definition restoreState (v : Session) (state : PageState.t) : Session :=
  let v :=
    mkSession (PageState.Markdown state) (PageState.SourceFilePath state)
      (PageState.RenderedLines state) (cleaner v) (PageState.Elements state)
      (selectedIndex v) (PageState.ScrollOffset state) (history v) (renderer v)
      (correlator v) (PageState.Width state) (alwaysScrollToAnchor v) in
  let v := setCleaner v (PageState.Cleaner state) in
  let v := setSelectedIndex v (PageState.SelectedIndex state) in
  if (selectedIndex v <? 0) || (selectedIndex v >=? len (elements v))
  then setSelectedIndex v (-1)
  else
    match elementAt v (selectedIndex v) with
    | Some e => if bool_decide (Type_ e = NavElementHeader) then setSelectedIndex v (-1) else v
    | None => v
    end.

Definition CanGoBack (v : Session) : bool := History.CanGoBack (history v).
Definition CanGoForward (v : Session) : bool := History.CanGoForward (history v).

Definition GoBack (v : Session) : bool * Session :=
  if negb (History.CanGoBack (history v)) then (false, v)
  else
    match History.Back (history v) with
    | (Some prevState, h) =>
        let v := setHistory v h in
        let v := setHistory v (History.PushToForward (history v) (saveCurrentState v)) in
        (true, restoreState v prevState)
    | (None, _) => (false, v)
    end.

Definition GoForward (v : Session) : bool * Session :=
  if negb (History.CanGoForward (history v)) then (false, v)
  else
    match History.Forward (history v) with
    | (Some nextState, h) =>
        let v := setHistory v h in
        let v := setHistory v (History.PushToBack (history v) (saveCurrentState v)) in
        (true, restoreState v nextState)
    | (None, _) => (false, v)
    end.

(** *** Scrolling *)

Definition clearSelectionIfOffScreen (v : Session) (viewportHeight : Z) : Session :=
  if (selectedIndex v <? 0) || (selectedIndex v >=? len (elements v)) then v
  else if viewportHeight <=? 0 then v
  else
    match elementAt v (selectedIndex v) with
    | Some elem =>
        if EndLine elem <? scrollOffset v then setSelectedIndex v (-1)
        else if StartLine elem >=? scrollOffset v +i viewportHeight then setSelectedIndex v (-1)
        else v
    | None => v
    end.

Definition ScrollUp (v : Session) (viewportHeight : Z) : bool * Session :=
  if scrollOffset v >? 0 then
    let v := setScrollOffset v (scrollOffset v -i 1) in
    (true, clearSelectionIfOffScreen v viewportHeight)
  else (false, v).

(** [len(v.renderedLines) - viewportHeight], not below 0. *)
Definition maxOffsetFor (v : Session) (viewportHeight : Z) : Z :=
  let maxOffset := len (renderedLines v) -i viewportHeight in
  if maxOffset <? 0 then 0 else maxOffset.

Definition ScrollDown (v : Session) (viewportHeight : Z) : bool * Session :=
  let maxOffset := maxOffsetFor v viewportHeight in
  if scrollOffset v <? maxOffset then
    let v := setScrollOffset v (scrollOffset v +i 1) in
    (true, clearSelectionIfOffScreen v viewportHeight)
  else (false, v).

(** [for i := 0; i < viewportHeight; i++] around a one-line step that stops
    the loop when it fails. *)
Fixpoint pageLoop (step : Session -> bool * Session) (n : nat) (v : Session)
    (moved : bool) : bool * Session :=
  match n with
  | O => (moved, v)
  | S n' =>
      let '(ok, v') := step v in
      if ok then pageLoop step n' v' true else (moved, v)
  end.

Definition PageUp (v : Session) (viewportHeight : Z) : bool * Session :=
  pageLoop (fun v => ScrollUp v viewportHeight) (Z.to_nat viewportHeight) v false.

Definition PageDown (v : Session) (viewportHeight : Z) : bool * Session :=
  pageLoop (fun v => ScrollDown v viewportHeight) (Z.to_nat viewportHeight) v false.

Definition Home (v : Session) (viewportHeight : Z) : Session :=
  clearSelectionIfOffScreen (setScrollOffset v 0) viewportHeight.

Definition End_ (v : Session) (viewportHeight : Z) : Session :=
  clearSelectionIfOffScreen (setScrollOffset v (maxOffsetFor v viewportHeight)) viewportHeight.

(** *** Link traversal *)

Definition ensureVisible (v : Session) (viewportHeight : Z) : Session :=
  if (selectedIndex v <? 0) || (selectedIndex v >=? len (elements v)) then v
  else if viewportHeight <=? 0 then v
  else
    match elementAt v (selectedIndex v) with
    | Some elem =>
        let v := if StartLine elem <? scrollOffset v
                 then setScrollOffset v (StartLine elem) else v in
        let v := if EndLine elem >=? scrollOffset v +i viewportHeight
                 then setScrollOffset v (EndLine elem -i viewportHeight +i 1) else v in
        if scrollOffset v <? 0 then setScrollOffset v 0 else v
    | None => v
    end.

Definition selectAndShow (v : Session) (i viewportHeight : Z) : Session :=
  ensureVisible (setSelectedIndex v i) viewportHeight.

(** With a selection the loop starts at [selectedIndex + 1]; an index that
    has wrapped around below 0 is out of range. *)
Definition MoveToNextLink (v : Session) (viewportHeight : Z) : result (bool * Session) :=
  if len (elements v) =? 0 then Ok (false, v)
  else if selectedIndex v >=? 0 then
    let start := selectedIndex v +i 1 in
    if start <? 0 then Panic
    else
      match firstIndexFrom isNavigableLink (elements v) start with
      | Some i => Ok (true, selectAndShow v i viewportHeight)
      | None => Ok (false, v)
      end
  else
    match findIndexFrom
            (fun e => bool_decide (Type_ e = NavElementURL)
                      && (StartLine e >=? scrollOffset v)
                      && (StartLine e <? scrollOffset v +i viewportHeight)
                      && (EndCol e >? StartCol e))
            (elements v) 0 with
    | Some i => Ok (true, selectAndShow v i viewportHeight)
    | None => Ok (false, v)
    end.

(** With a selection the loop starts at [selectedIndex - 1], which is out
    of range when the selection lies beyond the table. *)
Definition MoveToPreviousLink (v : Session) (viewportHeight : Z) : result (bool * Session) :=
  if len (elements v) =? 0 then Ok (false, v)
  else if selectedIndex v >=? 0 then
    let start := selectedIndex v -i 1 in
    if start <? 0 then Ok (false, v)
    else if start >=? len (elements v) then Panic
    else
      match lastIndexUpTo isNavigableLink (elements v) (Z.to_nat start) with
      | Some i => Ok (true, selectAndShow v i viewportHeight)
      | None => Ok (false, v)
      end
  else
    let viewportBottom := scrollOffset v +i viewportHeight -i 1 in
    match lastIndexUpTo
            (fun e => bool_decide (Type_ e = NavElementURL)
                      && (StartLine e >=? scrollOffset v)
                      && (StartLine e <=? viewportBottom)
                      && (EndCol e >? StartCol e))
            (elements v) (length (elements v) - 1) with
    | Some i => Ok (true, selectAndShow v i viewportHeight)
    | None => Ok (false, v)
    end.

Definition MoveToFirst (v : Session) (viewportHeight : Z) : bool * Session :=
  if len (elements v) =? 0 then (false, v)
  else
    match findIndexFrom isNavigableLink (elements v) 0 with
    | Some i =>
        if negb (selectedIndex v =? i) then (true, selectAndShow v i viewportHeight)
        else (false, v)
    | None => (false, v)
    end.

Definition MoveToLast (v : Session) (viewportHeight : Z) : bool * Session :=
  if len (elements v) =? 0 then (false, v)
  else
    match lastIndexUpTo isNavigableLink (elements v) (length (elements v) - 1) with
    | Some i =>
        if negb (selectedIndex v =? i) then (true, selectAndShow v i viewportHeight)
        else (false, v)
    | None => (false, v)
    end.

(** *** Anchors *)

Definition FindHeaderBySlug (v : Session) (slug : string) : option NavElement :=
  List.find (fun e => bool_decide (Type_ e = NavElementHeader) && bool_decide (Slug e = slug))
            (elements v).

Definition ScrollToAnchor (v : Session) (slug : string) (viewportHeight : Z)
    (pushToHistory : bool) : bool * Session :=
  match FindHeaderBySlug v slug with
  | None => (false, v)
  | Some header =>
      if negb (alwaysScrollToAnchor v)
         && (StartLine header >=? scrollOffset v)
         && (StartLine header <? scrollOffset v +i viewportHeight)
      then (true, v)
      else
        let v := if pushToHistory
                 then setHistory v (History.Push (history v) (saveCurrentState v))
                 else v in
        let v := setScrollOffset v (StartLine header) in
        let maxOffset := maxOffsetFor v viewportHeight in
        let v := if scrollOffset v >? maxOffset then setScrollOffset v maxOffset else v in
        (true, v)
  end.

(** ** The public operations, and the states they reach *)

Inductive Op : Type :=
| OpSetMarkdownWithSource (content sourceFilePath : string) (pushToHistory : bool)
| OpSetWidth (cols : Z)
| OpScrollUp (viewportHeight : Z)
| OpScrollDown (viewportHeight : Z)
| OpPageUp (viewportHeight : Z)
| OpPageDown (viewportHeight : Z)
| OpHome (viewportHeight : Z)
| OpEnd (viewportHeight : Z)
| OpMoveToNextLink (viewportHeight : Z)
| OpMoveToPreviousLink (viewportHeight : Z)
| OpMoveToFirst (viewportHeight : Z)
| OpMoveToLast (viewportHeight : Z)
| OpScrollToAnchor (slug : string) (viewportHeight : Z) (pushToHistory : bool)
| OpGoBack
| OpGoForward
| OpVisibleLines (viewportHeight : Z)
| OpSetRenderer (r : option Renderer)
| OpSetCorrelator (c : option C).

Definition mapResult {A B} (f : A -> B) (r : result A) : result B :=
  match r with
  | Ok a => Ok (f a)
  | Panic => Panic
  end.

(** The session after an operation. *)
Definition run (op : Op) (v : Session) : result Session :=
  match op with
  | OpSetMarkdownWithSource content src push => Ok (snd (SetMarkdownWithSource v content src push))
  | OpSetWidth cols => Ok (snd (SetWidth v cols))
  | OpScrollUp h => Ok (snd (ScrollUp v h))
  | OpScrollDown h => Ok (snd (ScrollDown v h))
  | OpPageUp h => Ok (snd (PageUp v h))
  | OpPageDown h => Ok (snd (PageDown v h))
  | OpHome h => Ok (Home v h)
  | OpEnd h => Ok (End_ v h)
  | OpMoveToNextLink h => mapResult snd (MoveToNextLink v h)
  | OpMoveToPreviousLink h => mapResult snd (MoveToPreviousLink v h)
  | OpMoveToFirst h => Ok (snd (MoveToFirst v h))
  | OpMoveToLast h => Ok (snd (MoveToLast v h))
  | OpScrollToAnchor slug h push => Ok (snd (ScrollToAnchor v slug h push))
  | OpGoBack => Ok (snd (GoBack v))
  | OpGoForward => Ok (snd (GoForward v))
  | OpVisibleLines h => mapResult snd (VisibleLines v h)
  | OpSetRenderer r => Ok (SetRenderer v r)
  | OpSetCorrelator c => Ok (SetCorrelator v c)
  end.

(** The states reached from a new session by operations in [allowed]. *)
Inductive reachableBy (allowed : Op -> Prop) : Session -> Prop :=
| reach_New opts : reachableBy allowed (New opts)
| reach_run v op v' :
    reachableBy allowed v -> allowed op -> run op v = Ok v' -> reachableBy allowed v'.

Definition anyOp (op : Op) : Prop := True.

(** The operations the specification's invariants are stated for: loading,
    width, scrolling, link traversal, anchors and history. *)
Definition navigationOp (op : Op) : Prop :=
  match op with
  | OpVisibleLines _ | OpSetRenderer _ | OpSetCorrelator _ => False
  | _ => True
  end.

Definition notSetWidth (op : Op) : Prop :=
  match op with
  | OpSetWidth _ => False
  | _ => True
  end.

Definition reachable : Session -> Prop := reachableBy anyOp.

End Session.

(** ** Collaborators for concrete runs *)

Module Doubles.

(** *** Go's text functions on ASCII text *)

Definition asciiIsSpace (c : ascii) : bool :=
  let n := nat_of_ascii c in
  ((9 <=? n) && (n <=? 13))%nat || (n =? 32)%nat.

Fixpoint trimLeft (s : string) : string :=
  match s with
  | String c s' => if asciiIsSpace c then trimLeft s' else s
  | EmptyString => ""
  end.

Definition asciiTrimSpace (s : string) : string :=
  String.rev (trimLeft (String.rev (trimLeft s))).

Definition asciiRunes (s : string) : list rune :=
  (fun c => Z.of_nat (nat_of_ascii c)) <$> list_ascii_of_string s.

Definition asciiIsLetter (r : rune) : bool :=
  ((65 <=? r) && (r <=? 90)) || ((97 <=? r) && (r <=? 122)).

Definition asciiIsDigit (r : rune) : bool := (48 <=? r) && (r <=? 57).

Definition asciiToLower (r : rune) : rune :=
  if (65 <=? r) && (r <=? 90) then r + 32 else r.

Definition asciiWriteRune (r : rune) : string :=
  String (ascii_of_nat (Z.to_nat r)) "".

#[export] Instance asciiText : GoText := {|
  TrimSpace := asciiTrimSpace;
  runesOf := asciiRunes;
  IsLetter := asciiIsLetter;
  IsDigit := asciiIsDigit;
  ToLower := asciiToLower;
  WriteRune := asciiWriteRune
|}.

(** *** A parser for the markdown the examples use: ATX headings and lines
    that are one inline link *)

Fixpoint leadingHashes (s : string) : nat * string :=
  match s with
  | String c s' =>
      if Ascii.eqb c "#" then let '(n, rest) := leadingHashes s' in (S n, rest)
      else (O, s)
  | EmptyString => (O, "")
  end.

(** The text before the first [stop] and the text after it. *)
Definition cutAt (s stop : string) : option (string * string) :=
  match GoStrings.Index s stop with
  | Some i => Some (String.substring 0 i s, GoStrings.dropBytes (i + String.length stop) s)
  | None => None
  end.

Definition lineNode (line : string) : list Node :=
  match leadingHashes line with
  | (S n, String " " text) =>
      if (S n <=? 6)%nat then [Heading text (Z.of_nat (S n))] else []
  | (O, String "[" rest) =>
      match cutAt rest "](" with
      | Some (text, rest') =>
          match cutAt rest' ")" with
          | Some (destination, _) => [Link text destination]
          | None => []
          end
      | None => []
      end
  | _ => []
  end.

#[export] Instance lineParser : Goldmark := {|
  walk := fun source => concat (lineNode <$> GoStrings.splitByte newline source)
|}.

(** *** A terminal renderer that prints the markdown as it is *)

#[export] Instance plainGlamour : Glamour := {|
  glamourRender := fun _ markdown => (markdown, None);
  stripANSIAndMarkers := fun s => s
|}.

(** *** Correlators that answer from a script *)

(** The answers still to give; the last one is given for ever.  The
    [fixedCorrelator] of the package's tests is a script of one answer. *)
Definition scripted : Type := list (Z * Z * Z * bool).

#[export] Instance scriptedCorrelator : PositionCorrelator scripted := {|
  NewMarkerCorrelator := [];
  resetMarkerCorrelator := fun c => c;
  CorrelatePosition := fun c _ _ _ =>
    match c with
    | [] => ((0, 0, 0, false), [])
    | [a] => (a, [a])
    | a :: rest => (a, rest)
    end
|}.

Definition fixedCorrelator (lineIdx startCol endCol : Z) (found : bool) : scripted :=
  [(lineIdx, startCol, endCol, found)].

(** *** Runs *)

(** The session after a list of operations, when none panics. *)
Fixpoint runAll (ops : list (Op (C := scripted))) (v : MarkdownSession scripted)
    : result (MarkdownSession scripted) :=
  match ops with
  | [] => Ok v
  | op :: rest =>
      match run op v with
      | Ok v' => runAll rest v'
      | Panic => Panic
      end
  end.

Definition nl : string := String newline "".

End Doubles.

(** ** Predicates on sessions *)

Section Predicates.
Context {C : Type}.

(** The selection [restoreState] leaves: the saved index when it is in
    range and not on a header, and -1 otherwise. *)
Definition restoredIndex (state : PageState.t) : Z :=
  let i := PageState.SelectedIndex state in
  if (i <? 0) || (i >=? len (PageState.Elements state)) then -1
  else
    match PageState.Elements state !! Z.to_nat i with
    | Some e => if bool_decide (Type_ e = NavElementHeader) then -1 else i
    | None => i
    end.

(** Index [i] of the table holds a link; with [strict], a link with a
    span. *)
Definition linkAt (strict : bool) (elems : list NavElement) (i : Z) : Prop :=
  0 <= i /\ exists e, elems !! Z.to_nat i = Some e
                      /\ Type_ e = NavElementURL
                      /\ (strict = true -> StartCol e < EndCol e).

Definition selectionOK (strict : bool) (v : MarkdownSession C) : Prop :=
  selectedIndex v = -1 \/ linkAt strict (elements v) (selectedIndex v).

(** A snapshot whose selection, once restored, is a link with a span. *)
Definition snapshotOK (p : PageState.t) : Prop :=
  forall e, 0 <= PageState.SelectedIndex p ->
            PageState.Elements p !! Z.to_nat (PageState.SelectedIndex p) = Some e ->
            Type_ e = NavElementURL -> StartCol e < EndCol e.

(** The two stacks together hold at most [maxSize] snapshots. *)
Definition historyOK (h : History.NavigationHistory PageState.t) : Prop :=
  0 < History.maxSize h
  /\ len (History.backStack h) + len (History.forwardStack h) <= History.maxSize h.

Definition sessionOK (strict : bool) (v : MarkdownSession C) : Prop :=
  historyOK (history v)
  /\ selectionOK strict v
  /\ (strict = true ->
      forall p, p ∈ History.backStack (history v) ++ History.forwardStack (history v) ->
                snapshotOK p).

(** What scrolling and link traversal may change: the scroll offset, and a
    selection that is kept, cleared, or moved onto a link with a span. *)
Definition navStep (v v' : MarkdownSession C) : Prop :=
  elements v' = elements v
  /\ history v' = history v
  /\ (selectedIndex v' = selectedIndex v
      \/ selectedIndex v' = -1
      \/ linkAt true (elements v) (selectedIndex v')).

(** What a load or an anchor jump may change: the history by one [Push] of
    the state before, and a selection that stays on the same table or is
    cleared. *)
Definition pushStep (v v' : MarkdownSession C) : Prop :=
  (history v' = history v
   \/ history v' = History.Push (history v) (saveCurrentState v))
  /\ ((selectedIndex v' = selectedIndex v /\ elements v' = elements v)
      \/ selectedIndex v' = -1).

End Predicates.

(** ** Sessions of concrete runs *)

Module Scenarios.
Import Doubles.

(** The session after a run, or the session it started from if the run
    has panicked. *)
Definition after (ops : list (Op (C := scripted))) (v : MarkdownSession scripted)
    : MarkdownSession scripted :=
  match runAll ops v with
  | Ok v' => v'
  | Panic => v
  end.

(** A page that is one link, rendered as one line. *)
Definition linkPage : string := "[good](good.md)".

Definition linkSession (correlator : scripted) : MarkdownSession scripted :=
  New (Options.mk (Some (staticRenderer ["good"] None)) (Some correlator) 0 false).

(** The link is selected, then the width changes; the correlator finds the
    span 0..4 at the load and an empty span at the re-render. *)
Definition resizeOps : list (Op (C := scripted)) :=
  [OpSetMarkdownWithSource linkPage "" false; OpMoveToNextLink 10; OpSetWidth 40].

Definition resized : MarkdownSession scripted :=
  after resizeOps (linkSession [(0, 0, 4, true); (0, 0, 0, true)]).

(** The same with the fixed correlators of the package's tests: the one
    that finds the span 0..4 at the load, and the one that finds the empty
    span at 0, installed before the width changes. *)
Definition recorrelateOps : list (Op (C := scripted)) :=
  [OpSetMarkdownWithSource linkPage "" false; OpMoveToNextLink 10;
   OpSetCorrelator (Some (fixedCorrelator 0 0 0 true)); OpSetWidth 40].

Definition recorrelated : MarkdownSession scripted :=
  after recorrelateOps (linkSession (fixedCorrelator 0 0 4 true)).

(** The link is selected and the view is moved to the end with a viewport
    of height 0, as a host does before its first layout. *)
Definition scrolledOps : list (Op (C := scripted)) :=
  [OpSetMarkdownWithSource linkPage "" false; OpMoveToFirst 10; OpEnd 0].

Definition scrolled : MarkdownSession scripted :=
  after scrolledOps (linkSession (fixedCorrelator 0 0 4 true)).

(** Two pages rendered as ten lines, with every element found on line 5:
    the first page is loaded, the second is loaded over it with history,
    and [GoBack] returns to the first. *)
Definition tenLines : list string := ["0"; "1"; "2"; "3"; "4"; "5"; "6"; "7"; "8"; "9"].

Definition pagesSession : MarkdownSession scripted :=
  New (Options.mk (Some (staticRenderer tenLines None))
         (Some (fixedCorrelator 5 0 1 true)) 0 false).

Definition twoPagesOps : list (Op (C := scripted)) :=
  [OpSetMarkdownWithSource "## B" "p1.md" false;
   OpSetMarkdownWithSource "# Other" "p2.md" true].

Definition twoPages : MarkdownSession scripted := after twoPagesOps pagesSession.

Definition wentBackOps : list (Op (C := scripted)) := twoPagesOps ++ [OpGoBack].

Definition wentBack : MarkdownSession scripted := after wentBackOps pagesSession.

(** A page is loaded and the renderer is replaced by one that fails. *)
Definition brokenRendererOps : list (Op (C := scripted)) :=
  [OpSetMarkdownWithSource linkPage "" false;
   OpSetRenderer (Some (errorRenderer errRenderFailed))].

Definition brokenRenderer : MarkdownSession scripted :=
  after brokenRendererOps (linkSession (fixedCorrelator 0 0 4 true)).

(** A link to an anchor of the same page, three lines below it. *)
Definition anchorPage : string := "[X](#target)" +:+ nl +:+ nl +:+ "## target".

Definition anchorOps : list (Op (C := scripted)) :=
  [OpSetMarkdownWithSource anchorPage "" false].

Definition anchored : MarkdownSession scripted :=
  after anchorOps
    (New (Options.mk (Some (staticRenderer ["X"; ""; "target"] None))
            (Some [(0, 0, 1, true); (2, 0, 6, true)]) 0 false)).

End Scenarios.


(** ** types.go: internal links *)

Section InternalLinks.
Import GoStrings.

Definition IsInternalLink (e : NavElement) : bool :=
  if negb (bool_decide (Type_ e = NavElementURL)) then false
  else (strlen (URL e) >? 0)
       && match URL e with
          | String c _ => Ascii.eqb c "#"
          | EmptyString => false
          end.

(** [e.URL[1:]] of a URL that is not empty. *)
Definition AnchorTarget (e : NavElement) : string :=
  if negb (IsInternalLink e) then ""
  else match URL e with
       | String _ rest => rest
       | EmptyString => ""
       end.

End InternalLinks.

(** The fields of an element that say what it is, apart from where it was
    found. *)
Definition identity (e : NavElement) : NavElementType * string * string * Z * string * string :=
  (Type_ e, Text e, URL e, Level e, Slug e, SourceFilePath e).

(** The key and the length of a correlation that was found, as the second
    loop of [correlatePositions] computes them. *)
Definition keyOf (c : Z * Z * Z) : Z * Z := let '(lineIdx, startCol, _) := c in (lineIdx, startCol).
Definition matchLen (c : Z * Z * Z) : Z := let '(_, startCol, endCol) := c in endCol -i startCol.

(** The distance [findElementNearLine] compares: [abs(StartLine - lineIdx)]
    as the code computes it. *)
Definition lineDistance (lineIdx : Z) (e : NavElement) : Z :=
  let dist := StartLine e -i lineIdx in
  if dist <? 0 then GoInt.neg dist else dist.

(** The element the walk appends for a node, with the slug of a heading
    given. *)
Definition elementOfNode (sourceFilePath slug : string) (n : Node) : NavElement :=
  match n with
  | Heading text level =>
      mkNavElement NavElementHeader text "" level slug sourceFilePath 0 0 0 0
  | Link text destination =>
      mkNavElement NavElementURL text destination 0 "" sourceFilePath 0 0 0 0
  | AutoLink url => mkNavElement NavElementURL url url 0 "" sourceFilePath 0 0 0 0
  end.

(** ** More sessions of concrete runs *)

Module MoreScenarios.
Import Doubles Scenarios.

(** The first of the two pages, loaded. *)
Definition firstPage : MarkdownSession scripted :=
  after [OpSetMarkdownWithSource "## B" "p1.md" false] pagesSession.

(** The first page, moved to its end with a viewport of three lines. *)
Definition atEnd : MarkdownSession scripted :=
  after [OpSetMarkdownWithSource "## B" "p1.md" false; OpEnd 3] pagesSession.

(** Two links that the correlator finds at the same place of the one
    rendered line, the first with the span 0..1 and the second with the
    span 0..2. *)
Definition overlapPage : string := "[a](a.md)" +:+ nl +:+ "[ab](ab.md)".

Definition overlapping : MarkdownSession scripted :=
  after [OpSetMarkdownWithSource overlapPage "" false;
         OpSetCorrelator (Some [(0, 0, 1, true); (0, 0, 2, true)])]
    (New (Options.mk (Some (staticRenderer ["ab"] None))
            (Some (fixedCorrelator 0 0 0 false)) 0 false)).

(** The session of the anchor page before the load. *)
Definition anchorSession : MarkdownSession scripted :=
  New (Options.mk (Some (staticRenderer ["X"; ""; "target"] None))
         (Some [(0, 0, 1, true); (2, 0, 6, true)]) 0 false).

(** The link of the anchor page is selected and the view is moved two
    lines down by a host that has no viewport yet. *)
Definition offScreen : MarkdownSession scripted :=
  after [OpMoveToFirst 3; OpScrollDown 0; OpScrollDown 0] anchored.

(** The one-link page, loaded. *)
Definition linkLoaded : MarkdownSession scripted :=
  after [OpSetMarkdownWithSource linkPage "" false] (linkSession (fixedCorrelator 0 0 4 true)).

(** A file system with one file. *)
Definition oneFile (path : string) : bool := String.eqb path "/docs/b.md".

(** A page rendered by the glamour renderer, then set to the width 80. *)
Definition wrappedAt80 : MarkdownSession scripted :=
  after [OpSetMarkdownWithSource linkPage "" false; OpSetWidth 80]
    (New (Options.mk None (Some [(0, 0, 4, true); (0, 0, 4, true)]) 0 false)).

(** Three headings of which the second and the third get the same slug,
    found on the lines 0, 1 and 8 of ten; the view is moved to the end with
    a viewport of four lines. *)
Definition duplicateSlugPage : string := "# B" +:+ nl +:+ "# B" +:+ nl +:+ "# B-1".

Definition duplicateSlugs : MarkdownSession scripted :=
  after [OpSetMarkdownWithSource duplicateSlugPage "" false; OpEnd 4]
    (New (Options.mk (Some (staticRenderer tenLines None))
            (Some [(0, 0, 1, true); (1, 0, 1, true); (8, 0, 3, true)]) 0 false)).

End MoreScenarios.

(** ** markers.go: the marker runes *)

Definition IsMarkerRune (r : rune) : bool :=
  (r =? 0x200B) || (r =? 0x200C) || (r =? 0x200D) || (r =? 0x2060).

Section MarkerRunes.
Context `{GoText}.

(** What a [strings.Builder] holds after [WriteRune] of each rune. *)
Definition writeRunes (rs : list rune) : string :=
  foldl (fun sb r => sb +:+ WriteRune r) "" rs.

Definition StripMarkers (s : string) : string :=
  foldl (fun result r => if negb (IsMarkerRune r) then result +:+ WriteRune r else result)
        "" (runesOf s).

End MarkerRunes.

(** ** The marker extractor *)

Inductive MarkerType : Type :=
| MarkerTypeLink
| MarkerTypeHeader.

Global Instance MarkerType_eq_dec : EqDecision MarkerType.
Proof. solve_decision. Defined.

Module MarkerPosition.
Record t : Type := mk {
  Type_ : MarkerType;
  Level : Z;
  LineIdx : Z;
  StartCol : Z;
  EndCol : Z
}.
End MarkerPosition.

(** [[]rune(LinkEndMarker)] and [[]rune(HeaderEndMarker)] *)
Definition linkEndRunes : list rune := [0x200C; 0x200B].
Definition headerEndRunes : list rune := [0x200D; 0x200C].

Section Extractor.
Context `{GoText}.

(** The runes before [targetIdx] are written to a builder, the string is
    cleaned, and the runes of the result that are no markers are counted. *)
Definition calculateVisualColumn (runes : list rune) (targetIdx : nat)
    (cleaner : option LineCleaner) : Z :=
  let sb := writeRunes (take targetIdx runes) in
  let cleaned := match cleaner with Some clean => clean sb | None => sb end in
  len (List.filter (fun r => negb (IsMarkerRune r)) (runesOf cleaned)).

(** The loop of [findMarkerSequence], with [rest] the runes from index [i]
    on: [i <= len(runes) - len(marker)] is [len(marker) <= len(rest)]. *)
Fixpoint findFrom (rest marker : list rune) (i : nat) {struct rest} : option nat :=
  if (length marker <=? length rest)%nat then
    if bool_decide (take (length marker) rest = marker) then Some i
    else match rest with
         | [] => None
         | _ :: rest' => findFrom rest' marker (S i)
         end
  else None.

(** The index where the marker starts ([None] for -1). *)
Definition findMarkerSequence (runes : list rune) (startIdx : nat) (marker : list rune)
    : option nat :=
  if (startIdx + length marker <=? length runes)%nat
  then findFrom (drop startIdx runes) marker startIdx
  else None.

Definition findEndOfMarkedContent (runes : list rune) (startIdx : nat)
    (endMarkerRunes : list rune) : nat :=
  match findMarkerSequence runes startIdx endMarkerRunes with
  | None => length runes
  | Some idx => (idx + length endMarkerRunes)%nat
  end.

Definition extractLinkMarker (runes : list rune) (runeIdx : nat) (lineIdx : Z)
    (cleaner : option LineCleaner) : option MarkerPosition.t :=
  if (length runes <=? runeIdx + 1)%nat
     || negb (bool_decide (runes !! runeIdx = Some 0x200B))
     || negb (bool_decide (runes !! (runeIdx + 1)%nat = Some 0x200C))
  then None
  else
    match findMarkerSequence runes (runeIdx + 2) linkEndRunes with
    | None => None
    | Some endIdx =>
        let contentStart := (runeIdx + 2)%nat in
        let contentEnd := endIdx in
        let startCol := calculateVisualColumn runes contentStart cleaner in
        let endCol := calculateVisualColumn runes contentEnd cleaner in
        Some (MarkerPosition.mk MarkerTypeLink 0 lineIdx startCol endCol)
    end.

(** The U+2060 runes at the head of [rest]. *)
Fixpoint countLevel (rest : list rune) : nat :=
  match rest with
  | r :: rest' => if r =? 0x2060 then S (countLevel rest') else O
  | [] => O
  end.

(** [runes[runeIdx]] is in range at the call in [extractMarkersFromLine],
    which has read it. *)
Definition extractHeaderMarker (runes : list rune) (runeIdx : nat) (lineIdx : Z)
    (cleaner : option LineCleaner) : option MarkerPosition.t :=
  if negb (bool_decide (runes !! runeIdx = Some 0x200D)) then None
  else
    let level := countLevel (drop (runeIdx + 1) runes) in
    let i := (runeIdx + 1 + level)%nat in
    if (level <? 1)%nat || (6 <? level)%nat || (length runes <=? i)%nat
       || negb (bool_decide (runes !! i = Some 0x200D))
    then None
    else
      let contentStart := (i + 1)%nat in
      match findMarkerSequence runes contentStart headerEndRunes with
      | None => None
      | Some endIdx =>
          let contentEnd := endIdx in
          let startCol := calculateVisualColumn runes contentStart cleaner in
          let endCol := calculateVisualColumn runes contentEnd cleaner in
          Some (MarkerPosition.mk MarkerTypeHeader (Z.of_nat level) lineIdx startCol endCol)
      end.

(** The loop of [extractMarkersFromLine]; [None] when the rounds given do
    not reach the end of the line. *)
Fixpoint extractLoop (rounds : nat) (runes : list rune) (i : nat) (lineIdx : Z)
    (cleaner : option LineCleaner) (positions : list MarkerPosition.t)
    : option (list MarkerPosition.t) :=
  match rounds with
  | O => None
  | S rounds' =>
      match runes !! i with
      | None => Some positions
      | Some r =>
          let link :=
            if bool_decide (r = 0x200B) && bool_decide (runes !! S i = Some 0x200C)
            then extractLinkMarker runes i lineIdx cleaner else None in
          match link with
          | Some pos =>
              extractLoop rounds' runes (findEndOfMarkedContent runes i linkEndRunes)
                lineIdx cleaner (positions ++ [pos])
          | None =>
              let header :=
                if bool_decide (r = 0x200D)
                then extractHeaderMarker runes i lineIdx cleaner else None in
              match header with
              | Some pos =>
                  extractLoop rounds' runes (findEndOfMarkedContent runes i headerEndRunes)
                    lineIdx cleaner (positions ++ [pos])
              | None => extractLoop rounds' runes (S i) lineIdx cleaner positions
              end
          end
      end
  end.

(** Every round moves on by one rune at least, so one round more than the
    line has runes reaches its end. *)
Definition extractMarkersFromLine (line : string) (lineIdx : Z)
    (cleaner : option LineCleaner) : list MarkerPosition.t :=
  let runes := runesOf line in
  default [] (extractLoop (S (length runes)) runes 0 lineIdx cleaner []).

Definition ExtractAllMarkers (renderedLines : list string) (cleaner : option LineCleaner)
    : list MarkerPosition.t :=
  concat (imap (fun lineIdx line => extractMarkersFromLine line (Z.of_nat lineIdx) cleaner)
               renderedLines).

End Extractor.

(** What [extractLinkMarker] and [extractHeaderMarker] return: a position on
    the line, of a link or of a header of a level from 1 to 6. *)
Definition wellFormed (lineIdx : Z) (pos : MarkerPosition.t) : Prop :=
  MarkerPosition.LineIdx pos = lineIdx
  /\ ((MarkerPosition.Type_ pos = MarkerTypeLink /\ MarkerPosition.Level pos = 0)
      \/ (MarkerPosition.Type_ pos = MarkerTypeHeader
          /\ 1 <= MarkerPosition.Level pos <= 6)).

(** ** marker_correlator.go *)

Module MarkerCorrelator.

(** [cachedPositions] is nil exactly when it is empty: it is nil or what
    [ExtractAllMarkers] returned, which appends to a nil slice. *)
Record t : Type := mk {
  cachedPositions : list MarkerPosition.t;
  cachedLineCount : Z;
  cachedFirstLine : string;
  linkCounter : Z;
  headerCounter : gmap Z Z
}.

Definition NewMarkerCorrelator : t := mk [] 0 "" 0 ∅.

Definition Reset (mc : t) : t := mk [] 0 "" 0 ∅.

Definition isCacheValid (mc : t) (renderedLines : list string) : bool :=
  if bool_decide (cachedPositions mc = []) then false
  else if negb (len renderedLines =? cachedLineCount mc) then false
  else match renderedLines with
       | first :: _ => bool_decide (first = cachedFirstLine mc)
       | [] => bool_decide (cachedFirstLine mc = "")
       end.

(** The loop of [correlateLinkPosition] and [correlateHeaderPosition]: the
    position that is occurrence number [targetOccurrence] among those that
    pass [p]. *)
Fixpoint occurrence (p : MarkerPosition.t -> bool) (positions : list MarkerPosition.t)
    (currentOccurrence targetOccurrence : Z) : option MarkerPosition.t :=
  match positions with
  | [] => None
  | pos :: rest =>
      if p pos then
        if currentOccurrence =? targetOccurrence then Some pos
        else occurrence p rest (currentOccurrence +i 1) targetOccurrence
      else occurrence p rest currentOccurrence targetOccurrence
  end.

Definition isLink (pos : MarkerPosition.t) : bool :=
  bool_decide (MarkerPosition.Type_ pos = MarkerTypeLink).

Definition isHeader (level : Z) (pos : MarkerPosition.t) : bool :=
  bool_decide (MarkerPosition.Type_ pos = MarkerTypeHeader)
  && (MarkerPosition.Level pos =? level).

Definition correlateLinkPosition (mc : t) : Z * Z * Z * bool * t :=
  let targetOccurrence := linkCounter mc in
  match occurrence isLink (cachedPositions mc) 0 targetOccurrence with
  | Some pos =>
      (MarkerPosition.LineIdx pos, MarkerPosition.StartCol pos, MarkerPosition.EndCol pos, true,
       mk (cachedPositions mc) (cachedLineCount mc) (cachedFirstLine mc)
          (linkCounter mc +i 1) (headerCounter mc))
  | None => (0, 0, 0, false, mc)
  end.

Definition correlateHeaderPosition (mc : t) (level : Z) : Z * Z * Z * bool * t :=
  let targetOccurrence := default 0 (headerCounter mc !! level) in
  match occurrence (isHeader level) (cachedPositions mc) 0 targetOccurrence with
  | Some pos =>
      (MarkerPosition.LineIdx pos, MarkerPosition.StartCol pos, MarkerPosition.EndCol pos, true,
       mk (cachedPositions mc) (cachedLineCount mc) (cachedFirstLine mc)
          (linkCounter mc) (<[level := targetOccurrence +i 1]> (headerCounter mc)))
  | None => (0, 0, 0, false, mc)
  end.

Section Correlate.
Context `{GoText}.

(** [fallback.CorrelatePosition]: the [ScoringCorrelator], which has no
    state. *)
Variable fallback : NavElement -> list string -> option LineCleaner -> Z * Z * Z * bool.

Definition CorrelatePosition (mc : t) (elem : NavElement) (renderedLines : list string)
    (cleaner : option LineCleaner) : Z * Z * Z * bool * t :=
  let mc :=
    if negb (isCacheValid mc renderedLines) then
      mk (ExtractAllMarkers renderedLines cleaner) (len renderedLines)
         (match renderedLines with first :: _ => first | [] => "" end)
         (linkCounter mc) (headerCounter mc)
    else mc in
  if len (cachedPositions mc) =? 0 then (fallback elem renderedLines cleaner, mc)
  else
    match Type_ elem with
    | NavElementURL =>
        let '(lineIdx, startCol, endCol, found, mc) := correlateLinkPosition mc in
        if found then (lineIdx, startCol, endCol, true, mc)
        else (fallback elem renderedLines cleaner, mc)
    | NavElementHeader =>
        let '(lineIdx, startCol, endCol, found, mc) := correlateHeaderPosition mc (Level elem) in
        if found then (lineIdx, startCol, endCol, true, mc)
        else (fallback elem renderedLines cleaner, mc)
    end.

(** The correlator as the session holds it. *)
Definition asPositionCorrelator : PositionCorrelator t :=
  Build_PositionCorrelator t NewMarkerCorrelator Reset CorrelatePosition.

End Correlate.

End MarkerCorrelator.

(** ** correlator.go: the substring correlator *)

Section SimpleSubstring.
Context `{GoText}.

(** [utf8.RuneCountInString] *)
Definition RuneCountInString (s : string) : Z := len (runesOf s).

(** The loop over the rendered lines. *)
Fixpoint substringLoop (elemText : string) (elemRuneLen : Z) (clean : LineCleaner)
    (lines : list string) (lineIdx : Z) : Z * Z * Z * bool :=
  match lines with
  | [] => (0, 0, 0, false)
  | line :: rest =>
      let cleanLine := clean line in
      match GoStrings.Index cleanLine elemText with
      | Some byteIdx =>
          let runeIdx := RuneCountInString (String.substring 0 byteIdx cleanLine) in
          (lineIdx, runeIdx, runeIdx +i elemRuneLen, true)
      | None => substringLoop elemText elemRuneLen clean rest (lineIdx + 1)
      end
  end.

Definition SimpleSubstringCorrelator (elem : NavElement) (renderedLines : list string)
    (cleaner : option LineCleaner) : Z * Z * Z * bool :=
  let elemText := TrimSpace (Text elem) in
  if bool_decide (elemText = "") then (0, 0, 0, false)
  else
    let clean := default (fun s => s) cleaner in
    let elemRuneLen := RuneCountInString elemText in
    substringLoop elemText elemRuneLen clean renderedLines 0.

End SimpleSubstring.

(** ** The content fetcher *)

Module ContentFetcher.


Record t : Type := mk {
  provider : NavElement -> string * option error;   (* provider.FetchContent *)
  searchRoots : list string
}.


Section OnSelect.
Context {C : Type}.
Context `{GoText} `{Goldmark} `{Glamour} `{PositionCorrelator C}.
Variable fileExists : string -> bool.



End OnSelect.

End ContentFetcher.

(** ** A second test double: Go's text functions on UTF-8 *)

Module Utf8Double.
Import Doubles.

Definition RuneError : rune := 0xFFFD.

Definition byteAt (s : string) (i : nat) : Z :=
  match String.get i s with
  | Some c => Z.of_nat (nat_of_ascii c)
  | None => 0
  end.

(** [utf8.DecodeRuneInString]: the rune at the head of [s] and its width. *)
Definition DecodeRuneInString (s : string) : rune * nat :=
  let n := String.length s in
  if (n <? 1)%nat then (RuneError, 0%nat)
  else
    let s0 := byteAt s 0 in
    if s0 <? 0x80 then (s0, 1%nat)
    else if (s0 <? 0xC2) || (0xF4 <? s0) then (RuneError, 1%nat)
    else
      let sz := if s0 <? 0xE0 then 2%nat else if s0 <? 0xF0 then 3%nat else 4%nat in
      let '(lo, hi) :=
        if s0 =? 0xE0 then (0xA0, 0xBF)
        else if s0 =? 0xED then (0x80, 0x9F)
        else if s0 =? 0xF0 then (0x90, 0xBF)
        else if s0 =? 0xF4 then (0x80, 0x8F)
        else (0x80, 0xBF) in
      if (n <? sz)%nat then (RuneError, 1%nat)
      else
        let s1 := byteAt s 1 in
        if (s1 <? lo) || (hi <? s1) then (RuneError, 1%nat)
        else if (sz <=? 2)%nat
        then (Z.lor (Z.shiftl (Z.land s0 0x1F) 6) (Z.land s1 0x3F), 2%nat)
        else
          let s2 := byteAt s 2 in
          if (s2 <? 0x80) || (0xBF <? s2) then (RuneError, 1%nat)
          else if (sz <=? 3)%nat
          then (Z.lor (Z.lor (Z.shiftl (Z.land s0 0x0F) 12) (Z.shiftl (Z.land s1 0x3F) 6))
                  (Z.land s2 0x3F), 3%nat)
          else
            let s3 := byteAt s 3 in
            if (s3 <? 0x80) || (0xBF <? s3) then (RuneError, 1%nat)
            else (Z.lor (Z.lor (Z.lor (Z.shiftl (Z.land s0 0x07) 18)
                                  (Z.shiftl (Z.land s1 0x3F) 12))
                           (Z.shiftl (Z.land s2 0x3F) 6))
                    (Z.land s3 0x3F), 4%nat).

(** The runes of a [range] loop; each takes one byte at least. *)
Fixpoint decodeRunes (rounds : nat) (s : string) : list rune :=
  match rounds with
  | O => []
  | S rounds' =>
      match s with
      | EmptyString => []
      | _ =>
          let '(r, size) := DecodeRuneInString s in
          r :: decodeRunes rounds' (GoStrings.dropBytes size s)
      end
  end.

Definition utf8Runes (s : string) : list rune := decodeRunes (String.length s) s.

Definition byte (z : Z) : ascii := ascii_of_nat (Z.to_nat z).

(** [utf8.AppendRune] *)
Definition utf8Bytes (r : rune) : string :=
  let three (r : rune) :=
    String (byte (Z.lor 0xE0 (Z.shiftr r 12)))
      (String (byte (Z.lor 0x80 (Z.land (Z.shiftr r 6) 0x3F)))
         (String (byte (Z.lor 0x80 (Z.land r 0x3F))) "")) in
  if (0 <=? r) && (r <=? 0x7F) then String (byte r) ""
  else if (0 <=? r) && (r <=? 0x7FF) then
    String (byte (Z.lor 0xC0 (Z.shiftr r 6))) (String (byte (Z.lor 0x80 (Z.land r 0x3F))) "")
  else if (r <? 0) || (0x10FFFF <? r) || ((0xD800 <=? r) && (r <=? 0xDFFF)) then three RuneError
  else if r <=? 0xFFFF then three r
  else
    String (byte (Z.lor 0xF0 (Z.shiftr r 18)))
      (String (byte (Z.lor 0x80 (Z.land (Z.shiftr r 12) 0x3F)))
         (String (byte (Z.lor 0x80 (Z.land (Z.shiftr r 6) 0x3F)))
            (String (byte (Z.lor 0x80 (Z.land r 0x3F))) ""))).

(** The letters, digits and spaces are those of ASCII. *)
Definition utf8Text : GoText := {|
  TrimSpace := asciiTrimSpace;
  runesOf := utf8Runes;
  IsLetter := asciiIsLetter;
  IsDigit := asciiIsDigit;
  ToLower := asciiToLower;
  WriteRune := utf8Bytes
|}.

(** A fallback that finds nothing. *)
Definition noFallback (_ : NavElement) (_ : list string) (_ : option LineCleaner)
    : Z * Z * Z * bool := (0, 0, 0, false).

(** A rendered line with a level-2 heading and one with a link, as the
    renderer marks them. *)
Definition markedHeading : string :=
  Markers.HeaderStartMarker 2 +:+ "Title" +:+ Markers.HeaderEndMarker.

Definition markedLink : string :=
  "see " +:+ Markers.LinkStartMarker +:+ "good" +:+ Markers.LinkEndMarker +:+ " now".

Definition markedLines : list string := [markedHeading; ""; markedLink].

End Utf8Double.

(** The runes [calculateVisualColumn] counts. *)
Definition visibleRunes (rs : list rune) : list rune :=
  List.filter (fun r => negb (IsMarkerRune r)) rs.

(** *** Elements and markers of a kind *)

(** The markers an element is matched with: the link markers for a link,
    the header markers of its level for a header. *)
Definition kindOf (e : NavElement) : MarkerPosition.t -> bool :=
  match Type_ e with
  | NavElementURL => MarkerCorrelator.isLink
  | NavElementHeader => MarkerCorrelator.isHeader (Level e)
  end.

(** [e'] is matched with the same markers as [e]. *)
Definition sameKind (e e' : NavElement) : bool :=
  match Type_ e with
  | NavElementURL => bool_decide (Type_ e' = NavElementURL)
  | NavElementHeader => bool_decide (Type_ e' = NavElementHeader) && (Level e' =? Level e)
  end.

(** The counter an element is matched by. *)
Definition counterOf (mc : MarkerCorrelator.t) (e : NavElement) : Z :=
  match Type_ e with
  | NavElementURL => MarkerCorrelator.linkCounter mc
  | NavElementHeader => default 0 (MarkerCorrelator.headerCounter mc !! Level e)
  end.

(** An answer of a correlator as [correlatePositions] keeps it. *)
Definition foundPosition (answer : Z * Z * Z * bool) : option (Z * Z * Z) :=
  let '(lineIdx, startCol, endCol, found) := answer in
  if found then Some (lineIdx, startCol, endCol) else None.

Definition positionOf (pos : MarkerPosition.t) : Z * Z * Z :=
  (MarkerPosition.LineIdx pos, MarkerPosition.StartCol pos, MarkerPosition.EndCol pos).

Section InOrder.
Context `{GoText}.
Import MarkerCorrelator.

(** The state between two calls: the cache is empty or holds the markers
    of the lines, and each counter is the number of elements of its kind
    met so far, as far as there are markers. *)
Definition inOrder (lines : list string) (cleaner : option LineCleaner)
    (met : list NavElement) (mc : t) : Prop :=
  (cachedPositions mc = []
   \/ (cachedPositions mc = ExtractAllMarkers lines cleaner
       /\ cachedLineCount mc = len lines
       /\ cachedFirstLine mc = match lines with first :: _ => first | [] => "" end))
  /\ forall e, counterOf mc e
               = Z.min (len (List.filter (sameKind e) met))
                       (len (List.filter (kindOf e) (ExtractAllMarkers lines cleaner))).

End InOrder.

(** ** Marked lines and a fetcher *)

Module MarkedScenarios.
Import Doubles Scenarios MoreScenarios Utf8Double.

(** The elements of the page whose rendering is [markedLines]. *)
Definition titleHeader : NavElement :=
  mkNavElement NavElementHeader "Title" "" 2 "title" "" 0 0 0 0.

Definition goodLink : NavElement :=
  mkNavElement NavElementURL "good" "good.md" 0 "" "" 0 0 0 0.

(** The runes of [markedLink] before, inside and after the markers. *)
Definition seeRunes : list rune := [115; 101; 101; 32].
Definition goodRunes : list rune := [103; 111; 111; 100].
Definition nowRunes : list rune := [32; 110; 111; 119].


End MarkedScenarios.
(** * Properties *)

(** ** Go integers *)

Lemma wrap_small z : - 2 ^ 63 <= z < 2 ^ 63 -> GoInt.wrap z = z.
Proof.
  intros Hz. unfold GoInt.wrap. rewrite Z.mod_small; lia.
Qed.

Lemma len_nonneg {A} (l : list A) : 0 <= len l.
Proof. unfold GoInt.len. lia. Qed.

Lemma len_app {A} (l1 l2 : list A) : len (l1 ++ l2) = len l1 + len l2.
Proof. unfold GoInt.len. rewrite length_app. lia. Qed.

(** ** markers.go *)

Section MarkerFacts.
Import GoStrings Markers.

(** Encoding clamps the level into 1..6 and decoding gives it back. *)
Lemma DecodeHeaderLevel_HeaderStartMarker level :
  DecodeHeaderLevel (HeaderStartMarker level) = Ok (clampLevel level).
Proof.
  unfold HeaderStartMarker, clampLevel.
  destruct (level <? 1) eqn:Hlow.
  - apply Z.ltb_lt in Hlow. replace (Z.max 1 (Z.min 6 level)) with 1 by lia.
    vm_compute. reflexivity.
  - apply Z.ltb_ge in Hlow. destruct (level >? 6) eqn:Hhigh.
    + apply Z.gtb_lt in Hhigh. replace (Z.max 1 (Z.min 6 level)) with 6 by lia.
      vm_compute. reflexivity.
    + assert (level <= 6) as Hle.
      { destruct (Z.gtb_spec level 6); [discriminate | lia]. }
      replace (Z.max 1 (Z.min 6 level)) with level by lia.
      assert (level = 1 \/ level = 2 \/ level = 3 \/ level = 4 \/ level = 5 \/ level = 6)
        as Hcases by lia.
      destruct Hcases as [-> | [-> | [-> | [-> | [-> | ->]]]]]; vm_compute; reflexivity.
Qed.

(** A string with the prefix starts with its three bytes. *)
Lemma HasPrefix_zwj marker :
  HasPrefix marker headerMarkerPrefix = true ->
  exists rest, marker = headerMarkerPrefix +:+ rest.
Proof.
  unfold HasPrefix. intros Hp.
  apply String.prefix_correct in Hp.
  exists (dropBytes (String.length headerMarkerPrefix) marker).
  change (String.length headerMarkerPrefix) with 3%nat in *.
  destruct marker as [|a [|b [|c rest]]]; try discriminate.
  unfold dropBytes. cbn [String.length String.substring] in *.
  replace (S (S (S (String.length rest))) - 3)%nat with (String.length rest) by lia.
  assert (String.substring 0 (String.length rest) rest = rest) as ->.
  { clear. induction rest as [|x r IH]; [reflexivity|]. cbn. now rewrite IH. }
  assert (String.substring 0 0 rest = "") as Hz by (destruct rest; reflexivity).
  rewrite Hz in Hp. rewrite <- Hp. reflexivity.
Qed.

(** Decoding fails on exactly one string: the prefix alone. *)
Lemma DecodeHeaderLevel_Panic_iff marker :
  DecodeHeaderLevel marker = Panic <-> marker = zwj.
Proof.
  split.
  - unfold DecodeHeaderLevel.
    destruct (HasPrefix marker headerMarkerPrefix) eqn:Hp; cbn [negb]; [|discriminate].
    destruct (HasSuffix marker headerMarkerPrefix) eqn:Hs; cbn [negb]; [|discriminate].
    apply HasPrefix_zwj in Hp as [rest ->].
    destruct rest as [|d [|e [|f rest]]].
    + reflexivity.
    + vm_compute in Hs. discriminate.
    + vm_compute in Hs. discriminate.
    + intros Hpanic. exfalso. revert Hpanic.
      unfold slice, strlen.
      change (String.length headerMarkerPrefix) with 3%nat.
      change (String.length (headerMarkerPrefix +:+ String d (String e (String f rest))))
        with (S (S (S (S (S (S (String.length rest))))))).
      destruct ((0 <=? Z.of_nat 3)
                && (Z.of_nat 3 <=? Z.of_nat (S (S (S (S (S (S (String.length rest)))))))
                                   - Z.of_nat 3)
                && (Z.of_nat (S (S (S (S (S (S (String.length rest))))))) - Z.of_nat 3
                    <=? Z.of_nat (S (S (S (S (S (S (String.length rest))))))))) eqn:Hb.
      * destruct (_ || _); discriminate.
      * rewrite !andb_false_iff in Hb. rewrite !Z.leb_gt in Hb. lia.
  - intros ->. vm_compute. reflexivity.
Qed.

(** On every other string decoding returns: a level from 1 to 6, or 0, and
    0 when the prefix or the suffix is missing. *)
Lemma DecodeHeaderLevel_returns marker :
  marker <> zwj ->
  exists n, DecodeHeaderLevel marker = Ok n
            /\ 0 <= n <= 6
            /\ (HasPrefix marker headerMarkerPrefix = false
                \/ HasSuffix marker headerMarkerPrefix = false -> n = 0).
Proof.
  intros Hne.
  destruct (DecodeHeaderLevel marker) as [n|] eqn:Hd.
  2:{ apply DecodeHeaderLevel_Panic_iff in Hd. contradiction. }
  exists n. split; [reflexivity|]. revert Hd. unfold DecodeHeaderLevel.
  destruct (HasPrefix marker headerMarkerPrefix); cbn [negb].
  2:{ intros [= <-]. split; [lia | reflexivity]. }
  destruct (HasSuffix marker headerMarkerPrefix); cbn [negb].
  2:{ intros [= <-]. split; [lia | reflexivity]. }
  destruct (slice _ _ _) as [inner|]; [|discriminate]. cbn zeta.
  destruct (Count inner headerLevelChar <? 1) eqn:H1; cbn [orb].
  { intros [= <-]. split; [lia | reflexivity]. }
  destruct (Count inner headerLevelChar >? 6) eqn:H6.
  { intros [= <-]. split; [lia | reflexivity]. }
  intros [= <-]. apply Z.ltb_ge in H1.
  destruct (Z.gtb_spec (Count inner headerLevelChar) 6); [discriminate|].
  split; [lia|]. intros [? | ?]; discriminate.
Qed.

(** C8.  The claim: decoding a generated start marker gives the level
    clamped into 1..6, and decoding returns 0 for every string whose prefix
    or suffix is not ZWJ or whose count of WJ between them is outside 1..6.
    The code: on the string that is one ZWJ, which is its own prefix and
    suffix with no WJ between, the slice [marker[3:0]] panics and nothing is
    returned. *)
Theorem DecodeHeaderLevel_lone_ZWJ_panics :
  HasPrefix zwj headerMarkerPrefix = true
  /\ HasSuffix zwj headerMarkerPrefix = true
  /\ Count "" headerLevelChar = 0
  /\ DecodeHeaderLevel zwj = Panic.
Proof. vm_compute. repeat split; reflexivity. Qed.

End MarkerFacts.

(** ** The path resolver *)

Section PathFacts.
Import GoStrings PathResolver.

Lemma inList_true s l : inList s l = true <-> s ∈ l.
Proof. unfold inList. apply bool_decide_eq_true. Qed.

Lemma existsb_elem_of {A} (f : A -> bool) (l : list A) :
  existsb f l = true <-> exists x, x ∈ l /\ f x = true.
Proof.
  rewrite existsb_exists. split; intros (x & Hx & Hf); exists x; split; auto;
    now apply list_elem_of_In.
Qed.

(** The search through the roots never reports a traversal. *)
Lemma trySearchRoots_error fileExists linkURL searchRoots :
  snd (trySearchRoots fileExists linkURL searchRoots) <> Some ErrDirectoryTraversal.
Proof.
  induction searchRoots as [|root rest IH]; cbn; [discriminate|].
  destruct (bool_decide (root = "")); [exact IH|].
  destruct (fileExists _); [discriminate | exact IH].
Qed.

Lemma absolute_rule url :
  IsAbs url
  && match splitByte Separator (Clean url) !! 1%nat with
     | Some p => inList p sensitive
     | None => false
     end = true
  <-> IsAbs url = true /\ exists p, firstSegment url = Some p /\ p ∈ sensitive.
Proof.
  unfold firstSegment. rewrite andb_true_iff.
  destruct (splitByte Separator (Clean url) !! 1%nat) as [p|].
  - rewrite inList_true. split.
    + intros [Ha Hp]. split; [exact Ha|]. exists p. split; [reflexivity | exact Hp].
    + intros [Ha (q & [= <-] & Hq)]. split; assumption.
  - split; [intros [_ ?]; discriminate | intros [_ (q & ? & _)]; discriminate].
Qed.

Lemma pattern_rule url :
  negb (IsAbs url)
  && existsb (fun pattern => HasPrefix url pattern || Contains url ("/" +:+ pattern))
             sensitivePatterns = true
  <-> IsAbs url = false
      /\ exists name, name ∈ sensitiveParts /\ hasSegmentSlash url name.
Proof.
  rewrite andb_true_iff, negb_true_iff, existsb_elem_of.
  unfold hasSegmentSlash, sensitivePatterns, sensitiveParts.
  split.
  - intros [Ha (pattern & Hin & Hp)]. split; [exact Ha|].
    apply orb_true_iff in Hp.
    set_unfold in Hin.
    destruct Hin as [-> | [-> | [-> | [-> | [-> | [-> | []]]]]]];
      [exists "etc" | exists "var" | exists "usr" | exists "sys" | exists "proc" | exists "root"];
      (split; [set_unfold; tauto | exact Hp]).
  - intros [Ha (name & Hin & Hp)]. split; [exact Ha|].
    set_unfold in Hin.
    destruct Hin as [-> | [-> | [-> | [-> | [-> | [-> | []]]]]]];
      [exists "etc/" | exists "var/" | exists "usr/" | exists "sys/" | exists "proc/" | exists "root/"];
      (split; [set_unfold; tauto | apply orb_true_iff; exact Hp]).
Qed.

Lemma parent_rule url :
  (HasPrefix url "../" || bool_decide (url = ".."))
  && ((escapeCount (splitByte Separator (Clean url)) >? 1)
      || existsb (fun part => inList part sensitiveParts) (splitByte Separator (Clean url)))
  = true
  <-> (HasPrefix url "../" = true \/ url = "..")
      /\ (1 < escapeCount (splitByte Separator (Clean url))
          \/ exists part, part ∈ splitByte Separator (Clean url) /\ part ∈ sensitiveParts).
Proof.
  rewrite andb_true_iff, !orb_true_iff, bool_decide_eq_true, existsb_elem_of.
  rewrite Z.gtb_gt.
  split; intros [H1 [H2 | (part & Hin & Hs)]]; (split; [exact H1|]);
    first [ left; lia | right; exists part; split; [exact Hin|]; now apply inList_true ].
Qed.

(** The decision of the code, in words. *)
Lemma containsDirectoryTraversal_codeBlocked url :
  containsDirectoryTraversal url = true <-> codeBlocked url.
Proof.
  unfold containsDirectoryTraversal, codeBlocked.
  rewrite <- absolute_rule, <- pattern_rule, <- parent_rule.
  destruct (IsAbs url && _); [tauto|].
  destruct ((HasPrefix url "../" || bool_decide (url = "..")) && _); [tauto|].
  destruct (negb (IsAbs url) && _); [tauto|].
  split; [discriminate | intros [? | [? | ?]]; discriminate].
Qed.

(** C6, the claim as it stands fails: [../etc] is relative, has no segment
    followed by a separator and begins with one parent-directory escape
    only, and the resolver rejects it as a traversal. *)
Lemma ResolveMarkdownPath_rejects_parent_etc :
  ResolveMarkdownPath (fun _ => false) "../etc" "" [] = ("", Some ErrDirectoryTraversal)
  /\ "../etc" <> ""
  /\ isHTTPURL "../etc" = false
  /\ ~ specBlocked "../etc".
Proof.
  split; [vm_compute; reflexivity|].
  split; [discriminate|].
  split; [vm_compute; reflexivity|].
  unfold specBlocked, hasSegmentSlash. intros [[Ha _] | [[_ (name & Hin & Hs)] | [_ Hp]]].
  - vm_compute in Ha. discriminate.
  - unfold sensitiveParts in Hin. set_unfold in Hin.
    destruct Hin as [-> | [-> | [-> | [-> | [-> | [-> | []]]]]]];
      vm_compute in Hs; destruct Hs; discriminate.
  - destruct Hp as [Hp | Hp]; [vm_compute in Hp|]; discriminate.
Qed.

(** C6, amended.  An empty URL resolves to the empty string and an HTTP or
    HTTPS URL to itself; any other URL is rejected as a traversal exactly
    when it is an absolute path whose cleaned form has [etc], [sys], [proc]
    or [root] as its first element, or a relative path with an element
    [etc], [var], [usr], [sys], [proc] or [root] followed by a separator, or
    a path starting with [../] (or equal to [..]) whose cleaned form begins
    with more than one [..] or has an element [etc], [var], [usr], [sys],
    [proc] or [root]. *)
Theorem ResolveMarkdownPath_traversal fileExists url sourceFilePath searchRoots :
  ResolveMarkdownPath fileExists "" sourceFilePath searchRoots = ("", None)
  /\ (isHTTPURL url = true ->
      ResolveMarkdownPath fileExists url sourceFilePath searchRoots = (url, None))
  /\ (snd (ResolveMarkdownPath fileExists url sourceFilePath searchRoots)
        = Some ErrDirectoryTraversal
      <-> url <> "" /\ isHTTPURL url = false /\ codeBlocked url).
Proof.
  split; [reflexivity|]. split.
  - intros Hhttp. unfold ResolveMarkdownPath.
    destruct (bool_decide (url = "")) eqn:He.
    + apply bool_decide_eq_true in He. subst. vm_compute in Hhttp. discriminate.
    + rewrite Hhttp. reflexivity.
  - rewrite <- containsDirectoryTraversal_codeBlocked. unfold ResolveMarkdownPath.
    destruct (bool_decide (url = "")) eqn:He.
    { apply bool_decide_eq_true in He. cbn. split; [discriminate | tauto]. }
    apply bool_decide_eq_false in He.
    destruct (isHTTPURL url) eqn:Hh.
    { cbn. split; [discriminate | intros (_ & ? & _); discriminate]. }
    destruct (containsDirectoryTraversal url) eqn:Hc.
    { cbn. tauto. }
    split; [|intros (_ & _ & ?); discriminate].
    intros Herr. exfalso. revert Herr.
    destruct (IsAbs url).
    { destruct (fileExists url); cbn; discriminate. }
    destruct (negb _ && fileExists _); [cbn; discriminate|].
    apply trySearchRoots_error.
Qed.

(** The amended rule applies: [../etc] is rejected, and [../notes.md], a
    single escape, is not. *)
Lemma ResolveMarkdownPath_traversal_witness :
  snd (ResolveMarkdownPath (fun _ => false) "../etc" "" []) = Some ErrDirectoryTraversal
  /\ ResolveMarkdownPath (fun _ => false) "https://example.com/page.md" "" []
     = ("https://example.com/page.md", None)
  /\ ~ codeBlocked "../notes.md".
Proof.
  pose proof (ResolveMarkdownPath_traversal (fun _ => false) "../etc" "" [])
    as (_ & _ & Hetc).
  pose proof (ResolveMarkdownPath_traversal (fun _ => false)
                "https://example.com/page.md" "" []) as (_ & Hhttp & _).
  pose proof (ResolveMarkdownPath_traversal (fun _ => false) "../notes.md" "" [])
    as (_ & _ & Hnotes).
  split; [|split].
  - apply Hetc. split; [discriminate|]. split; [reflexivity|].
    apply containsDirectoryTraversal_codeBlocked. reflexivity.
  - apply Hhttp. reflexivity.
  - intros Hb. assert (url_ok : "../notes.md" <> "" /\ isHTTPURL "../notes.md" = false
                                /\ codeBlocked "../notes.md").
    { split; [discriminate|]. split; [reflexivity | exact Hb]. }
    apply Hnotes in url_ok. vm_compute in url_ok. discriminate.
Defined.

End PathFacts.

(** ** Slugs *)

Section SlugFacts.
Context `{GoText}.






(** *** Numbering of equal slugs *)

Lemma headingsWithBase_cons s n nodes :
  headingsWithBase s (n :: nodes)
  = (if hasBase s n then 1 else 0) + headingsWithBase s nodes.
Proof.
  unfold headingsWithBase, GoInt.len. cbn [List.filter].
  destruct (hasBase s n); cbn [length]; lia.
Qed.


(** The walk appends one element for every node. *)
Lemma visit_all_elements src nodes st :
  exists rest,
    fst (foldl (visit src) st nodes) = fst st ++ rest /\ length rest = length nodes.
Proof.
  revert st. induction nodes as [|n nodes IH]; intros [elems counts]; cbn [foldl].
  - exists []. now rewrite app_nil_r.
  - destruct (IH (visit src (elems, counts) n)) as (rest & Heq & Hlen).
    destruct n as [text level | text dest | url]; cbn [visit fst] in *;
      eexists (_ :: rest); (split; [rewrite Heq, <- app_assoc; reflexivity | cbn; lia]).
Qed.

(** The count kept for a base slug is the number of headings met with it. *)
Lemma visit_all_counts src nodes st s :
  default 0 (snd (foldl (visit src) st nodes) !! s)
  = default 0 (snd st !! s) + headingsWithBase s nodes.
Proof.
  revert st. induction nodes as [|n nodes IH]; intros [elems counts]; cbn [foldl].
  - change (headingsWithBase s []) with 0. cbn [snd]. lia.
  - rewrite IH, headingsWithBase_cons.
    destruct n as [text level | text dest | url]; cbn [visit snd hasBase]; [|lia..].
    destruct (decide (generateSlug text = s)) as [-> | Hne].
    + rewrite lookup_insert_eq, bool_decide_eq_true_2 by reflexivity. cbn. lia.
    + rewrite lookup_insert_ne, bool_decide_eq_false_2 by assumption. lia.
Qed.




End SlugFacts.

Import Doubles.


(** ** history.go *)

Section HistoryFacts.
Context {T : Type}.
Import History.

Lemma trim_fits (h : NavigationHistory T) (slice : list T) :
  len slice <= maxSize h -> trim h slice = slice.
Proof.
  intros Hle. unfold trim. destruct (maxSize h <=? 0); [reflexivity|].
  destruct (Z.leb_spec (len slice) (maxSize h)); [reflexivity | lia].
Qed.

Lemma trim_len (h : NavigationHistory T) (slice : list T) :
  0 < maxSize h -> len (trim h slice) <= maxSize h.
Proof.
  intros Hpos. unfold trim.
  destruct (Z.leb_spec (maxSize h) 0); [lia|].
  destruct (Z.leb_spec (len slice) (maxSize h)); [assumption|].
  unfold GoInt.len in *. rewrite length_drop. lia.
Qed.

Lemma trim_elem_of (h : NavigationHistory T) (slice : list T) (x : T) :
  x ∈ trim h slice -> x ∈ slice.
Proof.
  unfold trim. destruct (maxSize h <=? 0); [auto|].
  destruct (len slice <=? maxSize h); [auto|].
  intros Hin. apply list_elem_of_lookup in Hin as [i Hi].
  rewrite lookup_drop in Hi. apply list_elem_of_lookup. eauto.
Qed.

(** The entry pushed last survives the trim. *)
Lemma trim_last (h : NavigationHistory T) (slice : list T) (x : T) :
  last (trim h (slice ++ [x])) = Some x.
Proof.
  unfold trim. destruct (maxSize h <=? 0) eqn:Hmax; [apply last_snoc|].
  destruct (len (slice ++ [x]) <=? maxSize h) eqn:Hlen; [apply last_snoc|].
  apply Z.leb_gt in Hmax, Hlen. rewrite len_app in *. unfold GoInt.len in *. cbn in *.
  rewrite drop_app_le by lia. apply last_snoc.
Qed.

Lemma trim_nonempty (h : NavigationHistory T) (slice : list T) (x : T) :
  trim h (slice ++ [x]) <> [].
Proof.
  intros Hnil. pose proof (trim_last h slice x) as Hlast.
  rewrite Hnil in Hlast. discriminate.
Qed.

Lemma dropLast_snoc (l : list T) (x : T) : dropLast (l ++ [x]) = l.
Proof.
  unfold dropLast. rewrite length_app. cbn.
  replace (length l + 1 - 1)%nat with (length l) by lia.
  apply take_app_length.
Qed.

Lemma CanGoBack_snoc (h : NavigationHistory T) bs p :
  backStack h = bs ++ [p] -> CanGoBack h = true.
Proof.
  intros Hb. unfold CanGoBack. rewrite Hb, len_app.
  pose proof (len_nonneg bs). apply Z.gtb_lt. unfold GoInt.len at 2. cbn. lia.
Qed.

Lemma CanGoForward_snoc (h : NavigationHistory T) fs p :
  forwardStack h = fs ++ [p] -> CanGoForward h = true.
Proof.
  intros Hb. unfold CanGoForward. rewrite Hb, len_app.
  pose proof (len_nonneg fs). apply Z.gtb_lt. unfold GoInt.len at 2. cbn. lia.
Qed.

Lemma Back_empty (h : NavigationHistory T) : backStack h = [] -> Back h = (None, h).
Proof. intros Hb. unfold Back, CanGoBack. rewrite Hb. reflexivity. Qed.

Lemma Back_snoc (h : NavigationHistory T) bs p :
  backStack h = bs ++ [p] -> Back h = (Some p, mk bs (forwardStack h) (maxSize h)).
Proof.
  intros Hb. unfold Back. rewrite (CanGoBack_snoc h bs p Hb). cbn [negb].
  rewrite Hb, last_snoc, dropLast_snoc. reflexivity.
Qed.

Lemma Forward_empty (h : NavigationHistory T) :
  forwardStack h = [] -> Forward h = (None, h).
Proof. intros Hb. unfold Forward, CanGoForward. rewrite Hb. reflexivity. Qed.

Lemma Forward_snoc (h : NavigationHistory T) fs p :
  forwardStack h = fs ++ [p] -> Forward h = (Some p, mk (backStack h) fs (maxSize h)).
Proof.
  intros Hb. unfold Forward. rewrite (CanGoForward_snoc h fs p Hb). cbn [negb].
  rewrite Hb, last_snoc, dropLast_snoc. reflexivity.
Qed.

(** A stack is empty or has a top. *)
Lemma stack_cases (l : list T) : l = [] \/ exists bs p, l = bs ++ [p].
Proof.
  destruct l as [|x l] using rev_ind; [left; reflexivity | right; eauto].
Qed.

End HistoryFacts.

(** ** The session *)

Section SessionFacts.
Context {C : Type}.
Context `{GoText} `{Goldmark} `{Glamour} `{PositionCorrelator C}.
Implicit Types v : MarkdownSession C.

(** *** Loading *)

(** C1.  When the renderer returns an error on the content, the load
    returns that error and the markdown, the source path, the rendered
    lines, the elements, the selection, the scroll offset and both history
    stacks are what they were (and so are the cleaner, the width and the
    correlator). *)
Theorem SetMarkdownWithSource_error_leaves_state v content sourceFilePath pushToHistory
    rendered err :
  Render (rendererForWidth v (currentWidth v)) content = (rendered, Some err) ->
  let v' := snd (SetMarkdownWithSource v content sourceFilePath pushToHistory) in
  fst (SetMarkdownWithSource v content sourceFilePath pushToHistory) = Some err
  /\ markdown v' = markdown v
  /\ currentSourceFile v' = currentSourceFile v
  /\ renderedLines v' = renderedLines v
  /\ elements v' = elements v
  /\ selectedIndex v' = selectedIndex v
  /\ scrollOffset v' = scrollOffset v
  /\ History.backStack (history v') = History.backStack (history v)
  /\ History.forwardStack (history v') = History.forwardStack (history v)
  /\ cleaner v' = cleaner v
  /\ currentWidth v' = currentWidth v
  /\ correlator v' = correlator v.
Proof.
  intros Herr. unfold SetMarkdownWithSource. rewrite Herr. cbn. repeat split.
Qed.

(** *** Anchors *)

Lemma FindHeaderBySlug_first v slug (i : nat) header :
  elements v !! i = Some header ->
  Type_ header = NavElementHeader ->
  Slug header = slug ->
  (forall j e, (j < i)%nat -> elements v !! j = Some e ->
               Type_ e = NavElementHeader -> Slug e <> slug) ->
  FindHeaderBySlug v slug = Some header.
Proof.
  unfold FindHeaderBySlug. generalize (elements v). intros elems. revert i.
  induction elems as [|e elems IH]; intros i Hi Hty Hslug Hfirst.
  { rewrite lookup_nil in Hi. discriminate. }
  cbn [List.find]. destruct i as [|i].
  - cbn in Hi. injection Hi as ->.
    rewrite !bool_decide_eq_true_2 by assumption. reflexivity.
  - assert (bool_decide (Type_ e = NavElementHeader) && bool_decide (Slug e = slug) = false)
      as ->.
    { apply andb_false_iff.
      destruct (decide (Type_ e = NavElementHeader)) as [He|He].
      - right. apply bool_decide_eq_false_2. apply (Hfirst 0%nat e); [lia | reflexivity | exact He].
      - left. apply bool_decide_eq_false_2. exact He. }
    apply (IH i); [exact Hi | exact Hty | exact Hslug |].
    intros j e' Hj He'. apply (Hfirst (S j) e'); [lia | exact He'].
Qed.

(** C9.  With [alwaysScrollToAnchor] off, when the first header of the
    element table that has the slug starts inside
    [scrollOffset, scrollOffset + viewportHeight), the sum being the one the
    code computes on its [int]s, [ScrollToAnchor] returns true and the
    session is the one before the call, whatever [pushToHistory] is. *)
Theorem ScrollToAnchor_visible_unchanged v slug viewportHeight pushToHistory
    (i : nat) header :
  alwaysScrollToAnchor v = false ->
  elements v !! i = Some header ->
  Type_ header = NavElementHeader ->
  Slug header = slug ->
  (forall j e, (j < i)%nat -> elements v !! j = Some e ->
               Type_ e = NavElementHeader -> Slug e <> slug) ->
  scrollOffset v <= StartLine header ->
  StartLine header < GoInt.wrap (scrollOffset v + viewportHeight) ->
  ScrollToAnchor v slug viewportHeight pushToHistory = (true, v).
Proof.
  intros Halways Hi Hty Hslug Hfirst Hlow Hhigh. unfold ScrollToAnchor.
  rewrite (FindHeaderBySlug_first v slug i header Hi Hty Hslug Hfirst), Halways.
  cbn [negb andb]. unfold GoInt.add.
  destruct (Z.geb_spec (StartLine header) (scrollOffset v)); [|lia].
  destruct (Z.ltb_spec (StartLine header) (GoInt.wrap (scrollOffset v + viewportHeight)));
    [|lia].
  reflexivity.
Qed.

(** *** History *)

Lemma restoreState_fields v state :
  let v' := restoreState v state in
  markdown v' = PageState.Markdown state
  /\ currentSourceFile v' = PageState.SourceFilePath state
  /\ renderedLines v' = PageState.RenderedLines state
  /\ elements v' = PageState.Elements state
  /\ scrollOffset v' = PageState.ScrollOffset state
  /\ currentWidth v' = PageState.Width state
  /\ cleaner v' = Some (default (fun s => s) (PageState.Cleaner state))
  /\ selectedIndex v' = restoredIndex state
  /\ history v' = history v.
Proof.
  unfold restoreState, restoredIndex, elementAt. cbn.
  destruct (_ || _); cbn; [repeat split|].
  destruct (PageState.Elements state !! _) as [e|]; cbn; [|repeat split].
  destruct (bool_decide _); cbn; repeat split.
Qed.

Lemma restoreState_frame v state :
  let v' := restoreState v state in
  renderer v' = renderer v
  /\ correlator v' = correlator v
  /\ alwaysScrollToAnchor v' = alwaysScrollToAnchor v.
Proof.
  unfold restoreState, elementAt. cbn.
  destruct (_ || _); cbn; [repeat split|].
  destruct (PageState.Elements state !! _) as [e|]; cbn; [|repeat split].
  destruct (bool_decide _); cbn; repeat split.
Qed.

(** C4.  With an empty back stack [GoBack] returns false and the session is
    untouched.  Otherwise it returns true and the top of the back stack is
    popped.  The snapshot pushed onto the forward stack holds the markdown,
    the source path, the selection, the scroll offset, the elements, the
    rendered lines, the cleaner and the width of the session before the
    call; the forward stack is the old one with this snapshot on top, cut
    from its bottom to the newest [maxSize] entries when the bound is
    positive.  The popped snapshot is restored: markdown, source path,
    rendered lines, elements, scroll offset and width are its fields, the
    cleaner is its cleaner (the identity for a nil one), the selection is
    its selection unless that is out of range or on a header, and the
    renderer, the correlator and the scroll setting stay. *)
Theorem GoBack_spec v :
  (History.backStack (history v) = [] -> GoBack v = (false, v))
  /\ (forall bs p,
        History.backStack (history v) = bs ++ [p] ->
        let v' := snd (GoBack v) in
        let pushed :=
          PageState.mk (markdown v) (currentSourceFile v) (selectedIndex v) (scrollOffset v)
            (elements v) (renderedLines v) (cleaner v) (currentWidth v) in
        let full := History.forwardStack (history v) ++ [pushed] in
        let bound := History.maxSize (history v) in
        fst (GoBack v) = true
        /\ History.backStack (history v') = bs
        /\ History.maxSize (history v') = bound
        /\ History.forwardStack (history v')
           = (if (bound <=? 0) || (len full <=? bound) then full
              else drop (Z.to_nat (len full - bound)) full)
        /\ last (History.forwardStack (history v')) = Some pushed
        /\ markdown v' = PageState.Markdown p
        /\ currentSourceFile v' = PageState.SourceFilePath p
        /\ renderedLines v' = PageState.RenderedLines p
        /\ elements v' = PageState.Elements p
        /\ scrollOffset v' = PageState.ScrollOffset p
        /\ currentWidth v' = PageState.Width p
        /\ cleaner v' = Some (default (fun s => s) (PageState.Cleaner p))
        /\ selectedIndex v'
           = (let i := PageState.SelectedIndex p in
              if (i <? 0) || (i >=? len (PageState.Elements p)) then -1
              else match PageState.Elements p !! Z.to_nat i with
                   | Some e => if bool_decide (Type_ e = NavElementHeader) then -1 else i
                   | None => i
                   end)
        /\ renderer v' = renderer v
        /\ correlator v' = correlator v
        /\ alwaysScrollToAnchor v' = alwaysScrollToAnchor v).
Proof.
  split.
  - intros Hb. unfold GoBack, History.CanGoBack. rewrite Hb. reflexivity.
  - intros bs p Hb. cbv zeta. unfold GoBack.
    rewrite (CanGoBack_snoc _ bs p Hb), (Back_snoc _ bs p Hb). cbn [negb fst snd].
    match goal with |- context [restoreState ?w p] =>
      pose proof (restoreState_fields w p)
        as (Hmd & Hsrc & Hlines & Hel & Hso & Hw & Hcl & Hsel & Hh);
      pose proof (restoreState_frame w p) as (Hr & Hc & Ha)
    end.
    rewrite Hmd, Hsrc, Hlines, Hel, Hso, Hw, Hcl, Hsel, Hh, Hr, Hc, Ha.
    split; [reflexivity|]. split; [reflexivity|]. split; [reflexivity|].
    split.
    { cbn. unfold History.trim. cbn [History.maxSize].
      destruct (History.maxSize (history v) <=? 0); reflexivity. }
    split; [apply (trim_last (History.mk bs _ _))|].
    repeat (split; [reflexivity|]). reflexivity.
Qed.

(** *** Loops over the element table *)

Lemma findIndexFrom_Some {A} (p : A -> bool) (l : list A) (i0 i : Z) :
  findIndexFrom p l i0 = Some i ->
  i0 <= i /\ exists x, l !! Z.to_nat (i - i0) = Some x /\ p x = true.
Proof.
  revert i0. induction l as [|x l IH]; intros i0; cbn [findIndexFrom]; [discriminate|].
  destruct (p x) eqn:Hp.
  - intros [= <-]. split; [lia|]. exists x. rewrite Z.sub_diag. split; [reflexivity | exact Hp].
  - intros Hfind. apply IH in Hfind as (Hle & y & Hy & Hpy). split; [lia|].
    exists y. split; [|exact Hpy].
    replace (Z.to_nat (i - i0)) with (S (Z.to_nat (i - (i0 + 1)))) by lia. exact Hy.
Qed.

Lemma firstIndexFrom_Some {A} (p : A -> bool) (l : list A) (start i : Z) :
  0 <= start ->
  firstIndexFrom p l start = Some i ->
  start <= i /\ exists x, l !! Z.to_nat i = Some x /\ p x = true.
Proof.
  intros Hstart Hfind. unfold firstIndexFrom in Hfind.
  apply findIndexFrom_Some in Hfind as (Hle & x & Hx & Hp). split; [exact Hle|].
  exists x. split; [|exact Hp]. rewrite lookup_drop in Hx.
  replace (Z.to_nat i) with (Z.to_nat start + Z.to_nat (i - start))%nat by lia. exact Hx.
Qed.

Lemma lastIndexUpTo_Some {A} (p : A -> bool) (l : list A) (n : nat) (i : Z) :
  lastIndexUpTo p l n = Some i ->
  0 <= i /\ exists x, l !! Z.to_nat i = Some x /\ p x = true.
Proof.
  induction n as [|n IH]; cbn [lastIndexUpTo].
  - destruct (l !! 0%nat) as [x|] eqn:Hx; [|discriminate].
    destruct (p x) eqn:Hp; [|discriminate].
    intros [= <-]. split; [lia|]. exists x. split; [exact Hx | exact Hp].
  - destruct (l !! S n) as [x|] eqn:Hx; [destruct (p x) eqn:Hp|]; try exact IH.
    intros [= <-]. split; [lia|]. exists x. rewrite Nat2Z.id. split; [exact Hx | exact Hp].
Qed.

Lemma isNavigableLink_true e :
  isNavigableLink e = true <-> Type_ e = NavElementURL /\ StartCol e < EndCol e.
Proof.
  unfold isNavigableLink. rewrite andb_true_iff, bool_decide_eq_true.
  destruct (Z.gtb_spec (EndCol e) (StartCol e)); intuition (try lia; try discriminate).
Qed.

Lemma linkAt_found (elems : list NavElement) (i : Z) (e : NavElement) :
  0 <= i -> elems !! Z.to_nat i = Some e -> isNavigableLink e = true ->
  linkAt true elems i.
Proof.
  intros Hi He Hnav. apply isNavigableLink_true in Hnav as [Hty Hspan].
  split; [exact Hi|]. exists e. auto.
Qed.

Lemma linkAt_weaken strict (elems : list NavElement) (i : Z) :
  linkAt true elems i -> linkAt strict elems i.
Proof.
  intros (Hi & e & He & Hty & Hspan). split; [exact Hi|]. exists e. auto.
Qed.

(** *** Steps of scrolling and traversal *)

Lemma navStep_refl v : navStep v v.
Proof. unfold navStep. auto. Qed.

Lemma navStep_trans v1 v2 v3 : navStep v1 v2 -> navStep v2 v3 -> navStep v1 v3.
Proof.
  intros (He1 & Hh1 & Hs1) (He2 & Hh2 & Hs2). unfold navStep.
  rewrite He2, He1, Hh2, Hh1. repeat split.
  destruct Hs2 as [Hs2 | [Hs2 | Hs2]].
  - rewrite Hs2. exact Hs1.
  - auto.
  - rewrite He1 in Hs2. auto.
Qed.

Lemma navStep_scroll v o : navStep v (setScrollOffset v o).
Proof. unfold navStep. cbn. auto. Qed.

Lemma navStep_clear v : navStep v (setSelectedIndex v (-1)).
Proof. unfold navStep. cbn. auto. Qed.

Lemma clearSelectionIfOffScreen_navStep v h : navStep v (clearSelectionIfOffScreen v h).
Proof.
  unfold clearSelectionIfOffScreen.
  destruct (_ || _); [apply navStep_refl|].
  destruct (h <=? 0); [apply navStep_refl|].
  destruct (elementAt v (selectedIndex v)) as [elem|]; [|apply navStep_refl].
  destruct (EndLine elem <? scrollOffset v); [apply navStep_clear|].
  destruct (_ >=? _); [apply navStep_clear | apply navStep_refl].
Qed.

Lemma ScrollUp_navStep v h : navStep v (snd (ScrollUp v h)).
Proof.
  unfold ScrollUp. destruct (scrollOffset v >? 0); cbn [snd]; [|apply navStep_refl].
  eapply navStep_trans; [apply navStep_scroll | apply clearSelectionIfOffScreen_navStep].
Qed.

Lemma ScrollDown_navStep v h : navStep v (snd (ScrollDown v h)).
Proof.
  unfold ScrollDown. destruct (scrollOffset v <? _); cbn [snd]; [|apply navStep_refl].
  eapply navStep_trans; [apply navStep_scroll | apply clearSelectionIfOffScreen_navStep].
Qed.

Lemma pageLoop_navStep (step : MarkdownSession C -> bool * MarkdownSession C) n v moved :
  (forall w, navStep w (snd (step w))) ->
  navStep v (snd (pageLoop step n v moved)).
Proof.
  intros Hstep. revert v moved. induction n as [|n IH]; intros v moved; cbn [pageLoop].
  - apply navStep_refl.
  - pose proof (Hstep v) as Hv. destruct (step v) as [ok v1]. cbn [snd] in Hv.
    destruct ok; [|apply navStep_refl].
    eapply navStep_trans; [exact Hv | apply IH].
Qed.

Lemma Home_navStep v h : navStep v (Home v h).
Proof.
  unfold Home.
  eapply navStep_trans; [apply navStep_scroll | apply clearSelectionIfOffScreen_navStep].
Qed.

Lemma End_navStep v h : navStep v (End_ v h).
Proof.
  unfold End_.
  eapply navStep_trans; [apply navStep_scroll | apply clearSelectionIfOffScreen_navStep].
Qed.

Lemma ensureVisible_fields v h :
  elements (ensureVisible v h) = elements v
  /\ history (ensureVisible v h) = history v
  /\ selectedIndex (ensureVisible v h) = selectedIndex v.
Proof.
  unfold ensureVisible.
  destruct (_ || _); [auto|]. destruct (h <=? 0); [auto|].
  destruct (elementAt v (selectedIndex v)) as [elem|]; [|auto].
  destruct (StartLine elem <? scrollOffset v); cbn;
    destruct (EndLine elem >=? _); cbn; destruct (_ <? 0); cbn; auto.
Qed.

Lemma selectAndShow_navStep v i h e :
  0 <= i -> elements v !! Z.to_nat i = Some e -> isNavigableLink e = true ->
  navStep v (selectAndShow v i h).
Proof.
  intros Hi He Hnav. unfold selectAndShow, navStep.
  destruct (ensureVisible_fields (setSelectedIndex v i) h) as (-> & -> & ->). cbn.
  repeat split. right. right. eapply linkAt_found; eassumption.
Qed.

Lemma MoveToNextLink_navStep v h moved v' :
  MoveToNextLink v h = Ok (moved, v') -> navStep v v'.
Proof.
  unfold MoveToNextLink. destruct (len (elements v) =? 0).
  { intros [= _ <-]. apply navStep_refl. }
  destruct (selectedIndex v >=? 0).
  - destruct (Z.ltb_spec (selectedIndex v +i 1) 0); [discriminate|].
    destruct (firstIndexFrom _ _ _) as [i|] eqn:Hfind.
    + intros [= _ <-]. apply firstIndexFrom_Some in Hfind as (Hle & e & He & Hnav); [|lia].
      eapply selectAndShow_navStep; [lia | exact He | exact Hnav].
    + intros [= _ <-]. apply navStep_refl.
  - destruct (findIndexFrom _ _ _) as [i|] eqn:Hfind.
    + intros [= _ <-]. apply findIndexFrom_Some in Hfind as (Hle & e & He & Hp).
      rewrite Z.sub_0_r in He.
      eapply selectAndShow_navStep; [lia | exact He |].
      rewrite !andb_true_iff in Hp. destruct Hp as [[[Hty _] _] Hspan].
      unfold isNavigableLink. now rewrite Hty, Hspan.
    + intros [= _ <-]. apply navStep_refl.
Qed.

Lemma MoveToPreviousLink_navStep v h moved v' :
  MoveToPreviousLink v h = Ok (moved, v') -> navStep v v'.
Proof.
  unfold MoveToPreviousLink. destruct (len (elements v) =? 0).
  { intros [= _ <-]. apply navStep_refl. }
  destruct (selectedIndex v >=? 0).
  - destruct (_ <? 0). { intros [= _ <-]. apply navStep_refl. }
    destruct (_ >=? len _); [discriminate|].
    destruct (lastIndexUpTo _ _ _) as [i|] eqn:Hfind.
    + intros [= _ <-]. apply lastIndexUpTo_Some in Hfind as (Hle & e & He & Hnav).
      eapply selectAndShow_navStep; eassumption.
    + intros [= _ <-]. apply navStep_refl.
  - destruct (lastIndexUpTo _ _ _) as [i|] eqn:Hfind.
    + intros [= _ <-]. apply lastIndexUpTo_Some in Hfind as (Hle & e & He & Hp).
      eapply selectAndShow_navStep; [exact Hle | exact He |].
      rewrite !andb_true_iff in Hp. destruct Hp as [[[Hty _] _] Hspan].
      unfold isNavigableLink. now rewrite Hty, Hspan.
    + intros [= _ <-]. apply navStep_refl.
Qed.

Lemma MoveToFirst_navStep v h : navStep v (snd (MoveToFirst v h)).
Proof.
  unfold MoveToFirst. destruct (len (elements v) =? 0); [apply navStep_refl|].
  destruct (findIndexFrom _ _ _) as [i|] eqn:Hfind; [|apply navStep_refl].
  destruct (negb _); [|apply navStep_refl]. cbn [snd].
  apply findIndexFrom_Some in Hfind as (Hle & e & He & Hnav). rewrite Z.sub_0_r in He.
  eapply selectAndShow_navStep; eassumption.
Qed.

Lemma MoveToLast_navStep v h : navStep v (snd (MoveToLast v h)).
Proof.
  unfold MoveToLast. destruct (len (elements v) =? 0); [apply navStep_refl|].
  destruct (lastIndexUpTo _ _ _) as [i|] eqn:Hfind; [|apply navStep_refl].
  destruct (negb _); [|apply navStep_refl]. cbn [snd].
  apply lastIndexUpTo_Some in Hfind as (Hle & e & He & Hnav).
  eapply selectAndShow_navStep; eassumption.
Qed.

Lemma VisibleLines_navStep v h lines v' :
  VisibleLines v h = Ok (lines, v') -> navStep v v'.
Proof.
  unfold VisibleLines. destruct (_ || _). { intros [= _ <-]. apply navStep_refl. }
  assert (navStep v (if scrollOffset v <? 0 then setScrollOffset v 0 else v)) as Hstep.
  { destruct (scrollOffset v <? 0); [apply navStep_scroll | apply navStep_refl]. }
  destruct (_ >=? _). { intros [= _ <-]. exact Hstep. }
  destruct (_ <? scrollOffset _); [discriminate|]. intros [= _ <-]. exact Hstep.
Qed.

(** *** Steps of loading and of anchor jumps *)

Lemma correlatePositions_fields v :
  history (correlatePositions v) = history v
  /\ selectedIndex (correlatePositions v) = selectedIndex v
  /\ scrollOffset (correlatePositions v) = scrollOffset v
  /\ markdown (correlatePositions v) = markdown v
  /\ renderedLines (correlatePositions v) = renderedLines v
  /\ currentWidth (correlatePositions v) = currentWidth v.
Proof.
  unfold correlatePositions. destruct (_ || _); [auto 10|].
  destruct (correlateAll _ _ _ _) as [correlations c1]. cbn. auto 10.
Qed.

Lemma ScrollToAnchor_pushStep v slug h push : pushStep v (snd (ScrollToAnchor v slug h push)).
Proof.
  unfold ScrollToAnchor, pushStep.
  destruct (FindHeaderBySlug v slug) as [header|]; cbn [snd]; [|auto].
  destruct (_ && _); cbn [snd]; [auto|].
  destruct push; cbn; destruct (_ >? _); cbn; auto.
Qed.

Lemma SetMarkdownWithSource_pushStep v content src push :
  pushStep v (snd (SetMarkdownWithSource v content src push)).
Proof.
  unfold SetMarkdownWithSource, pushStep.
  destruct (Render _ content) as [rendered [err|]]; cbn [snd]; [cbn; auto|].
  match goal with |- context [correlatePositions ?w] =>
    destruct (correlatePositions_fields w) as (Hh & _)
  end.
  cbn [history selectedIndex elements setScrollOffset setSelectedIndex].
  rewrite Hh. destruct (push && _); cbn; auto.
Qed.

(** *** Width change *)

Lemma elementsMatch_Type e1 e2 : elementsMatch e1 e2 = true -> Type_ e1 = Type_ e2.
Proof.
  unfold elementsMatch. destruct (decide (Type_ e1 = Type_ e2)) as [Heq | Hne]; [auto|].
  rewrite bool_decide_eq_false_2 by exact Hne. discriminate.
Qed.

Lemma restoreScrollAndSelection_step v anchorElem selectedElem :
  let v' := restoreScrollAndSelection v anchorElem selectedElem in
  history v' = history v
  /\ elements v' = elements v
  /\ renderedLines v' = renderedLines v
  /\ (selectedIndex v' = -1 \/ linkAt false (elements v) (selectedIndex v')).
Proof.
  unfold restoreScrollAndSelection.
  set (v1 := match anchorElem ≫= _ with Some _ => _ | None => v end).
  assert (history v1 = history v /\ elements v1 = elements v
          /\ renderedLines v1 = renderedLines v) as (Hh & He & Hl).
  { subst v1. destruct (anchorElem ≫= _) as [anchor|]; [|auto].
    destruct (List.find _ _); cbn; auto. }
  clearbody v1.
  destruct selectedElem as [s|]; [destruct (decide (Type_ s = NavElementURL)) as [Hs | Hs]|].
  - rewrite bool_decide_eq_true_2 by exact Hs.
    destruct (findIndexFrom _ _ _) as [i|] eqn:Hfind.
    + cbn. repeat split; try assumption. right.
      apply findIndexFrom_Some in Hfind as (Hi & e & Hlook & Hmatch).
      rewrite Z.sub_0_r, He in Hlook. split; [exact Hi|]. exists e.
      split; [exact Hlook|]. split; [|discriminate].
      apply elementsMatch_Type in Hmatch. congruence.
    + destruct (_ && _); cbn; auto.
  - rewrite bool_decide_eq_false_2 by exact Hs. destruct (_ && _); cbn; auto.
  - destruct (_ && _); cbn; auto.
Qed.

(** The clamp at the end of [restoreScrollAndSelection]: when no selection
    is restored and there are lines, the scroll offset ends below their
    number. *)
Lemma restoreScrollAndSelection_clamps v anchorElem selectedElem :
  let v' := restoreScrollAndSelection v anchorElem selectedElem in
  selectedIndex v' = -1 ->
  0 < len (renderedLines v) < 2 ^ 63 ->
  scrollOffset v' <= len (renderedLines v') - 1.
Proof.
  unfold restoreScrollAndSelection.
  set (v1 := match anchorElem ≫= _ with Some _ => _ | None => v end).
  assert (renderedLines v1 = renderedLines v) as Hl.
  { subst v1. destruct (anchorElem ≫= _) as [anchor|]; [|reflexivity].
    destruct (List.find _ _); reflexivity. }
  clearbody v1.
  set (restored := match selectedElem with Some _ => _ | None => None end).
  assert (forall i, restored = Some i -> 0 <= i) as Hrestored.
  { subst restored. intros i. destruct selectedElem as [s|]; [|discriminate].
    destruct (bool_decide _); [|discriminate].
    intros Hfind. apply findIndexFrom_Some in Hfind. tauto. }
  destruct restored as [i|].
  - cbn. intros Hsel. specialize (Hrestored i eq_refl). lia.
  - intros _ Hlen. cbn [renderedLines setSelectedIndex scrollOffset].
    rewrite Hl.
    destruct (Z.gtb_spec (len (renderedLines v)) 0); [|lia]. cbn [andb].
    destruct (Z.geb_spec (scrollOffset v1) (len (renderedLines v))); cbn; rewrite Hl.
    + unfold GoInt.sub. rewrite wrap_small; lia.
    + lia.
Qed.

Lemma SetWidth_step v cols :
  let v' := snd (SetWidth v cols) in
  history v' = history v
  /\ ((selectedIndex v' = selectedIndex v /\ elements v' = elements v)
      \/ selectedIndex v' = -1
      \/ linkAt false (elements v') (selectedIndex v')).
Proof.
  unfold SetWidth. set (cols' := if cols <? 0 then 0 else cols). clearbody cols'.
  destruct (currentWidth v =? cols'); cbn [snd]; [auto|].
  destruct (bool_decide (markdown v = "")); cbn [snd]; [cbn; auto|].
  set (anchorElem := if _ && _ then _ else None). clearbody anchorElem.
  unfold reRenderWithWidth.
  destruct (Render _ _) as [rendered [err|]]; cbn [snd]; [cbn; auto|].
  match goal with |- context [restoreScrollAndSelection ?w ?a ?s] =>
    destruct (restoreScrollAndSelection_step w a s) as (Hh & He & _ & Hsel);
    destruct (correlatePositions_fields
                (setCleaner (setRenderedLines
                   (assignRenderer (setCurrentWidth v cols')
                      (rendererForWidth (setCurrentWidth v cols') cols'))
                   (RenderResult.Lines rendered)) (RenderResult.Cleaner rendered)))
      as (Hh' & _)
  end.
  rewrite Hh, Hh'. split; [reflexivity|]. right. rewrite He. exact Hsel.
Qed.

(** *** History steps *)

Lemma GoBack_empty v : History.backStack (history v) = [] -> GoBack v = (false, v).
Proof. intros Hb. unfold GoBack, History.CanGoBack. rewrite Hb. reflexivity. Qed.

Lemma GoBack_snoc v bs p :
  History.backStack (history v) = bs ++ [p] ->
  GoBack v
  = (true,
     restoreState
       (setHistory v
          (History.mk bs
             (History.trim (history v)
                (History.forwardStack (history v) ++ [saveCurrentState v]))
             (History.maxSize (history v)))) p).
Proof.
  intros Hb. unfold GoBack.
  rewrite (CanGoBack_snoc _ bs p Hb), (Back_snoc _ bs p Hb). reflexivity.
Qed.

Lemma GoForward_empty v : History.forwardStack (history v) = [] -> GoForward v = (false, v).
Proof. intros Hb. unfold GoForward, History.CanGoForward. rewrite Hb. reflexivity. Qed.

Lemma GoForward_snoc v fs p :
  History.forwardStack (history v) = fs ++ [p] ->
  GoForward v
  = (true,
     restoreState
       (setHistory v
          (History.mk
             (History.trim (history v)
                (History.backStack (history v) ++ [saveCurrentState v]))
             fs (History.maxSize (history v)))) p).
Proof.
  intros Hb. unfold GoForward.
  rewrite (CanGoForward_snoc _ fs p Hb), (Forward_snoc _ fs p Hb). reflexivity.
Qed.

(** *** The invariant *)

Lemma trim_len_le {T} (h : History.NavigationHistory T) (slice : list T) :
  len (History.trim h slice) <= len slice.
Proof.
  unfold History.trim. destruct (History.maxSize h <=? 0); [lia|].
  destruct (len slice <=? History.maxSize h); [lia|].
  unfold GoInt.len. rewrite length_drop. lia.
Qed.

Lemma restoredIndex_cases state :
  restoredIndex state = -1
  \/ (restoredIndex state = PageState.SelectedIndex state
      /\ linkAt false (PageState.Elements state) (PageState.SelectedIndex state)).
Proof.
  unfold restoredIndex.
  destruct (Z.ltb_spec (PageState.SelectedIndex state) 0) as [|Hlow]; cbn [orb]; [auto|].
  destruct (Z.geb_spec (PageState.SelectedIndex state) (len (PageState.Elements state)))
    as [|Hhigh]; [auto|].
  destruct (PageState.Elements state !! Z.to_nat (PageState.SelectedIndex state))
    as [e|] eqn:He.
  - destruct (decide (Type_ e = NavElementHeader)) as [Hty | Hty].
    + rewrite bool_decide_eq_true_2 by exact Hty. auto.
    + rewrite bool_decide_eq_false_2 by exact Hty. right. split; [reflexivity|].
      split; [exact Hlow|]. exists e. split; [exact He|]. split; [|discriminate].
      destruct (Type_ e); [contradiction | reflexivity].
  - apply lookup_ge_None in He. unfold GoInt.len in Hhigh. lia.
Qed.

Lemma snapshotOK_save v : selectionOK true v -> snapshotOK (saveCurrentState v).
Proof.
  intros [Hsel | (Hi & e & He & Hty & Hspan)] e' Hlow Hlook _; cbn in *.
  - lia.
  - rewrite He in Hlook. injection Hlook as <-. auto.
Qed.

Lemma navStep_sessionOK strict v v' :
  navStep v v' -> sessionOK strict v -> sessionOK strict v'.
Proof.
  intros (He & Hh & Hsel) (Hhist & Hok & Hsnaps). unfold sessionOK, selectionOK.
  rewrite Hh, He. split; [exact Hhist|]. split; [|exact Hsnaps].
  destruct Hsel as [-> | [-> | Hlink]]; [exact Hok | auto |].
  right. apply linkAt_weaken. exact Hlink.
Qed.

Lemma Push_historyOK (h : History.NavigationHistory PageState.t) state :
  historyOK h -> historyOK (History.Push h state).
Proof.
  intros [Hpos Hsize]. unfold historyOK, History.Push. cbn.
  split; [exact Hpos|].
  pose proof (trim_len (History.mk (History.backStack h ++ [state])
                          (History.forwardStack h) (History.maxSize h))
                (History.backStack h ++ [state]) Hpos) as Hlen.
  cbn in Hlen. change (len (@nil PageState.t)) with 0. lia.
Qed.

Lemma pushStep_sessionOK strict v v' :
  pushStep v v' -> sessionOK strict v -> sessionOK strict v'.
Proof.
  intros (Hh & Hsel) (Hhist & Hok & Hsnaps). unfold sessionOK. split; [|split].
  - destruct Hh as [-> | ->]; [exact Hhist | apply Push_historyOK; exact Hhist].
  - destruct Hsel as [[Hs He] | Hs]; unfold selectionOK; [rewrite Hs, He; exact Hok | auto].
  - intros -> q Hq. specialize (Hsnaps eq_refl).
    destruct Hh as [Hh | Hh]; rewrite Hh in Hq; [auto|].
    cbn in Hq. rewrite app_nil_r in Hq. apply trim_elem_of in Hq.
    apply elem_of_app in Hq as [Hq | Hq].
    + apply Hsnaps. apply elem_of_app. auto.
    + apply list_elem_of_singleton in Hq as ->. apply snapshotOK_save. exact Hok.
Qed.

Lemma SetWidth_sessionOK v cols : sessionOK false v -> sessionOK false (snd (SetWidth v cols)).
Proof.
  intros (Hhist & Hok & _). destruct (SetWidth_step v cols) as (Hh & Hsel).
  unfold sessionOK. rewrite Hh. split; [exact Hhist|]. split; [|discriminate].
  unfold selectionOK. destruct Hsel as [[Hs He] | [Hs | Hs]]; [rewrite Hs, He; exact Hok|auto..].
Qed.

(** Restoring a snapshot under a history that is in order. *)
Lemma restoreState_sessionOK strict v state h' :
  historyOK h' ->
  (strict = true ->
   forall q, q ∈ History.backStack h' ++ History.forwardStack h' -> snapshotOK q) ->
  (strict = true -> snapshotOK state) ->
  sessionOK strict (restoreState (setHistory v h') state).
Proof.
  intros Hhist Hsnaps Hstate.
  destruct (restoreState_fields (setHistory v h') state)
    as (_ & _ & _ & He & _ & _ & _ & Hsel & Hh).
  unfold sessionOK, selectionOK. rewrite Hh, He, Hsel. cbn [history setHistory].
  split; [exact Hhist|]. split; [|exact Hsnaps].
  destruct (restoredIndex_cases state) as [Hr | [Hr (Hi & e & Hlook & Hty & _)]]; [auto|].
  right. rewrite Hr. split; [exact Hi|]. exists e. split; [exact Hlook|].
  split; [exact Hty|]. intros ->. apply (Hstate eq_refl e Hi Hlook Hty).
Qed.

Lemma GoBack_sessionOK strict v : sessionOK strict v -> sessionOK strict (snd (GoBack v)).
Proof.
  intros Hv. destruct (stack_cases (History.backStack (history v))) as [Hb | (bs & p & Hb)].
  { rewrite (GoBack_empty v Hb). exact Hv. }
  rewrite (GoBack_snoc v bs p Hb). cbn [snd].
  destruct Hv as ([Hpos Hsize] & Hok & Hsnaps). rewrite Hb, len_app in Hsize.
  change (len [p]) with 1 in Hsize.
  apply restoreState_sessionOK.
  - split; [exact Hpos|]. cbn.
    pose proof (trim_len_le (history v)
                  (History.forwardStack (history v) ++ [saveCurrentState v])) as Hlen.
    rewrite len_app in Hlen. change (len [saveCurrentState v]) with 1 in Hlen. lia.
  - intros -> q Hq. specialize (Hsnaps eq_refl). cbn in Hq. rewrite Hb in Hsnaps.
    apply elem_of_app in Hq as [Hq | Hq].
    + apply Hsnaps. rewrite !elem_of_app. auto.
    + apply trim_elem_of, elem_of_app in Hq as [Hq | Hq].
      * apply Hsnaps. rewrite !elem_of_app. auto.
      * apply list_elem_of_singleton in Hq as ->. apply snapshotOK_save. exact Hok.
  - intros ->. apply (Hsnaps eq_refl). rewrite Hb, !elem_of_app.
    left. right. apply list_elem_of_singleton. reflexivity.
Qed.

Lemma GoForward_sessionOK strict v :
  sessionOK strict v -> sessionOK strict (snd (GoForward v)).
Proof.
  intros Hv.
  destruct (stack_cases (History.forwardStack (history v))) as [Hb | (fs & p & Hb)].
  { rewrite (GoForward_empty v Hb). exact Hv. }
  rewrite (GoForward_snoc v fs p Hb). cbn [snd].
  destruct Hv as ([Hpos Hsize] & Hok & Hsnaps). rewrite Hb, len_app in Hsize.
  change (len [p]) with 1 in Hsize.
  apply restoreState_sessionOK.
  - split; [exact Hpos|]. cbn.
    pose proof (trim_len_le (history v)
                  (History.backStack (history v) ++ [saveCurrentState v])) as Hlen.
    rewrite len_app in Hlen. change (len [saveCurrentState v]) with 1 in Hlen. lia.
  - intros -> q Hq. specialize (Hsnaps eq_refl). cbn in Hq. rewrite Hb in Hsnaps.
    apply elem_of_app in Hq as [Hq | Hq].
    + apply trim_elem_of, elem_of_app in Hq as [Hq | Hq].
      * apply Hsnaps. rewrite !elem_of_app. auto.
      * apply list_elem_of_singleton in Hq as ->. apply snapshotOK_save. exact Hok.
    + apply Hsnaps. rewrite !elem_of_app. auto.
  - intros ->. apply (Hsnaps eq_refl). rewrite Hb, !elem_of_app.
    right. right. apply list_elem_of_singleton. reflexivity.
Qed.

Lemma New_sessionOK strict (opts : Options.t C) : sessionOK strict (New opts).
Proof.
  unfold sessionOK, selectionOK, historyOK, New. cbn. repeat split.
  - destruct (Z.leb_spec (Options.HistoryMax opts) 0); lia.
  - change (len (@nil PageState.t)) with 0. destruct (Z.leb_spec (Options.HistoryMax opts) 0); lia.
  - auto.
  - intros _ q Hq. apply elem_of_nil in Hq. contradiction.
Qed.

(** Every operation keeps the invariant; under [strict], every operation
    but a width change. *)
Lemma run_sessionOK strict op v v' :
  (strict = true -> notSetWidth op) ->
  run op v = Ok v' -> sessionOK strict v -> sessionOK strict v'.
Proof.
  intros Hop Hrun Hv.
  destruct op; cbn [run mapResult] in Hrun;
    try (injection Hrun as <-).
  - eapply pushStep_sessionOK; [apply SetMarkdownWithSource_pushStep | exact Hv].
  - destruct strict; [exfalso; exact (Hop eq_refl) | apply SetWidth_sessionOK; exact Hv].
  - eapply navStep_sessionOK; [apply ScrollUp_navStep | exact Hv].
  - eapply navStep_sessionOK; [apply ScrollDown_navStep | exact Hv].
  - eapply navStep_sessionOK; [|exact Hv]. apply pageLoop_navStep.
    intros w. apply ScrollUp_navStep.
  - eapply navStep_sessionOK; [|exact Hv]. apply pageLoop_navStep.
    intros w. apply ScrollDown_navStep.
  - eapply navStep_sessionOK; [apply Home_navStep | exact Hv].
  - eapply navStep_sessionOK; [apply End_navStep | exact Hv].
  - destruct (MoveToNextLink v viewportHeight) as [[moved w]|] eqn:Hmove; [|discriminate].
    injection Hrun as <-.
    eapply navStep_sessionOK; [eapply MoveToNextLink_navStep; exact Hmove | exact Hv].
  - destruct (MoveToPreviousLink v viewportHeight) as [[moved w]|] eqn:Hmove; [|discriminate].
    injection Hrun as <-.
    eapply navStep_sessionOK; [eapply MoveToPreviousLink_navStep; exact Hmove | exact Hv].
  - eapply navStep_sessionOK; [apply MoveToFirst_navStep | exact Hv].
  - eapply navStep_sessionOK; [apply MoveToLast_navStep | exact Hv].
  - eapply pushStep_sessionOK; [apply ScrollToAnchor_pushStep | exact Hv].
  - apply GoBack_sessionOK. exact Hv.
  - apply GoForward_sessionOK. exact Hv.
  - destruct (VisibleLines v viewportHeight) as [[lines w]|] eqn:Hvis; [|discriminate].
    injection Hrun as <-.
    eapply navStep_sessionOK; [eapply VisibleLines_navStep; exact Hvis | exact Hv].
  - eapply navStep_sessionOK; [|exact Hv]. unfold navStep. cbn. auto.
  - eapply navStep_sessionOK; [|exact Hv]. unfold navStep. cbn. auto.
Qed.

Lemma reachableBy_sessionOK strict (allowed : Op -> Prop) v :
  (strict = true -> forall op, allowed op -> notSetWidth op) ->
  reachableBy allowed v -> sessionOK strict v.
Proof.
  intros Hallowed Hreach. induction Hreach as [opts | v op v' _ IH Hop Hrun].
  - apply New_sessionOK.
  - eapply run_sessionOK; [|exact Hrun | exact IH]. intros Hs. apply Hallowed; assumption.
Qed.

(** *** The selection *)

(** The invariant of the selection.  In every state the public operations
    reach, a selection is inside the element table and on a link; in every
    state they reach without a width change, the selected link has a span
    ([endCol > startCol]): the traversal functions select such links only,
    and a snapshot restores what it saved. *)
Theorem selected_element_is_link :
  (forall v, reachable v -> 0 <= selectedIndex v ->
     exists e, elements v !! Z.to_nat (selectedIndex v) = Some e
               /\ Type_ e = NavElementURL)
  /\ (forall v, reachableBy notSetWidth v -> 0 <= selectedIndex v ->
        exists e, elements v !! Z.to_nat (selectedIndex v) = Some e
                  /\ Type_ e = NavElementURL
                  /\ StartCol e < EndCol e).
Proof.
  split.
  - intros v Hreach Hsel.
    destruct (reachableBy_sessionOK false anyOp v) as (_ & Hok & _);
      [discriminate | exact Hreach |].
    destruct Hok as [Hnone | (_ & e & He & Hty & _)]; [lia|]. exists e. auto.
  - intros v Hreach Hsel.
    destruct (reachableBy_sessionOK true notSetWidth v) as (_ & Hok & _);
      [auto | exact Hreach |].
    destruct Hok as [Hnone | (_ & e & He & Hty & Hspan)]; [lia|]. exists e. auto.
Qed.

(** *** Forward and back *)

Lemma restoredIndex_save v :
  selectionOK false v -> restoredIndex (saveCurrentState v) = selectedIndex v.
Proof.
  intros Hok. unfold restoredIndex. cbn.
  destruct Hok as [-> | (Hi & e & He & Hty & _)]; [reflexivity|].
  destruct (Z.ltb_spec (selectedIndex v) 0); [lia|]. cbn [orb].
  pose proof (lookup_lt_Some _ _ _ He) as Hlt.
  destruct (Z.geb_spec (selectedIndex v) (len (elements v))) as [Hge|_].
  { unfold GoInt.len in Hge. lia. }
  rewrite He, bool_decide_eq_false_2; [reflexivity | congruence].
Qed.

(** C5.  From a reachable state with a forward stack that is not empty,
    [GoForward] and then [GoBack] both succeed and give back the markdown,
    the source path, the rendered lines, the elements, the selection, the
    scroll offset, the width and the sizes of both stacks (the back stack
    itself, too). *)
Theorem GoForward_then_GoBack_identity v :
  reachable v ->
  History.forwardStack (history v) <> [] ->
  let v1 := snd (GoForward v) in
  let v2 := snd (GoBack v1) in
  fst (GoForward v) = true
  /\ fst (GoBack v1) = true
  /\ markdown v2 = markdown v
  /\ currentSourceFile v2 = currentSourceFile v
  /\ renderedLines v2 = renderedLines v
  /\ elements v2 = elements v
  /\ selectedIndex v2 = selectedIndex v
  /\ scrollOffset v2 = scrollOffset v
  /\ currentWidth v2 = currentWidth v
  /\ History.BackStackSize (history v2) = History.BackStackSize (history v)
  /\ History.ForwardStackSize (history v2) = History.ForwardStackSize (history v)
  /\ History.backStack (history v2) = History.backStack (history v).
Proof.
  intros Hreach Hfwd.
  destruct (reachableBy_sessionOK false anyOp v) as ([Hpos Hsize] & Hok & _);
    [discriminate | exact Hreach |].
  destruct (stack_cases (History.forwardStack (history v))) as [Hnil | (fs & n & Hfs)];
    [contradiction|].
  rewrite Hfs, len_app in Hsize. change (len [n]) with 1 in Hsize.
  pose proof (len_nonneg fs) as Hfs0.
  pose proof (len_nonneg (History.backStack (history v))) as Hbs0.
  rewrite (GoForward_snoc v fs n Hfs).
  rewrite trim_fits by (rewrite len_app; change (len [saveCurrentState v]) with 1; lia).
  cbn [fst snd].
  set (v1 := restoreState _ n).
  assert (history v1
          = History.mk (History.backStack (history v) ++ [saveCurrentState v]) fs
              (History.maxSize (history v))) as Hh1.
  { subst v1.
    match goal with |- history (restoreState ?w n) = _ =>
      destruct (restoreState_fields w n) as (_ & _ & _ & _ & _ & _ & _ & _ & ->)
    end. reflexivity. }
  rewrite (GoBack_snoc v1 (History.backStack (history v)) (saveCurrentState v))
    by (rewrite Hh1; reflexivity).
  cbn [fst snd].
  match goal with |- context [restoreState ?w (saveCurrentState v)] =>
    destruct (restoreState_fields w (saveCurrentState v))
      as (Hmd & Hsrc & Hlines & Hel & Hso & Hw & _ & Hsel & Hh2)
  end.
  rewrite Hmd, Hsrc, Hlines, Hel, Hso, Hw, Hsel, Hh2, (restoredIndex_save v Hok).
  cbn. rewrite Hh1. cbn.
  unfold History.BackStackSize, History.ForwardStackSize. cbn. rewrite Hfs.
  rewrite trim_fits
    by (cbn; rewrite len_app; change (len [saveCurrentState v1]) with 1; lia).
  rewrite !len_app. repeat split.
Qed.

(** *** What empties the forward stack *)

(** C3, amended.  From a state with a forward stack that is not empty, an
    operation leaves the forward stack empty only if it is a load with
    [pushToHistory] that succeeds on a session with markdown, or a
    [ScrollToAnchor] with [pushToHistory] that finds the heading and does
    not skip the scroll, or a [GoForward] that pops the only entry;
    scrolling, link traversal, width changes and [GoBack] never empty it. *)
Theorem forward_stack_emptied_only_by v op v' :
  run op v = Ok v' ->
  History.forwardStack (history v) <> [] ->
  History.forwardStack (history v') = [] ->
  (exists content src,
     op = OpSetMarkdownWithSource content src true
     /\ markdown v <> ""
     /\ fst (SetMarkdownWithSource v content src true) = None)
  \/ (exists slug h header,
        op = OpScrollToAnchor slug h true
        /\ FindHeaderBySlug v slug = Some header
        /\ (alwaysScrollToAnchor v = true
            \/ ~ (scrollOffset v <= StartLine header < scrollOffset v +i h)))
  \/ (op = OpGoForward /\ exists p, History.forwardStack (history v) = [p]).
Proof.
  intros Hrun Hfwd Hempty.
  assert (forall w, navStep v w -> w = v' -> False) as Hnav.
  { intros w (_ & Hh & _) ->. rewrite Hh in Hempty. contradiction. }
  destruct op; cbn [run mapResult] in Hrun; try (injection Hrun as Hrun).
  - left. revert Hrun. unfold SetMarkdownWithSource.
    destruct (Render _ content) as [rendered [err|]] eqn:Hrender; cbn [snd fst].
    { intros <-. cbn in Hempty. contradiction. }
    match goal with |- context [correlatePositions ?w] =>
      destruct (correlatePositions_fields w) as (Hh & _)
    end.
    intros <-. cbn [history setScrollOffset setSelectedIndex] in Hempty.
    rewrite Hh in Hempty. destruct pushToHistory; cbn [andb] in Hempty.
    + destruct (decide (markdown v = "")) as [Hmd | Hmd].
      * cbn in Hempty. rewrite bool_decide_eq_true_2 in Hempty by exact Hmd.
        cbn in Hempty. contradiction.
      * exists content, sourceFilePath. split; [reflexivity|]. split; [exact Hmd|].
        unfold SetMarkdownWithSource. rewrite Hrender. reflexivity.
    + cbn in Hempty. contradiction.
  - exfalso. destruct (SetWidth_step v cols) as (Hh & _). rewrite Hrun in Hh.
    rewrite Hh in Hempty. contradiction.
  - exfalso. eapply Hnav; [apply (ScrollUp_navStep v viewportHeight) | exact Hrun].
  - exfalso. eapply Hnav; [apply (ScrollDown_navStep v viewportHeight) | exact Hrun].
  - exfalso. eapply Hnav; [|exact Hrun]. apply pageLoop_navStep.
    intros w. apply ScrollUp_navStep.
  - exfalso. eapply Hnav; [|exact Hrun]. apply pageLoop_navStep.
    intros w. apply ScrollDown_navStep.
  - exfalso. eapply Hnav; [apply (Home_navStep v viewportHeight) | exact Hrun].
  - exfalso. eapply Hnav; [apply (End_navStep v viewportHeight) | exact Hrun].
  - exfalso.
    destruct (MoveToNextLink v viewportHeight) as [[moved w]|] eqn:Hmove; [|discriminate].
    injection Hrun as Hrun.
    eapply Hnav; [eapply MoveToNextLink_navStep; exact Hmove | exact Hrun].
  - exfalso.
    destruct (MoveToPreviousLink v viewportHeight) as [[moved w]|] eqn:Hmove; [|discriminate].
    injection Hrun as Hrun.
    eapply Hnav; [eapply MoveToPreviousLink_navStep; exact Hmove | exact Hrun].
  - exfalso. eapply Hnav; [apply (MoveToFirst_navStep v viewportHeight) | exact Hrun].
  - exfalso. eapply Hnav; [apply (MoveToLast_navStep v viewportHeight) | exact Hrun].
  - right. left. revert Hrun. unfold ScrollToAnchor.
    destruct (FindHeaderBySlug v slug) as [header|] eqn:Hfind; cbn [snd].
    2:{ intros <-. contradiction. }
    destruct (negb (alwaysScrollToAnchor v) && _ && _) eqn:Hskip; cbn [snd].
    { intros <-. contradiction. }
    destruct pushToHistory.
    + intros _. exists slug, viewportHeight, header.
      split; [reflexivity|]. split; [exact Hfind|].
      destruct (alwaysScrollToAnchor v); [left; reflexivity | right].
      cbn [negb andb] in Hskip.
      intros [Hlow Hhigh]. apply andb_false_iff in Hskip as [Hskip | Hskip].
      * destruct (Z.geb_spec (StartLine header) (scrollOffset v)); [discriminate | lia].
      * apply Z.ltb_ge in Hskip. lia.
    + intros <-. exfalso. revert Hempty. destruct (_ >? _); cbn; exact Hfwd.
  - exfalso.
    destruct (stack_cases (History.backStack (history v))) as [Hb | (bs & p & Hb)].
    + rewrite (GoBack_empty v Hb) in Hrun. cbn in Hrun. subst v'. contradiction.
    + rewrite (GoBack_snoc v bs p Hb) in Hrun. cbn [snd] in Hrun. subst v'.
      match type of Hempty with context [restoreState ?w p] =>
        destruct (restoreState_fields w p) as (_ & _ & _ & _ & _ & _ & _ & _ & Hh)
      end.
      rewrite Hh in Hempty. cbn in Hempty. revert Hempty. apply trim_nonempty.
  - right. right. split; [reflexivity|].
    destruct (stack_cases (History.forwardStack (history v))) as [Hb | (fs & p & Hb)];
      [contradiction|].
    rewrite (GoForward_snoc v fs p Hb) in Hrun. cbn [snd] in Hrun. subst v'.
    match type of Hempty with context [restoreState ?w p] =>
      destruct (restoreState_fields w p) as (_ & _ & _ & _ & _ & _ & _ & _ & Hh)
    end.
    rewrite Hh in Hempty. cbn in Hempty. subst fs. exists p. exact Hb.
  - exfalso.
    destruct (VisibleLines v viewportHeight) as [[lines w]|] eqn:Hvis; [|discriminate].
    injection Hrun as Hrun.
    eapply Hnav; [eapply VisibleLines_navStep; exact Hvis | exact Hrun].
  - exfalso. subst v'. cbn in Hempty. contradiction.
  - exfalso. subst v'. cbn in Hempty. contradiction.
Qed.

End SessionFacts.

(** ** Concrete runs *)

Section Runs.
Import Scenarios.

Lemma runAll_reachable (allowed : Op -> Prop) ops (v v' : MarkdownSession scripted) :
  reachableBy allowed v -> Forall allowed ops -> runAll ops v = Ok v' ->
  reachableBy allowed v'.
Proof.
  intros Hreach Hops. revert v Hreach.
  induction Hops as [|op ops Hop _ IH]; intros v Hreach; cbn [runAll].
  - intros [= <-]. exact Hreach.
  - destruct (run op v) as [w|] eqn:Hrun; [|discriminate].
    apply IH. eapply reach_run; eassumption.
Qed.

Lemma after_reachable (allowed : Op -> Prop) ops opts :
  Forall allowed ops -> reachableBy allowed (after ops (New opts)).
Proof.
  intros Hops. unfold after.
  destruct (runAll ops (New opts)) as [v'|] eqn:Hrun; [|apply reach_New].
  eapply runAll_reachable; [apply reach_New | exact Hops | exact Hrun].
Qed.

Lemma resized_reachable : reachableBy navigationOp resized.
Proof. apply after_reachable. repeat constructor. Qed.

Lemma scrolled_reachable : reachableBy navigationOp scrolled.
Proof. apply after_reachable. repeat constructor. Qed.

Lemma wentBack_reachable (allowed : Op -> Prop) :
  (forall op, navigationOp op -> allowed op) -> reachableBy allowed wentBack.
Proof. intros Hall. apply after_reachable. repeat constructor; apply Hall; exact I. Qed.

(** C2.  The claim: in every state the public operations reach, a selected
    element is a link with [endCol > startCol].  The code: the traversal
    functions test the span before they select, and
    [restoreScrollAndSelection] does not.  A page with one link is loaded,
    the link is selected and the width is changed; the correlator reports an
    empty span for the link at the re-render, and the link is selected again
    all the same.  So it is with the fixed correlators of the tests, the
    second installed before the width changes. *)
Theorem SetWidth_selects_link_without_span :
  (reachableBy navigationOp resized
   /\ selectedIndex resized = 0
   /\ exists e, elements resized !! Z.to_nat (selectedIndex resized) = Some e
                /\ Type_ e = NavElementURL
                /\ ~ (EndCol e > StartCol e))
  /\ (reachable recorrelated
      /\ selectedIndex recorrelated = 0
      /\ exists e, elements recorrelated !! Z.to_nat (selectedIndex recorrelated) = Some e
                   /\ Type_ e = NavElementURL
                   /\ ~ (EndCol e > StartCol e)).
Proof.
  split.
  - split; [exact resized_reachable|]. split; [vm_compute; reflexivity|].
    eexists. split; [vm_compute; reflexivity|]. split; [reflexivity|].
    vm_compute. discriminate.
  - split; [apply after_reachable; repeat constructor|].
    split; [vm_compute; reflexivity|].
    eexists. split; [vm_compute; reflexivity|]. split; [reflexivity|].
    vm_compute. discriminate.
Qed.

(** The invariant on concrete runs: after the width change the selection is
    still on a link, and before it the link has a span. *)
Lemma selected_element_is_link_witness :
  (exists e, elements resized !! Z.to_nat (selectedIndex resized) = Some e
             /\ Type_ e = NavElementURL)
  /\ (exists e, elements scrolled !! Z.to_nat (selectedIndex scrolled) = Some e
                /\ Type_ e = NavElementURL /\ StartCol e < EndCol e).
Proof.
  destruct (@selected_element_is_link scripted asciiText lineParser plainGlamour
              scriptedCorrelator) as [Hlink Hspan].
  split.
  - apply Hlink.
    + apply after_reachable. repeat constructor.
    + vm_compute. discriminate.
  - apply Hspan.
    + apply after_reachable. repeat constructor.
    + vm_compute. discriminate.
Defined.

(** C10.  The claim: after [SetWidth] has re-rendered, the scroll offset is
    inside [0, len(renderedLines) - 1].  The code: when the selection is
    restored, [restoreScrollAndSelection] returns before its clamp.  Here
    the one-line page is scrolled to offset 1 with its link selected;
    [SetWidth(40)] returns true and the offset is still 1, one past the only
    line, while the same call without a selection clamps it to 0. *)
Theorem SetWidth_restored_selection_skips_clamp :
  reachableBy navigationOp scrolled
  /\ markdown scrolled <> ""
  /\ currentWidth scrolled <> 40
  /\ fst (SetWidth scrolled 40) = true
  /\ len (renderedLines (snd (SetWidth scrolled 40))) = 1
  /\ scrollOffset (snd (SetWidth scrolled 40)) = 1
  /\ selectedIndex (snd (SetWidth scrolled 40)) = 0
  /\ scrollOffset (snd (SetWidth (setSelectedIndex scrolled (-1)) 40)) = 0.
Proof.
  split; [exact scrolled_reachable|].
  vm_compute. repeat split; discriminate.
Qed.

(** C3, the claim as it stands fails.  After a [GoBack] the forward stack
    holds the page left; a [ScrollToAnchor] with [pushToHistory] to a
    heading below the viewport pushes onto the back stack and empties the
    forward stack. *)
Lemma ScrollToAnchor_with_push_empties_forward_stack :
  reachableBy navigationOp wentBack
  /\ History.forwardStack (history wentBack) <> []
  /\ exists v', run (OpScrollToAnchor "b" 2 true) wentBack = Ok v'
                /\ History.forwardStack (history v') = [].
Proof.
  split; [apply wentBack_reachable; auto|].
  split; [vm_compute; discriminate|].
  eexists. split; [reflexivity|]. vm_compute. reflexivity.
Qed.

(** The amended claim on that run: the operation that emptied the forward
    stack is the anchor jump with [pushToHistory]. *)
Lemma forward_stack_emptied_only_by_witness :
  exists slug h header,
    OpScrollToAnchor "b" 2 true = OpScrollToAnchor (C := scripted) slug h true
    /\ FindHeaderBySlug wentBack slug = Some header
    /\ (alwaysScrollToAnchor wentBack = true
        \/ ~ (scrollOffset wentBack <= StartLine header < scrollOffset wentBack +i h)).
Proof.
  destruct (@forward_stack_emptied_only_by scripted asciiText lineParser plainGlamour
              scriptedCorrelator wentBack (OpScrollToAnchor "b" 2 true)
              (snd (ScrollToAnchor wentBack "b" 2 true)))
    as [(content & src & Hop & _) | [Hjump | (Hop & _)]].
  - reflexivity.
  - vm_compute. discriminate.
  - vm_compute. reflexivity.
  - discriminate.
  - exact Hjump.
  - discriminate.
Defined.

(** The load of the second page fails when the renderer does, and the first
    page stays. *)
Lemma SetMarkdownWithSource_error_leaves_state_witness :
  fst (SetMarkdownWithSource brokenRenderer "# Other" "q.md" true) = Some errRenderFailed
  /\ markdown (snd (SetMarkdownWithSource brokenRenderer "# Other" "q.md" true))
     = markdown brokenRenderer
  /\ renderedLines (snd (SetMarkdownWithSource brokenRenderer "# Other" "q.md" true))
     = renderedLines brokenRenderer.
Proof.
  destruct (@SetMarkdownWithSource_error_leaves_state scripted asciiText lineParser
              plainGlamour scriptedCorrelator brokenRenderer "# Other" "q.md" true
              (RenderResult.mk [] None) errRenderFailed)
    as (Herr & Hmd & _ & Hlines & _).
  - reflexivity.
  - split; [exact Herr|]. split; [exact Hmd | exact Hlines].
Defined.

(** The anchor of the page is on screen: the jump returns true, pushes
    nothing and does not scroll. *)
Lemma ScrollToAnchor_visible_unchanged_witness :
  ScrollToAnchor anchored "target" 5 true = (true, anchored)
  /\ CanGoBack anchored = false.
Proof.
  split; [|reflexivity].
  apply (@ScrollToAnchor_visible_unchanged scripted anchored "target" 5 true 1
           (mkNavElement NavElementHeader "target" "" 2 "target" "" 2 2 0 6)).
  - reflexivity.
  - vm_compute. reflexivity.
  - reflexivity.
  - reflexivity.
  - intros [|j] e Hj He Hty; [|lia]. vm_compute in He. injection He as <-. discriminate.
  - vm_compute. discriminate.
  - vm_compute. reflexivity.
Defined.

(** C9.  The claim: with [alwaysScrollToAnchor] off, when a heading with
    the slug exists and starts inside the viewport, [ScrollToAnchor]
    returns true and changes nothing.  The code: it looks at the first
    header with the slug only, and numbered slugs collide.  The headings
    [B], [B] and [B-1] get the slugs [b], [b-1] and [b-1]; the second is on
    line 1 and the third on line 8.  With the view on the lines 6 to 9 the
    third heading is on screen, and the jump to [b-1] pushes the state onto
    the history and moves the view to line 1. *)
Theorem ScrollToAnchor_later_heading_on_screen_scrolls :
  reachable MoreScenarios.duplicateSlugs
  /\ alwaysScrollToAnchor MoreScenarios.duplicateSlugs = false
  /\ (exists header,
        elements MoreScenarios.duplicateSlugs !! 2%nat = Some header
        /\ Type_ header = NavElementHeader
        /\ Slug header = "b-1"
        /\ scrollOffset MoreScenarios.duplicateSlugs <= StartLine header
           < scrollOffset MoreScenarios.duplicateSlugs + 4)
  /\ fst (ScrollToAnchor MoreScenarios.duplicateSlugs "b-1" 4 true) = true
  /\ scrollOffset MoreScenarios.duplicateSlugs = 6
  /\ scrollOffset (snd (ScrollToAnchor MoreScenarios.duplicateSlugs "b-1" 4 true)) = 1
  /\ CanGoBack MoreScenarios.duplicateSlugs = false
  /\ CanGoBack (snd (ScrollToAnchor MoreScenarios.duplicateSlugs "b-1" 4 true)) = true.
Proof.
  split; [apply after_reachable; repeat constructor|].
  split; [reflexivity|]. split.
  { eexists. split; [vm_compute; reflexivity|]. vm_compute.
    repeat split; discriminate. }
  vm_compute. repeat split.
Qed.

(** [GoBack] on the new session and on the session with two pages. *)
Lemma GoBack_spec_witness :
  GoBack pagesSession = (false, pagesSession)
  /\ fst (GoBack twoPages) = true
  /\ markdown (snd (GoBack twoPages)) = "## B"
  /\ last (History.forwardStack (history (snd (GoBack twoPages))))
     = Some (saveCurrentState twoPages).
Proof.
  destruct (@GoBack_spec scripted pagesSession) as [Hempty _].
  destruct (@GoBack_spec scripted twoPages) as [_ Hpop].
  split; [apply Hempty; reflexivity|].
  pose proof (Hpop [] (saveCurrentState (after [OpSetMarkdownWithSource "## B" "p1.md" false]
                                           pagesSession))) as Hpopped.
  cbv zeta in Hpopped.
  destruct Hpopped as (Hret & _ & _ & _ & Hlast & Hmd & _).
  - vm_compute. reflexivity.
  - split; [exact Hret|]. split; [rewrite Hmd; reflexivity | exact Hlast].
Defined.

(** Forward and back again from the first page. *)
Lemma GoForward_then_GoBack_identity_witness :
  History.forwardStack (history wentBack) <> []
  /\ markdown (snd (GoBack (snd (GoForward wentBack)))) = markdown wentBack
  /\ scrollOffset (snd (GoBack (snd (GoForward wentBack)))) = scrollOffset wentBack
  /\ History.ForwardStackSize (history (snd (GoBack (snd (GoForward wentBack)))))
     = History.ForwardStackSize (history wentBack).
Proof.
  assert (History.forwardStack (history wentBack) <> []) as Hfwd
    by (vm_compute; discriminate).
  split; [exact Hfwd|].
  destruct (@GoForward_then_GoBack_identity scripted asciiText lineParser plainGlamour
              scriptedCorrelator wentBack)
    as (_ & _ & Hmd & _ & _ & _ & _ & Hso & _ & _ & Hsize & _).
  - apply wentBack_reachable. intros op _. exact I.
  - exact Hfwd.
  - split; [exact Hmd|]. split; [exact Hso | exact Hsize].
Defined.

End Runs.

(** * Further properties *)

(** ** history.go *)

Section MoreHistoryFacts.
Context {T : Type}.
Import History.

Lemma trim_newest (h : NavigationHistory T) (l : list T) (x : T) :
  0 < maxSize h ->
  trim h (drop (length l - Z.to_nat (maxSize h)) l ++ [x])
  = drop (length (l ++ [x]) - Z.to_nat (maxSize h)) (l ++ [x]).
Proof.
  intros Hpos. unfold trim. destruct (Z.leb_spec (maxSize h) 0); [lia|].
  rewrite len_app. unfold GoInt.len. rewrite length_drop, length_app. cbn [length].
  destruct (Z.leb_spec (Z.of_nat (length l - (length l - Z.to_nat (maxSize h))) + Z.of_nat 1)
              (maxSize h)) as [Hfit | Hover].
  - replace (length l - Z.to_nat (maxSize h))%nat with 0%nat by lia.
    replace (length l + 1 - Z.to_nat (maxSize h))%nat with 0%nat by lia.
    reflexivity.
  - rewrite drop_app_le by (rewrite length_drop; lia).
    rewrite drop_drop. rewrite drop_app_le by lia. f_equal. f_equal. lia.
Qed.

(** X1.  A history of size [maxSize > 0] that was pushed the states [xs],
    one after the other, holds the newest [maxSize] of them in the back
    stack, the last one on top, and nothing in the forward stack. *)
Theorem Push_keeps_newest (size : Z) (xs : list T) :
  0 < size ->
  let h := foldl Push (NewNavigationHistory size) xs in
  backStack h = drop (length xs - Z.to_nat size) xs
  /\ forwardStack h = []
  /\ BackStackSize h = Z.min (len xs) size
  /\ last (backStack h) = last xs.
Proof.
  intros Hpos.
  assert (forall xs : list T, backStack (foldl Push (NewNavigationHistory size) xs)
                     = drop (length xs - Z.to_nat size) xs
                     /\ forwardStack (foldl Push (NewNavigationHistory size) xs) = []
                     /\ History.maxSize (foldl Push (NewNavigationHistory size) xs) = size)
    as Hall.
  { clear xs. intros xs. induction xs as [|x xs IH] using rev_ind.
    - cbn. auto.
    - rewrite foldl_snoc. destruct IH as (Hb & Hf & Hm).
      unfold Push at 1. cbn [backStack forwardStack History.maxSize].
      rewrite Hb, Hm. split; [|auto].
      apply (trim_newest (mk (drop (length xs - Z.to_nat size) xs ++ [x])
                            (forwardStack (foldl Push (NewNavigationHistory size) xs))
                            size)).
      exact Hpos. }
  intros h. destruct (Hall xs) as (Hb & Hf & _). fold h in Hb, Hf.
  split; [exact Hb|]. split; [exact Hf|]. split.
  - unfold BackStackSize. rewrite Hb. unfold GoInt.len. rewrite length_drop. lia.
  - rewrite Hb. destruct xs as [|y ys] using rev_ind; [reflexivity|].
    rewrite length_app. cbn [length]. rewrite drop_app_le by lia.
    rewrite !last_snoc. reflexivity.
Qed.

(** X2.  [Back] after [Push] returns the state that was pushed; the forward
    stack is then empty, and the back stack is the one before the push when
    it had room (or the history has no bound). *)
Theorem Back_after_Push (h : NavigationHistory T) (state : T) :
  fst (Back (Push h state)) = Some state
  /\ forwardStack (snd (Back (Push h state))) = []
  /\ (len (backStack h) < maxSize h \/ maxSize h <= 0 ->
      backStack (snd (Back (Push h state))) = backStack h).
Proof.
  pose proof (trim_last (mk (backStack h ++ [state]) (forwardStack h) (maxSize h))
                (backStack h) state) as Hlast.
  destruct (stack_cases (trim (mk (backStack h ++ [state]) (forwardStack h) (maxSize h))
                           (backStack h ++ [state]))) as [Hnil | (bs & p & Hbs)].
  { rewrite Hnil in Hlast. discriminate. }
  rewrite Hbs, last_snoc in Hlast. injection Hlast as ->.
  rewrite (Back_snoc (Push h state) bs state) by exact Hbs. cbn [fst snd].
  split; [reflexivity|]. split; [reflexivity|].
  intros Hroom. cbn [backStack].
  assert (trim (mk (backStack h ++ [state]) (forwardStack h) (maxSize h))
            (backStack h ++ [state]) = backStack h ++ [state]) as Hfit.
  { unfold trim. cbn [History.maxSize].
    destruct (Z.leb_spec (maxSize h) 0); [reflexivity|].
    rewrite len_app. change (len [state]) with 1.
    destruct (Z.leb_spec (len (backStack h) + 1) (maxSize h)); [reflexivity | lia]. }
  rewrite Hfit in Hbs. apply app_inj_tail in Hbs as [Hbs _]. symmetry. exact Hbs.
Qed.

End MoreHistoryFacts.

(** Five pushes into a history of three: the last three stay. *)
Lemma Push_keeps_newest_witness :
  History.backStack (foldl History.Push (History.NewNavigationHistory 3) [1; 2; 3; 4; 5])
  = [3; 4; 5].
Proof.
  destruct (@Push_keeps_newest Z 3 [1; 2; 3; 4; 5]) as (Hb & _); [lia|].
  rewrite Hb. reflexivity.
Defined.

(** A push into a history with room, and [Back]. *)
Lemma Back_after_Push_witness :
  History.backStack
    (snd (History.Back (History.Push (History.mk [1; 2] [9] 3) 7))) = [1; 2].
Proof.
  destruct (@Back_after_Push Z (History.mk [1; 2] [9] 3) 7) as (_ & _ & Hb).
  apply Hb. left. vm_compute. reflexivity.
Defined.

(** ** The session: loading and history *)

Section MoreSessionFacts.
Context {C : Type}.
Context `{GoText} `{Goldmark} `{Glamour} `{PositionCorrelator C}.
Implicit Types v : MarkdownSession C.

Lemma wrap_range z : - 2 ^ 63 <= GoInt.wrap z < 2 ^ 63.
Proof.
  unfold GoInt.wrap. pose proof (Z.mod_pos_bound (z + 2 ^ 63) (2 ^ 64)). lia.
Qed.

Lemma correlateAll_length (c : C) elems lines cl :
  length (fst (correlateAll c elems lines cl)) = length elems.
Proof.
  revert c. induction elems as [|e elems IH]; intros c; cbn [correlateAll]; [reflexivity|].
  destruct (CorrelatePosition c e lines cl) as [[[[lineIdx startCol] endCol] found] c1].
  specialize (IH c1). destruct (correlateAll c1 elems lines cl) as [cs c2].
  cbn in *. now rewrite IH.
Qed.

Lemma identity_applyCorrelation used e c : identity (applyCorrelation used e c) = identity e.
Proof.
  unfold applyCorrelation. destruct c as [[[lineIdx startCol] endCol]|]; [|reflexivity].
  destruct (_ =? _); reflexivity.
Qed.

Lemma identity_zip_with used (elems : list NavElement) (cs : list (option (Z * Z * Z))) :
  length cs = length elems ->
  identity <$> zip_with (applyCorrelation used) elems cs = identity <$> elems.
Proof.
  revert cs. induction elems as [|e elems IH]; intros [|c cs] Hlen; try discriminate;
    [reflexivity|].
  cbn. rewrite identity_applyCorrelation, IH; [reflexivity | cbn in Hlen; lia].
Qed.

(** Correlation writes positions only: what the elements are stays. *)
Lemma correlatePositions_identity v :
  identity <$> elements (correlatePositions v) = identity <$> elements v.
Proof.
  unfold correlatePositions. destruct (_ || _); [reflexivity|].
  pose proof (correlateAll_length (resetMarkerCorrelator (correlator v)) (elements v)
                (renderedLines v) (cleaner v)) as Hlen.
  destruct (correlateAll _ _ _ _) as [cs c1]. cbn [fst] in Hlen. cbn.
  apply identity_zip_with. exact Hlen.
Qed.

Lemma correlatePositions_source v :
  currentSourceFile (correlatePositions v) = currentSourceFile v
  /\ cleaner (correlatePositions v) = cleaner v
  /\ renderer (correlatePositions v) = renderer v
  /\ alwaysScrollToAnchor (correlatePositions v) = alwaysScrollToAnchor v
  /\ length (elements (correlatePositions v)) = length (elements v).
Proof.
  unfold correlatePositions. destruct (_ || _); [auto 10|].
  pose proof (correlateAll_length (resetMarkerCorrelator (correlator v)) (elements v)
                (renderedLines v) (cleaner v)) as Hlen.
  destruct (correlateAll _ _ _ _) as [correlations c1]. cbn in *.
  rewrite length_zip_with. repeat split. lia.
Qed.

(** A load that succeeds pushes the state before when it is asked to, and
    leaves the elements the parser gave. *)
Lemma load_history_elements v content sourceFilePath pushToHistory rendered :
  Render (rendererForWidth v (currentWidth v)) content = (rendered, None) ->
  let v' := snd (SetMarkdownWithSource v content sourceFilePath pushToHistory) in
  identity <$> elements v' = identity <$> parseMarkdownWithSource content sourceFilePath
  /\ history v'
     = if pushToHistory && negb (bool_decide (markdown v = ""))
       then History.Push (history v) (saveCurrentState v)
       else history v.
Proof.
  intros Hrender. unfold SetMarkdownWithSource. rewrite Hrender.
  change (markdown (assignRenderer v _)) with (markdown v).
  destruct (pushToHistory && _); cbn [fst snd];
    match goal with |- context [correlatePositions ?w] =>
      destruct (correlatePositions_fields w) as (Hh & _);
      pose proof (correlatePositions_identity w) as Hid
    end;
    cbn [elements history setScrollOffset setSelectedIndex];
    rewrite Hh, Hid; split; reflexivity.
Qed.


(** X4.  With an empty forward stack [GoForward] returns false and the
    session is untouched.  Otherwise it returns true and the top of the
    forward stack is popped.  The snapshot pushed onto the back stack holds
    the markdown, the source path, the selection, the scroll offset, the
    elements, the rendered lines, the cleaner and the width of the session
    before the call; the back stack is the old one with this snapshot on
    top, cut from its bottom to the newest [maxSize] entries when the bound
    is positive.  The popped snapshot is restored: markdown, source path,
    rendered lines, elements, scroll offset and width are its fields, the
    cleaner is its cleaner (the identity for a nil one), the selection is
    its selection unless that is out of range or on a header, and the
    renderer, the correlator and the scroll setting stay. *)
Theorem GoForward_spec v :
  (History.forwardStack (history v) = [] -> GoForward v = (false, v))
  /\ (forall fs p,
        History.forwardStack (history v) = fs ++ [p] ->
        let v' := snd (GoForward v) in
        let pushed :=
          PageState.mk (markdown v) (currentSourceFile v) (selectedIndex v) (scrollOffset v)
            (elements v) (renderedLines v) (cleaner v) (currentWidth v) in
        let full := History.backStack (history v) ++ [pushed] in
        let bound := History.maxSize (history v) in
        fst (GoForward v) = true
        /\ History.forwardStack (history v') = fs
        /\ History.maxSize (history v') = bound
        /\ History.backStack (history v')
           = (if (bound <=? 0) || (len full <=? bound) then full
              else drop (Z.to_nat (len full - bound)) full)
        /\ last (History.backStack (history v')) = Some pushed
        /\ markdown v' = PageState.Markdown p
        /\ currentSourceFile v' = PageState.SourceFilePath p
        /\ renderedLines v' = PageState.RenderedLines p
        /\ elements v' = PageState.Elements p
        /\ scrollOffset v' = PageState.ScrollOffset p
        /\ currentWidth v' = PageState.Width p
        /\ cleaner v' = Some (default (fun s => s) (PageState.Cleaner p))
        /\ selectedIndex v'
           = (let i := PageState.SelectedIndex p in
              if (i <? 0) || (i >=? len (PageState.Elements p)) then -1
              else match PageState.Elements p !! Z.to_nat i with
                   | Some e => if bool_decide (Type_ e = NavElementHeader) then -1 else i
                   | None => i
                   end)
        /\ renderer v' = renderer v
        /\ correlator v' = correlator v
        /\ alwaysScrollToAnchor v' = alwaysScrollToAnchor v).
Proof.
  split; [apply GoForward_empty|].
  intros fs p Hf. cbv zeta. rewrite (GoForward_snoc v fs p Hf). cbn [fst snd].
  match goal with |- context [restoreState ?w p] =>
    pose proof (restoreState_fields w p)
      as (Hmd & Hsrc & Hlines & Hel & Hso & Hw & Hcl & Hsel & Hh);
    pose proof (restoreState_frame w p) as (Hr & Hc & Ha)
  end.
  rewrite Hmd, Hsrc, Hlines, Hel, Hso, Hw, Hcl, Hsel, Hh, Hr, Hc, Ha.
  split; [reflexivity|]. split; [reflexivity|]. split; [reflexivity|].
  split.
  { cbn. unfold History.trim.
    destruct (History.maxSize (history v) <=? 0); reflexivity. }
  split; [apply (trim_last (history v))|].
  repeat (split; [reflexivity|]). reflexivity.
Qed.

(** X5.  From a reachable state with a back stack that is not empty,
    [GoBack] and then [GoForward] both succeed and give back the markdown,
    the source path, the rendered lines, the elements, the selection, the
    scroll offset, the width, the forward stack and the size of the back
    stack. *)
Theorem GoBack_then_GoForward_identity v :
  reachable v ->
  History.backStack (history v) <> [] ->
  let v1 := snd (GoBack v) in
  let v2 := snd (GoForward v1) in
  fst (GoBack v) = true
  /\ fst (GoForward v1) = true
  /\ markdown v2 = markdown v
  /\ currentSourceFile v2 = currentSourceFile v
  /\ renderedLines v2 = renderedLines v
  /\ elements v2 = elements v
  /\ selectedIndex v2 = selectedIndex v
  /\ scrollOffset v2 = scrollOffset v
  /\ currentWidth v2 = currentWidth v
  /\ History.forwardStack (history v2) = History.forwardStack (history v)
  /\ History.BackStackSize (history v2) = History.BackStackSize (history v).
Proof.
  intros Hreach Hback.
  destruct (reachableBy_sessionOK false anyOp v) as ([Hpos Hsize] & Hok & _);
    [discriminate | exact Hreach |].
  destruct (stack_cases (History.backStack (history v))) as [Hnil | (bs & n & Hbs)];
    [contradiction|].
  rewrite Hbs, len_app in Hsize. change (len [n]) with 1 in Hsize.
  pose proof (len_nonneg bs) as Hbs0.
  pose proof (len_nonneg (History.forwardStack (history v))) as Hfs0.
  rewrite (GoBack_snoc v bs n Hbs).
  rewrite trim_fits by (rewrite len_app; change (len [saveCurrentState v]) with 1; lia).
  cbn [fst snd].
  set (v1 := restoreState _ n).
  assert (history v1
          = History.mk bs (History.forwardStack (history v) ++ [saveCurrentState v])
              (History.maxSize (history v))) as Hh1.
  { subst v1.
    match goal with |- history (restoreState ?w n) = _ =>
      destruct (restoreState_fields w n) as (_ & _ & _ & _ & _ & _ & _ & _ & ->)
    end. reflexivity. }
  rewrite (GoForward_snoc v1 (History.forwardStack (history v)) (saveCurrentState v))
    by (rewrite Hh1; reflexivity).
  cbn [fst snd].
  match goal with |- context [restoreState ?w (saveCurrentState v)] =>
    destruct (restoreState_fields w (saveCurrentState v))
      as (Hmd & Hsrc & Hlines & Hel & Hso & Hw & _ & Hsel & Hh2)
  end.
  rewrite Hmd, Hsrc, Hlines, Hel, Hso, Hw, Hsel, Hh2, (restoredIndex_save v Hok).
  cbn. rewrite Hh1. cbn.
  unfold History.BackStackSize. cbn. rewrite Hbs.
  rewrite trim_fits
    by (cbn; rewrite len_app; change (len [saveCurrentState v1]) with 1; lia).
  rewrite !len_app. repeat split.
Qed.

(** X6.  In every state the public operations reach, the history has a
    positive bound and its two stacks together hold no more snapshots than
    the bound. *)
Theorem reachable_history_bounded v :
  reachable v ->
  0 < History.maxSize (history v)
  /\ History.BackStackSize (history v) + History.ForwardStackSize (history v)
     <= History.maxSize (history v).
Proof.
  intros Hreach.
  destruct (reachableBy_sessionOK false anyOp v) as (Hhist & _);
    [discriminate | exact Hreach | exact Hhist].
Qed.

(** X7.  A page loaded with [pushToHistory] over a page with markdown can
    be left again: [GoBack] returns true and gives back the markdown, the
    source path, the rendered lines, the elements, the scroll offset and the
    width of the page before, with its selection as [restoreState] keeps
    it, and the page left is on top of the forward stack. *)
Theorem GoBack_after_load v content sourceFilePath rendered :
  markdown v <> "" ->
  Render (rendererForWidth v (currentWidth v)) content = (rendered, None) ->
  let v1 := snd (SetMarkdownWithSource v content sourceFilePath true) in
  let v2 := snd (GoBack v1) in
  fst (GoBack v1) = true
  /\ markdown v2 = markdown v
  /\ currentSourceFile v2 = currentSourceFile v
  /\ renderedLines v2 = renderedLines v
  /\ elements v2 = elements v
  /\ scrollOffset v2 = scrollOffset v
  /\ currentWidth v2 = currentWidth v
  /\ selectedIndex v2 = restoredIndex (saveCurrentState v)
  /\ CanGoForward v2 = true
  /\ last (History.forwardStack (history v2)) = Some (saveCurrentState v1).
Proof.
  intros Hmd Hrender.
  destruct (load_history_elements v content sourceFilePath true rendered Hrender)
    as (_ & Hh).
  rewrite bool_decide_eq_false_2 in Hh by exact Hmd. cbn [andb negb] in Hh.
  cbn zeta. set (v1 := snd (SetMarkdownWithSource v content sourceFilePath true)) in *.
  pose proof (trim_last
                (History.mk (History.backStack (history v) ++ [saveCurrentState v])
                   (History.forwardStack (history v)) (History.maxSize (history v)))
                (History.backStack (history v)) (saveCurrentState v)) as Hlast.
  destruct (stack_cases (History.backStack (history v1))) as [Hnil | (bs & p & Hbs)].
  { rewrite Hh in Hnil. cbn in Hnil. rewrite Hnil in Hlast. discriminate. }
  assert (p = saveCurrentState v) as ->.
  { rewrite Hh in Hbs. cbn in Hbs. rewrite Hbs, last_snoc in Hlast. congruence. }
  rewrite (GoBack_snoc v1 bs (saveCurrentState v) Hbs). cbn [fst snd].
  unfold CanGoForward.
  match goal with |- context [restoreState ?w (saveCurrentState v)] =>
    destruct (restoreState_fields w (saveCurrentState v))
      as (Hmd' & Hsrc & Hlines & Hel & Hso & Hw & _ & Hsel & Hh2)
  end.
  rewrite Hmd', Hsrc, Hlines, Hel, Hso, Hw, Hsel, Hh2. cbn.
  repeat split.
  - unfold History.CanGoForward. cbn.
    pose proof (trim_last (history v1) (History.forwardStack (history v1))
                  (saveCurrentState v1)) as Hl.
    destruct (History.trim (history v1) _) as [|x xs]; [discriminate|].
    reflexivity.
  - apply (trim_last (history v1)).
Qed.

(** ** The session: correlation *)

Lemma recordLongest_lookup (u : gmap (Z * Z) Z) (c : Z * Z * Z) (k : Z * Z) :
  recordLongest u (Some c) !! k
  = if decide (keyOf c = k)
    then Some (match u !! k with Some m => Z.max m (matchLen c) | None => matchLen c end)
    else u !! k.
Proof.
  destruct c as [[lineIdx startCol] endCol]. unfold recordLongest, keyOf, matchLen.
  destruct (decide ((lineIdx, startCol) = k)) as [<-|Hne].
  - destruct (u !! (lineIdx, startCol)) as [m|] eqn:Hu.
    + destruct (Z.gtb_spec (endCol -i startCol) m).
      * rewrite lookup_insert_eq. f_equal. lia.
      * rewrite Hu. f_equal. lia.
    + rewrite lookup_insert_eq. reflexivity.
  - destruct (u !! (lineIdx, startCol)) as [m|]; [destruct (_ >? _)|];
      rewrite ?lookup_insert_ne by exact Hne; reflexivity.
Qed.

(** The map of the second loop: a key has an entry exactly when a
    correlation with the key was found, and the entry is the greatest of
    their lengths. *)
Lemma foldl_recordLongest_lookup (cs : list (option (Z * Z * Z))) :
  forall (u : gmap (Z * Z) Z) (k : Z * Z),
    match foldl recordLongest u cs !! k with
    | Some m =>
        (u !! k = Some m \/ exists c, Some c ∈ cs /\ keyOf c = k /\ matchLen c = m)
        /\ (forall m0, u !! k = Some m0 -> m0 <= m)
        /\ (forall c, Some c ∈ cs -> keyOf c = k -> matchLen c <= m)
    | None => u !! k = None /\ forall c, Some c ∈ cs -> keyOf c <> k
    end.
Proof.
  induction cs as [|c cs IH]; intros u k.
  - cbn. destruct (u !! k) as [m|] eqn:Hu.
    + split; [left; reflexivity|]. split.
      * intros m0 Hm0. injection Hm0 as <-. lia.
      * intros c Hin. set_unfold in Hin. contradiction.
    + split; [reflexivity|]. intros c Hin. set_unfold in Hin. contradiction.
  - cbn [foldl]. specialize (IH (recordLongest u c) k).
    destruct c as [c|].
    + rewrite recordLongest_lookup in IH.
      destruct (foldl recordLongest (recordLongest u (Some c)) cs !! k) as [m|].
      * destruct IH as (Hfrom & Hge & Hall).
        destruct (decide (keyOf c = k)) as [Hk|Hk].
        -- specialize (Hge _ eq_refl). split; [|split].
           ++ destruct Hfrom as [Hm | (c' & Hin & Hk' & Hm)].
              ** injection Hm as Hm. destruct (u !! k) as [m1|] eqn:Hu.
                 --- destruct (Z.max_spec m1 (matchLen c)) as [[_ Hmax] | [_ Hmax]];
                       rewrite Hmax in Hm.
                     +++ right. exists c. set_unfold. auto.
                     +++ left. congruence.
                 --- right. exists c. set_unfold. auto.
              ** right. exists c'. set_unfold. auto.
           ++ intros m0 Hm0. rewrite Hm0 in Hge. lia.
           ++ intros c' Hin Hk'. set_unfold in Hin. destruct Hin as [Heq | Hin].
              ** injection Heq as ->. destruct (u !! k); lia.
              ** apply Hall; assumption.
        -- split; [|split].
           ++ destruct Hfrom as [Hm | (c' & Hin & Hk' & Hm)]; [left; exact Hm|].
              right. exists c'. set_unfold. auto.
           ++ exact Hge.
           ++ intros c' Hin Hk'. set_unfold in Hin. destruct Hin as [Heq | Hin].
              ** injection Heq as ->. contradiction.
              ** apply Hall; assumption.
      * destruct IH as (Hnone & Hall).
        destruct (decide (keyOf c = k)) as [Hk|Hk]; [discriminate|].
        split; [exact Hnone|].
        intros c' Hin. set_unfold in Hin. destruct Hin as [Heq | Hin].
        -- injection Heq as ->. exact Hk.
        -- apply Hall. exact Hin.
    + change (recordLongest u None) with u in *.
      destruct (foldl recordLongest u cs !! k) as [m|].
      * destruct IH as (Hfrom & Hge & Hall). split; [|split].
        -- destruct Hfrom as [Hm | (c' & Hin & Hk' & Hm)]; [left; exact Hm|].
           right. exists c'. set_unfold. auto.
        -- exact Hge.
        -- intros c' Hin Hk'. set_unfold in Hin. destruct Hin as [Heq | Hin];
             [discriminate | apply Hall; assumption].
      * destruct IH as (Hnone & Hall). split; [exact Hnone|].
        intros c' Hin. set_unfold in Hin. destruct Hin as [Heq | Hin];
          [discriminate | apply Hall; exact Hin].
Qed.

(** X8.  Where the correlator finds several elements at one line and start
    column, only the longest match is written: an element whose match is
    at least as long as every match with its key gets the line and the
    columns of its match, an element with a shorter match than another
    with its key is left as it was, and so is an element that was not
    found. *)
Theorem correlatePositions_longest_match v (i : nat) (e : NavElement) :
  renderedLines v <> [] ->
  elements v !! i = Some e ->
  let cs := fst (correlateAll (resetMarkerCorrelator (correlator v)) (elements v)
                   (renderedLines v) (cleaner v)) in
  match cs !! i with
  | Some (Some (lineIdx, startCol, endCol)) =>
      ((forall j c, cs !! j = Some (Some c) -> keyOf c = (lineIdx, startCol) ->
                    matchLen c <= endCol -i startCol) ->
       elements (correlatePositions v) !! i = Some (withPosition e lineIdx startCol endCol))
      /\ ((exists j c, cs !! j = Some (Some c) /\ keyOf c = (lineIdx, startCol)
                       /\ endCol -i startCol < matchLen c) ->
          elements (correlatePositions v) !! i = Some e)
  | _ => elements (correlatePositions v) !! i = Some e
  end.
Proof.
  intros Hlines He cs.
  pose proof (correlateAll_length (resetMarkerCorrelator (correlator v)) (elements v)
                (renderedLines v) (cleaner v)) as Hlen. fold cs in Hlen.
  assert (elements (correlatePositions v)
          = zip_with (applyCorrelation (foldl recordLongest ∅ cs)) (elements v) cs) as Hel.
  { unfold correlatePositions.
    destruct (Z.eqb_spec (len (elements v)) 0) as [He0|_].
    { apply lookup_lt_Some in He. unfold GoInt.len in He0. lia. }
    destruct (Z.eqb_spec (len (renderedLines v)) 0) as [Hl0|_].
    { destruct (renderedLines v); [contradiction | discriminate]. }
    cbn [orb]. subst cs.
    destruct (correlateAll _ _ _ _) as [correlations c1]. reflexivity. }
  destruct (cs !! i) as [c|] eqn:Hc.
  2:{ apply lookup_ge_None in Hc. apply lookup_lt_Some in He. lia. }
  assert (elements (correlatePositions v) !! i
          = Some (applyCorrelation (foldl recordLongest ∅ cs) e c)) as Hi.
  { rewrite Hel, lookup_zip_with, He. cbn. rewrite Hc. reflexivity. }
  destruct c as [[[lineIdx startCol] endCol]|]; [|exact Hi].
  pose proof (foldl_recordLongest_lookup cs ∅ (lineIdx, startCol)) as Hused.
  assert (Some (lineIdx, startCol, endCol) ∈ cs) as Hin
    by (apply list_elem_of_lookup; exists i; exact Hc).
  rewrite Hi. unfold applyCorrelation.
  destruct (foldl recordLongest ∅ cs !! (lineIdx, startCol)) as [m|].
  2:{ destruct Hused as [_ Hnone]. exfalso. apply (Hnone _ Hin). reflexivity. }
  destruct Hused as (Hfrom & _ & Hall). cbn [default]. unfold id.
  pose proof (Hall _ Hin eq_refl) as Hle. cbn [matchLen] in Hle.
  destruct Hfrom as [Hempty | (c' & Hin' & Hk' & Hm')];
    [rewrite lookup_empty in Hempty; discriminate|].
  apply list_elem_of_lookup in Hin' as [j Hj].
  split.
  - intros Hlongest. specialize (Hlongest j c' Hj Hk').
    destruct (Z.eqb_spec (endCol -i startCol) m); [reflexivity | lia].
  - intros (j' & c'' & Hj' & Hk'' & Hlt).
    assert (Some c'' ∈ cs) as Hin'' by (apply list_elem_of_lookup; exists j'; exact Hj').
    specialize (Hall _ Hin'' Hk'').
    destruct (Z.eqb_spec (endCol -i startCol) m); [lia | reflexivity].
Qed.

(** ** The session: scrolling *)

Lemma clearSelectionIfOffScreen_fields v h :
  scrollOffset (clearSelectionIfOffScreen v h) = scrollOffset v
  /\ renderedLines (clearSelectionIfOffScreen v h) = renderedLines v
  /\ elements (clearSelectionIfOffScreen v h) = elements v
  /\ markdown (clearSelectionIfOffScreen v h) = markdown v.
Proof.
  unfold clearSelectionIfOffScreen.
  destruct (_ || _); [auto|]. destruct (h <=? 0); [auto|].
  destruct (elementAt v (selectedIndex v)) as [elem|]; [|auto].
  destruct (EndLine elem <? scrollOffset v); [cbn; auto|].
  destruct (StartLine elem >=? _); cbn; auto.
Qed.

Lemma maxOffsetFor_range v h : 0 <= maxOffsetFor v h < 2 ^ 63.
Proof.
  unfold maxOffsetFor. pose proof (wrap_range (len (renderedLines v) - h)) as Hr.
  unfold GoInt.sub. destruct (Z.ltb_spec (GoInt.wrap (len (renderedLines v) - h)) 0); lia.
Qed.

Lemma maxOffsetFor_lines v v' h :
  renderedLines v' = renderedLines v -> maxOffsetFor v' h = maxOffsetFor v h.
Proof. intros Hl. unfold maxOffsetFor. rewrite Hl. reflexivity. Qed.

Lemma ScrollDown_offset v h :
  - 2 ^ 63 <= scrollOffset v ->
  renderedLines (snd (ScrollDown v h)) = renderedLines v
  /\ (scrollOffset v < maxOffsetFor v h ->
      fst (ScrollDown v h) = true /\ scrollOffset (snd (ScrollDown v h)) = scrollOffset v + 1)
  /\ (maxOffsetFor v h <= scrollOffset v -> ScrollDown v h = (false, v)).
Proof.
  intros Hlow. pose proof (maxOffsetFor_range v h) as Hm. unfold ScrollDown.
  destruct (Z.ltb_spec (scrollOffset v) (maxOffsetFor v h)) as [Hlt|Hge]; cbn [fst snd].
  - destruct (clearSelectionIfOffScreen_fields
                (setScrollOffset v (scrollOffset v +i 1)) h) as (Hso & Hl & _).
    rewrite Hso, Hl. cbn. unfold GoInt.add. rewrite wrap_small by lia.
    repeat split; lia.
  - repeat split; lia.
Qed.

Lemma ScrollUp_offset v h :
  scrollOffset v < 2 ^ 63 ->
  renderedLines (snd (ScrollUp v h)) = renderedLines v
  /\ (0 < scrollOffset v ->
      fst (ScrollUp v h) = true /\ scrollOffset (snd (ScrollUp v h)) = scrollOffset v - 1)
  /\ (scrollOffset v <= 0 -> ScrollUp v h = (false, v)).
Proof.
  intros Hhigh. unfold ScrollUp.
  destruct (Z.gtb_spec (scrollOffset v) 0) as [Hgt|Hle]; cbn [fst snd].
  - destruct (clearSelectionIfOffScreen_fields
                (setScrollOffset v (scrollOffset v -i 1)) h) as (Hso & Hl & _).
    rewrite Hso, Hl. cbn. unfold GoInt.sub. rewrite wrap_small by lia.
    repeat split; lia.
  - repeat split; lia.
Qed.

Lemma pageLoop_ScrollDown h (n : nat) :
  forall v moved,
    - 2 ^ 63 <= scrollOffset v ->
    let r := pageLoop (fun v => ScrollDown v h) n v moved in
    scrollOffset (snd r)
    = Z.max (scrollOffset v) (Z.min (scrollOffset v + Z.of_nat n) (maxOffsetFor v h))
    /\ fst r = moved || (0 <? Z.of_nat n) && (scrollOffset v <? maxOffsetFor v h)
    /\ renderedLines (snd r) = renderedLines v.
Proof.
  induction n as [|n IH]; intros v moved Hlow.
  - cbn. rewrite orb_false_r. repeat split. lia.
  - cbn [pageLoop].
    destruct (ScrollDown_offset v h Hlow) as (Hl & Hstep & Hstay).
    destruct (Z.ltb_spec (scrollOffset v) (maxOffsetFor v h)) as [Hlt|Hge].
    + destruct (Hstep Hlt) as [Hok Hso].
      destruct (ScrollDown v h) as [ok v1]. cbn [fst snd] in *. subst ok.
      specialize (IH v1 true ltac:(lia)). cbn zeta in IH.
      destruct IH as (IHso & IHok & IHl).
      rewrite IHso, IHok, IHl, Hso, Hl, (maxOffsetFor_lines v v1 h Hl).
      replace (0 <? Z.of_nat (S n)) with true by (symmetry; apply Z.ltb_lt; lia).
      rewrite orb_true_r. repeat split. lia.
    + rewrite (Hstay Hge). cbn [fst snd].
      rewrite andb_false_r, orb_false_r. repeat split. lia.
Qed.

Lemma pageLoop_ScrollUp h (n : nat) :
  forall v moved,
    scrollOffset v < 2 ^ 63 ->
    let r := pageLoop (fun v => ScrollUp v h) n v moved in
    scrollOffset (snd r)
    = Z.min (scrollOffset v) (Z.max (scrollOffset v - Z.of_nat n) 0)
    /\ fst r = moved || (0 <? Z.of_nat n) && (0 <? scrollOffset v)
    /\ renderedLines (snd r) = renderedLines v.
Proof.
  induction n as [|n IH]; intros v moved Hhigh.
  - cbn. rewrite orb_false_r. repeat split. lia.
  - cbn [pageLoop].
    destruct (ScrollUp_offset v h Hhigh) as (Hl & Hstep & Hstay).
    destruct (Z.ltb_spec 0 (scrollOffset v)) as [Hlt|Hge].
    + destruct (Hstep Hlt) as [Hok Hso].
      destruct (ScrollUp v h) as [ok v1]. cbn [fst snd] in *. subst ok.
      specialize (IH v1 true ltac:(lia)). cbn zeta in IH.
      destruct IH as (IHso & IHok & IHl).
      rewrite IHso, IHok, IHl, Hso, Hl.
      replace (0 <? Z.of_nat (S n)) with true by (symmetry; apply Z.ltb_lt; lia).
      rewrite orb_true_r. repeat split. lia.
    + rewrite (Hstay Hge). cbn [fst snd].
      rewrite andb_false_r, orb_false_r. repeat split. lia.
Qed.

(** X9.  [PageDown] moves the view down by the height of the viewport and
    stops at the last full page: with [m] the greatest offset
    ([len(renderedLines) - viewportHeight], not below 0), an offset [o] not
    beyond [m] becomes [min (o + viewportHeight) m]; an offset beyond [m]
    stays.  It returns true exactly when it has moved, and the rendered
    lines stay. *)
Theorem PageDown_offset v viewportHeight :
  - 2 ^ 63 <= scrollOffset v ->
  let v' := snd (PageDown v viewportHeight) in
  let m := maxOffsetFor v viewportHeight in
  scrollOffset v'
  = Z.max (scrollOffset v) (Z.min (scrollOffset v + Z.max 0 viewportHeight) m)
  /\ fst (PageDown v viewportHeight) = (0 <? viewportHeight) && (scrollOffset v <? m)
  /\ renderedLines v' = renderedLines v.
Proof.
  intros Hlow. unfold PageDown.
  destruct (pageLoop_ScrollDown viewportHeight (Z.to_nat viewportHeight) v false Hlow)
    as (Hso & Hok & Hl).
  cbn zeta. rewrite Hso, Hok, Hl. cbn [orb].
  replace (Z.of_nat (Z.to_nat viewportHeight)) with (Z.max 0 viewportHeight) by lia.
  repeat split. f_equal.
  destruct (Z.ltb_spec 0 viewportHeight), (Z.ltb_spec 0 (Z.max 0 viewportHeight));
    reflexivity || lia.
Qed.

(** X10.  [PageUp] moves the view up by the height of the viewport and
    stops at the top: a positive offset [o] becomes
    [max (o - viewportHeight) 0], an offset that is not positive stays.  It
    returns true exactly when it has moved, and the rendered lines stay. *)
Theorem PageUp_offset v viewportHeight :
  scrollOffset v < 2 ^ 63 ->
  let v' := snd (PageUp v viewportHeight) in
  scrollOffset v'
  = Z.min (scrollOffset v) (Z.max (scrollOffset v - Z.max 0 viewportHeight) 0)
  /\ fst (PageUp v viewportHeight) = (0 <? viewportHeight) && (0 <? scrollOffset v)
  /\ renderedLines v' = renderedLines v.
Proof.
  intros Hhigh. unfold PageUp.
  destruct (pageLoop_ScrollUp viewportHeight (Z.to_nat viewportHeight) v false Hhigh)
    as (Hso & Hok & Hl).
  cbn zeta. rewrite Hso, Hok, Hl. cbn [orb].
  replace (Z.of_nat (Z.to_nat viewportHeight)) with (Z.max 0 viewportHeight) by lia.
  repeat split. f_equal.
  destruct (Z.ltb_spec 0 viewportHeight), (Z.ltb_spec 0 (Z.max 0 viewportHeight));
    reflexivity || lia.
Qed.

(** X11.  The ends of the page are fixed points of the steps: after [Home]
    a step or a page up returns false and changes nothing, and after [End]
    so does a step or a page down. *)
Theorem steps_stop_at_the_ends v viewportHeight :
  ScrollUp (Home v viewportHeight) viewportHeight = (false, Home v viewportHeight)
  /\ PageUp (Home v viewportHeight) viewportHeight = (false, Home v viewportHeight)
  /\ ScrollDown (End_ v viewportHeight) viewportHeight = (false, End_ v viewportHeight)
  /\ PageDown (End_ v viewportHeight) viewportHeight = (false, End_ v viewportHeight).
Proof.
  assert (ScrollUp (Home v viewportHeight) viewportHeight = (false, Home v viewportHeight))
    as Hup.
  { unfold ScrollUp, Home.
    destruct (clearSelectionIfOffScreen_fields (setScrollOffset v 0) viewportHeight)
      as (-> & _). reflexivity. }
  assert (ScrollDown (End_ v viewportHeight) viewportHeight = (false, End_ v viewportHeight))
    as Hdown.
  { unfold ScrollDown, End_. set (m := maxOffsetFor v viewportHeight).
    destruct (clearSelectionIfOffScreen_fields (setScrollOffset v m) viewportHeight)
      as (Hso & Hl & _).
    rewrite Hso, (maxOffsetFor_lines _ _ viewportHeight Hl).
    change (maxOffsetFor (setScrollOffset v m) viewportHeight) with m.
    change (scrollOffset (setScrollOffset v m)) with m.
    rewrite Z.ltb_irrefl. reflexivity. }
  split; [exact Hup|]. split; [|split; [exact Hdown|]].
  - unfold PageUp. destruct (Z.to_nat viewportHeight); [reflexivity|].
    cbn [pageLoop]. rewrite Hup. reflexivity.
  - unfold PageDown. destruct (Z.to_nat viewportHeight); [reflexivity|].
    cbn [pageLoop]. rewrite Hdown. reflexivity.
Qed.

(** X12.  [VisibleLines] returns the window of the rendered lines that
    starts at the scroll offset and has the height of the viewport, cut
    where the lines end; a negative offset counts as 0 and is written back
    as 0 when there is something to show.  It does not panic while the
    offset plus the height is an [int]. *)
Theorem VisibleLines_window v viewportHeight :
  Z.max 0 (scrollOffset v) + viewportHeight < 2 ^ 63 ->
  VisibleLines v viewportHeight
  = Ok (take (Z.to_nat viewportHeight)
          (drop (Z.to_nat (scrollOffset v)) (renderedLines v)),
        if (0 <? viewportHeight) && (0 <? len (renderedLines v)) && (scrollOffset v <? 0)
        then setScrollOffset v 0 else v).
Proof.
  intros Hsum. unfold VisibleLines.
  pose proof (len_nonneg (renderedLines v)) as Hlen.
  destruct (Z.leb_spec viewportHeight 0) as [Hh|Hh].
  { cbn [orb]. replace (Z.to_nat viewportHeight) with 0%nat by lia.
    destruct (Z.ltb_spec 0 viewportHeight); [lia|]. reflexivity. }
  destruct (Z.ltb_spec 0 viewportHeight) as [_|]; [|lia].
  destruct (Z.eqb_spec (len (renderedLines v)) 0) as [Hl0|Hl0]; cbn [orb andb].
  { destruct (renderedLines v); [|discriminate]. cbn [length].
    rewrite drop_nil, take_nil. reflexivity. }
  destruct (Z.ltb_spec 0 (len (renderedLines v))) as [_|]; [|lia].
  set (v1 := if scrollOffset v <? 0 then setScrollOffset v 0 else v).
  assert (scrollOffset v1 = Z.max 0 (scrollOffset v)
          /\ renderedLines v1 = renderedLines v) as [Hso Hl].
  { subst v1. destruct (Z.ltb_spec (scrollOffset v) 0); cbn; split; reflexivity || lia. }
  assert (Z.to_nat (scrollOffset v) = Z.to_nat (scrollOffset v1)) as -> by lia.
  rewrite Hl.
  destruct (Z.geb_spec (scrollOffset v1) (len (renderedLines v))) as [Hge|Hlt].
  { rewrite drop_ge by (unfold GoInt.len in Hge; lia). rewrite take_nil. reflexivity. }
  unfold GoInt.add. rewrite wrap_small by lia.
  destruct (Z.gtb_spec (scrollOffset v1 + viewportHeight) (len (renderedLines v)))
    as [Hcut|Hfit].
  - destruct (Z.ltb_spec (len (renderedLines v)) (scrollOffset v1)); [lia|].
    f_equal. f_equal.
    rewrite !take_ge; [reflexivity | |]; rewrite length_drop; unfold GoInt.len in *; lia.
  - destruct (Z.ltb_spec (scrollOffset v1 + viewportHeight) (scrollOffset v1)); [lia|].
    f_equal. f_equal. f_equal. lia.
Qed.

(** ** The session: link traversal *)

(** X13.  When the selected element fits into the viewport, [ensureVisible]
    leaves it inside: the offset is not negative, not after the first line
    of the element and less than the height of the viewport before its
    last line. *)
Theorem ensureVisible_shows_selection v viewportHeight (e : NavElement) :
  0 <= selectedIndex v ->
  elements v !! Z.to_nat (selectedIndex v) = Some e ->
  0 <= StartLine e <= EndLine e ->
  EndLine e - StartLine e < viewportHeight ->
  EndLine e < 2 ^ 62 -> viewportHeight < 2 ^ 62 ->
  - 2 ^ 62 <= scrollOffset v < 2 ^ 62 ->
  let v' := ensureVisible v viewportHeight in
  0 <= scrollOffset v' <= StartLine e
  /\ EndLine e < scrollOffset v' + viewportHeight.
Proof.
  intros Hsel He Hlines Hfit Hend Hh Hso. unfold ensureVisible.
  apply lookup_lt_Some in He as Hlt.
  destruct (Z.ltb_spec (selectedIndex v) 0); [lia|].
  destruct (Z.geb_spec (selectedIndex v) (len (elements v))) as [Hge|_];
    [unfold GoInt.len in Hge; lia|].
  cbn [orb]. destruct (Z.leb_spec viewportHeight 0); [lia|].
  unfold elementAt. rewrite He.
  set (v1 := if StartLine e <? scrollOffset v then setScrollOffset v (StartLine e) else v).
  assert (scrollOffset v1 = Z.min (StartLine e) (scrollOffset v)) as Hso1.
  { subst v1. destruct (Z.ltb_spec (StartLine e) (scrollOffset v)); cbn; lia. }
  unfold GoInt.add, GoInt.sub.
  rewrite (wrap_small (scrollOffset v1 + viewportHeight)) by lia.
  rewrite (wrap_small (EndLine e - viewportHeight)) by lia.
  rewrite (wrap_small (EndLine e - viewportHeight + 1)) by lia.
  set (v2 := if EndLine e >=? scrollOffset v1 + viewportHeight
             then setScrollOffset v1 (EndLine e - viewportHeight + 1) else v1).
  assert (scrollOffset v2 <= StartLine e /\ EndLine e < scrollOffset v2 + viewportHeight)
    as [Hlo Hhi].
  { subst v2. destruct (Z.geb_spec (EndLine e) (scrollOffset v1 + viewportHeight));
      cbn; lia. }
  destruct (Z.ltb_spec (scrollOffset v2) 0); cbn; lia.
Qed.

Lemma findIndexFrom_first {A} (p : A -> bool) (l : list A) :
  forall i0,
    match findIndexFrom p l i0 with
    | Some i =>
        i0 <= i
        /\ (exists x, l !! Z.to_nat (i - i0) = Some x /\ p x = true)
        /\ (forall j x, (j < Z.to_nat (i - i0))%nat -> l !! j = Some x -> p x = false)
    | None => forall j x, l !! j = Some x -> p x = false
    end.
Proof.
  induction l as [|y l IH]; intros i0; cbn [findIndexFrom].
  - intros j x Hx. rewrite lookup_nil in Hx. discriminate.
  - destruct (p y) eqn:Hp.
    + split; [lia|]. rewrite Z.sub_diag. split; [exists y; auto|].
      intros j x Hj. cbn in Hj. lia.
    + specialize (IH (i0 + 1)). destruct (findIndexFrom p l (i0 + 1)) as [i|].
      * destruct IH as (Hle & (x & Hx & Hpx) & Hmin). split; [lia|].
        replace (Z.to_nat (i - i0)) with (S (Z.to_nat (i - (i0 + 1)))) by lia.
        split; [exists x; auto|].
        intros [|j] z Hj Hz; [cbn in Hz; congruence|].
        apply (Hmin j z); [lia | exact Hz].
      * intros [|j] z Hz; [cbn in Hz; congruence | apply (IH j z Hz)].
Qed.

Lemma findIndexFrom_ext {A} (p q : A -> bool) (l : list A) i0 :
  (forall x, p x = q x) -> findIndexFrom p l i0 = findIndexFrom q l i0.
Proof.
  intros Hpq. revert i0. induction l as [|y l IH]; intros i0; cbn; [reflexivity|].
  rewrite Hpq, IH. reflexivity.
Qed.

Lemma firstIndexFrom_first {A} (p : A -> bool) (l : list A) (start : Z) :
  0 <= start ->
  match firstIndexFrom p l start with
  | Some i =>
      start <= i
      /\ (exists x, l !! Z.to_nat i = Some x /\ p x = true)
      /\ (forall j x, start <= Z.of_nat j < i -> l !! j = Some x -> p x = false)
  | None => forall j x, start <= Z.of_nat j -> l !! j = Some x -> p x = false
  end.
Proof.
  intros Hstart. unfold firstIndexFrom.
  pose proof (findIndexFrom_first p (drop (Z.to_nat start) l) start) as Hfirst.
  destruct (findIndexFrom p (drop (Z.to_nat start) l) start) as [i|].
  - destruct Hfirst as (Hle & (x & Hx & Hpx) & Hmin). split; [exact Hle|]. split.
    + exists x. split; [|exact Hpx]. rewrite lookup_drop in Hx.
      replace (Z.to_nat i) with (Z.to_nat start + Z.to_nat (i - start))%nat by lia. exact Hx.
    + intros j y Hj Hy. apply (Hmin (j - Z.to_nat start)%nat y); [lia|].
      rewrite lookup_drop. replace (Z.to_nat start + (j - Z.to_nat start))%nat with j by lia.
      exact Hy.
  - intros j y Hj Hy. apply (Hfirst (j - Z.to_nat start)%nat y).
    rewrite lookup_drop. replace (Z.to_nat start + (j - Z.to_nat start))%nat with j by lia.
    exact Hy.
Qed.

Lemma lastIndexUpTo_last {A} (p : A -> bool) (l : list A) (n : nat) :
  match lastIndexUpTo p l n with
  | Some i =>
      0 <= i <= Z.of_nat n
      /\ (exists x, l !! Z.to_nat i = Some x /\ p x = true)
      /\ (forall j x, i < Z.of_nat j <= Z.of_nat n -> l !! j = Some x -> p x = false)
  | None => forall j x, (j <= n)%nat -> l !! j = Some x -> p x = false
  end.
Proof.
  induction n as [|n IH]; cbn [lastIndexUpTo].
  - destruct (l !! 0%nat) as [y|] eqn:Hy; [destruct (p y) eqn:Hp|].
    + split; [lia|]. split; [exists y; auto|]. intros j x Hj. lia.
    + intros j x Hj Hx. replace j with 0%nat in Hx by lia. congruence.
    + intros j x Hj Hx. replace j with 0%nat in Hx by lia. congruence.
  - destruct (l !! S n) as [y|] eqn:Hy; [destruct (p y) eqn:Hp|].
    + split; [lia|]. rewrite Nat2Z.id. split; [exists y; auto|]. intros j x Hj. lia.
    + destruct (lastIndexUpTo p l n) as [i|].
      * destruct IH as (Hi & Hex & Hmax). split; [lia|]. split; [exact Hex|].
        intros j x Hj Hx. destruct (decide (j = S n)) as [->|Hne]; [congruence|].
        apply (Hmax j x); [lia | exact Hx].
      * intros j x Hj Hx. destruct (decide (j = S n)) as [->|Hne]; [congruence|].
        apply (IH j x); [lia | exact Hx].
    + destruct (lastIndexUpTo p l n) as [i|].
      * destruct IH as (Hi & Hex & Hmax). split; [lia|]. split; [exact Hex|].
        intros j x Hj Hx. destruct (decide (j = S n)) as [->|Hne]; [congruence|].
        apply (Hmax j x); [lia | exact Hx].
      * intros j x Hj Hx. destruct (decide (j = S n)) as [->|Hne]; [congruence|].
        apply (IH j x); [lia | exact Hx].
Qed.

Lemma lastIndexUpTo_ext {A} (p q : A -> bool) (l : list A) n :
  (forall x, p x = q x) -> lastIndexUpTo p l n = lastIndexUpTo q l n.
Proof.
  intros Hpq. induction n as [|n IH]; cbn [lastIndexUpTo];
    destruct (l !! _) as [y|]; rewrite ?Hpq, ?IH; reflexivity.
Qed.

Lemma selectAndShow_fields v i h :
  selectedIndex (selectAndShow v i h) = i
  /\ elements (selectAndShow v i h) = elements v
  /\ history (selectAndShow v i h) = history v.
Proof.
  unfold selectAndShow.
  destruct (ensureVisible_fields (setSelectedIndex v i) h) as (-> & -> & ->). auto.
Qed.

(** X14.  [MoveToNextLink] selects the next link with a span: with a
    selection, the first one after the selected element; without one, the
    first one that starts inside the viewport.  It returns false and
    leaves the session as it is when there is none, and it does not panic
    when the selection is inside the table. *)
Theorem MoveToNextLink_selects_next v viewportHeight :
  len (elements v) < 2 ^ 63 ->
  selectedIndex v < len (elements v) ->
  let target e :=
    if selectedIndex v >=? 0 then isNavigableLink e
    else isNavigableLink e && (scrollOffset v <=? StartLine e)
         && (StartLine e <? scrollOffset v +i viewportHeight) in
  let first := if selectedIndex v >=? 0 then selectedIndex v + 1 else 0 in
  match MoveToNextLink v viewportHeight with
  | Ok (true, v') =>
      first <= selectedIndex v'
      /\ (exists e, elements v !! Z.to_nat (selectedIndex v') = Some e /\ target e = true)
      /\ (forall j e, first <= Z.of_nat j < selectedIndex v' ->
                      elements v !! j = Some e -> target e = false)
      /\ elements v' = elements v
  | Ok (false, v') =>
      v' = v
      /\ forall j e, first <= Z.of_nat j -> elements v !! j = Some e -> target e = false
  | Panic => False
  end.
Proof.
  intros Hlen Hsel target first. unfold MoveToNextLink.
  destruct (Z.eqb_spec (len (elements v)) 0) as [Hempty|_].
  { split; [reflexivity|]. intros j e _ He. apply lookup_lt_Some in He.
    unfold GoInt.len in Hempty. lia. }
  subst target first. cbv beta.
  destruct (Z.geb_spec (selectedIndex v) 0) as [Hpos|Hneg].
  - unfold GoInt.add. rewrite wrap_small by lia.
    destruct (Z.ltb_spec (selectedIndex v + 1) 0); [lia|].
    pose proof (firstIndexFrom_first isNavigableLink (elements v) (selectedIndex v + 1)
                  ltac:(lia)) as Hfirst.
    destruct (firstIndexFrom isNavigableLink (elements v) (selectedIndex v + 1)) as [i|].
    + destruct (selectAndShow_fields v i viewportHeight) as (-> & -> & _).
      destruct Hfirst as (Hle & Hex & Hmin). auto.
    + auto.
  - set (p := fun e => _ && _ && _ && _).
    set (q := fun e => isNavigableLink e && (scrollOffset v <=? StartLine e)
                       && (StartLine e <? scrollOffset v +i viewportHeight)).
    assert (forall e, p e = q e) as Hpq.
    { intros e. subst p q. cbv beta. unfold isNavigableLink.
      rewrite Z.geb_leb. destruct (bool_decide _), (_ <=? _), (_ <? _), (_ >? _); reflexivity. }
    rewrite (findIndexFrom_ext p q _ 0 Hpq).
    pose proof (findIndexFrom_first q (elements v) 0) as Hfirst.
    destruct (findIndexFrom q (elements v) 0) as [i|].
    + destruct (selectAndShow_fields v i viewportHeight) as (-> & -> & _).
      destruct Hfirst as (Hle & Hex & Hmin). rewrite Z.sub_0_r in *.
      split; [exact Hle|]. split; [exact Hex|]. split; [|reflexivity].
      intros j e Hj He. apply (Hmin j e); [lia | exact He].
    + split; [reflexivity|]. intros j e _ He. apply (Hfirst j e He).
Qed.

(** X15.  [MoveToPreviousLink] selects the previous link with a span: with
    a selection, the last one before the selected element; without one, the
    last one that starts inside the viewport.  It returns false and leaves
    the session as it is when there is none, and it does not panic when the
    selection is inside the table. *)
Theorem MoveToPreviousLink_selects_previous v viewportHeight :
  len (elements v) < 2 ^ 63 ->
  selectedIndex v < len (elements v) ->
  let target e :=
    if selectedIndex v >=? 0 then isNavigableLink e
    else isNavigableLink e && (scrollOffset v <=? StartLine e)
         && (StartLine e <=? scrollOffset v +i viewportHeight -i 1) in
  let last := if selectedIndex v >=? 0 then selectedIndex v - 1 else len (elements v) - 1 in
  match MoveToPreviousLink v viewportHeight with
  | Ok (true, v') =>
      0 <= selectedIndex v' <= last
      /\ (exists e, elements v !! Z.to_nat (selectedIndex v') = Some e /\ target e = true)
      /\ (forall j e, selectedIndex v' < Z.of_nat j <= last ->
                      elements v !! j = Some e -> target e = false)
      /\ elements v' = elements v
  | Ok (false, v') =>
      v' = v
      /\ forall j e, Z.of_nat j <= last -> elements v !! j = Some e -> target e = false
  | Panic => False
  end.
Proof.
  intros Hlen Hsel target last. unfold MoveToPreviousLink.
  destruct (Z.eqb_spec (len (elements v)) 0) as [Hempty|Hne].
  { split; [reflexivity|]. intros j e _ He. apply lookup_lt_Some in He.
    unfold GoInt.len in Hempty. lia. }
  subst target last. cbv beta.
  destruct (Z.geb_spec (selectedIndex v) 0) as [Hpos|Hneg].
  - unfold GoInt.sub. rewrite wrap_small by lia.
    destruct (Z.ltb_spec (selectedIndex v - 1) 0).
    { split; [reflexivity|]. intros j e Hj. lia. }
    destruct (Z.geb_spec (selectedIndex v - 1) (len (elements v))); [lia|].
    pose proof (lastIndexUpTo_last isNavigableLink (elements v)
                  (Z.to_nat (selectedIndex v - 1))) as Hlast.
    rewrite Z2Nat.id in Hlast by lia.
    destruct (lastIndexUpTo isNavigableLink (elements v) (Z.to_nat (selectedIndex v - 1)))
      as [i|].
    + destruct (selectAndShow_fields v i viewportHeight) as (-> & -> & _).
      destruct Hlast as (Hle & Hex & Hmax). auto.
    + split; [reflexivity|]. intros j e Hj He. apply (Hlast j e); [lia | exact He].
  - set (p := fun e => _ && _ && _ && _).
    set (q := fun e => isNavigableLink e && (scrollOffset v <=? StartLine e)
                       && (StartLine e <=? scrollOffset v +i viewportHeight -i 1)).
    assert (forall e, p e = q e) as Hpq.
    { intros e. subst p q. cbv beta. unfold isNavigableLink.
      rewrite Z.geb_leb. destruct (bool_decide _), (_ <=? _), (_ <=? _), (_ >? _); reflexivity. }
    rewrite (lastIndexUpTo_ext p q _ _ Hpq).
    pose proof (lastIndexUpTo_last q (elements v) (length (elements v) - 1)) as Hlast.
    assert (Z.of_nat (length (elements v) - 1) = len (elements v) - 1) as Hn
      by (unfold GoInt.len in *; lia).
    rewrite Hn in Hlast.
    destruct (lastIndexUpTo q (elements v) (length (elements v) - 1)) as [i|].
    + destruct (selectAndShow_fields v i viewportHeight) as (-> & -> & _).
      destruct Hlast as (Hle & Hex & Hmax). auto.
    + split; [reflexivity|]. intros j e Hj He.
      apply (Hlast j e); [unfold GoInt.len in *; lia | exact He].
Qed.

(** X16.  [MoveToFirst] selects the first link with a span and [MoveToLast]
    the last one, wherever the view is; each returns true exactly when the
    selection has changed. *)
Theorem MoveToFirst_MoveToLast_select v viewportHeight (i : nat) (e : NavElement) :
  elements v !! i = Some e ->
  isNavigableLink e = true ->
  ((forall j e', (j < i)%nat -> elements v !! j = Some e' -> isNavigableLink e' = false) ->
   selectedIndex (snd (MoveToFirst v viewportHeight)) = Z.of_nat i
   /\ fst (MoveToFirst v viewportHeight) = negb (selectedIndex v =? Z.of_nat i))
  /\ ((forall j e', (i < j)%nat -> elements v !! j = Some e' -> isNavigableLink e' = false) ->
      selectedIndex (snd (MoveToLast v viewportHeight)) = Z.of_nat i
      /\ fst (MoveToLast v viewportHeight) = negb (selectedIndex v =? Z.of_nat i)).
Proof.
  intros He Hnav. apply lookup_lt_Some in He as Hlt.
  assert ((len (elements v) =? 0) = false) as Hne
    by (apply Z.eqb_neq; unfold GoInt.len; lia).
  split; intros Hnone.
  - unfold MoveToFirst. rewrite Hne.
    pose proof (findIndexFrom_first isNavigableLink (elements v) 0) as Hfirst.
    destruct (findIndexFrom isNavigableLink (elements v) 0) as [i'|].
    2:{ rewrite (Hfirst i e He) in Hnav. discriminate. }
    destruct Hfirst as (Hle & (x & Hx & Hpx) & Hmin). rewrite Z.sub_0_r in *.
    assert (i' = Z.of_nat i) as ->.
    { destruct (Z.lt_trichotomy i' (Z.of_nat i)) as [Hl | [Heq | Hg]]; [|exact Heq|].
      - rewrite (Hnone (Z.to_nat i') x) in Hpx; [discriminate | lia | exact Hx].
      - rewrite (Hmin i e) in Hnav; [discriminate | lia | exact He]. }
    destruct (selectedIndex v =? Z.of_nat i) eqn:Hsame; cbn [negb fst snd].
    + apply Z.eqb_eq in Hsame. auto.
    + destruct (selectAndShow_fields v (Z.of_nat i) viewportHeight) as (-> & _). auto.
  - unfold MoveToLast. rewrite Hne.
    pose proof (lastIndexUpTo_last isNavigableLink (elements v) (length (elements v) - 1))
      as Hlast.
    destruct (lastIndexUpTo isNavigableLink (elements v) (length (elements v) - 1)) as [i'|].
    2:{ rewrite (Hlast i e) in Hnav; [discriminate | lia | exact He]. }
    destruct Hlast as (Hle & (x & Hx & Hpx) & Hmax).
    assert (i' = Z.of_nat i) as ->.
    { destruct (Z.lt_trichotomy i' (Z.of_nat i)) as [Hl | [Heq | Hg]]; [|exact Heq|].
      - rewrite (Hmax i e) in Hnav; [discriminate | lia | exact He].
      - rewrite (Hnone (Z.to_nat i') x) in Hpx; [discriminate | lia | exact Hx]. }
    destruct (selectedIndex v =? Z.of_nat i) eqn:Hsame; cbn [negb fst snd].
    + apply Z.eqb_eq in Hsame. auto.
    + destruct (selectAndShow_fields v (Z.of_nat i) viewportHeight) as (-> & _). auto.
Qed.

(** X17.  In the states the public operations reach, with an element table
    whose length is an [int], link traversal does not panic, and the state
    it leaves is reachable again. *)
Theorem traversal_never_panics v viewportHeight :
  reachable v ->
  len (elements v) < 2 ^ 63 ->
  (exists moved v', MoveToNextLink v viewportHeight = Ok (moved, v') /\ reachable v')
  /\ (exists moved v', MoveToPreviousLink v viewportHeight = Ok (moved, v') /\ reachable v').
Proof.
  intros Hreach Hlen.
  destruct (reachableBy_sessionOK false anyOp v) as (_ & Hsel & _);
    [discriminate | exact Hreach |].
  assert (- 1 <= selectedIndex v < len (elements v)) as Hrange.
  { destruct Hsel as [-> | (Hpos & e & He & _)].
    - pose proof (len_nonneg (elements v)). lia.
    - apply lookup_lt_Some in He. unfold GoInt.len. lia. }
  split.
  - assert (MoveToNextLink v viewportHeight <> Panic) as Hok.
    { unfold MoveToNextLink. destruct (_ =? 0); [discriminate|].
      destruct (Z.geb_spec (selectedIndex v) 0).
      - unfold GoInt.add. rewrite wrap_small by lia.
        destruct (Z.ltb_spec (selectedIndex v + 1) 0); [lia|].
        destruct (firstIndexFrom _ _ _); discriminate.
      - destruct (findIndexFrom _ _ _); discriminate. }
    destruct (MoveToNextLink v viewportHeight) as [[moved v']|] eqn:Hrun; [|contradiction].
    exists moved, v'. split; [reflexivity|].
    apply (reach_run anyOp v (OpMoveToNextLink viewportHeight) v' Hreach I).
    cbn. rewrite Hrun. reflexivity.
  - assert (MoveToPreviousLink v viewportHeight <> Panic) as Hok.
    { unfold MoveToPreviousLink. destruct (_ =? 0); [discriminate|].
      destruct (Z.geb_spec (selectedIndex v) 0).
      - unfold GoInt.sub. rewrite wrap_small by lia.
        destruct (Z.ltb_spec (selectedIndex v - 1) 0); [discriminate|].
        destruct (Z.geb_spec (selectedIndex v - 1) (len (elements v))); [lia|].
        destruct (lastIndexUpTo _ _ _); discriminate.
      - destruct (lastIndexUpTo _ _ _); discriminate. }
    destruct (MoveToPreviousLink v viewportHeight) as [[moved v']|] eqn:Hrun; [|contradiction].
    exists moved, v'. split; [reflexivity|].
    apply (reach_run anyOp v (OpMoveToPreviousLink viewportHeight) v' Hreach I).
    cbn. rewrite Hrun. reflexivity.
Qed.

(** ** The session: width *)

Lemma restoreScrollAndSelection_content v anchorElem selectedElem :
  let v' := restoreScrollAndSelection v anchorElem selectedElem in
  markdown v' = markdown v
  /\ currentSourceFile v' = currentSourceFile v
  /\ currentWidth v' = currentWidth v.
Proof.
  unfold restoreScrollAndSelection.
  set (v1 := match anchorElem ≫= _ with Some _ => _ | None => v end).
  assert (markdown v1 = markdown v /\ currentSourceFile v1 = currentSourceFile v
          /\ currentWidth v1 = currentWidth v) as (Hmd & Hsrc & Hw).
  { subst v1. destruct (anchorElem ≫= _) as [anchor|]; [|auto].
    destruct (List.find _ _); cbn; auto. }
  clearbody v1.
  destruct (match selectedElem with Some _ => _ | None => None end) as [i|]; cbn zeta.
  - cbn. auto.
  - destruct (_ && _); cbn; auto.
Qed.

(** X18.  When [SetWidth] returns false, the page is as before: markdown,
    source path, rendered lines, elements, selection, scroll offset,
    cleaner and history are unchanged.  The width is the one before, unless
    there is no markdown: then the new width is stored for the first
    load. *)
Theorem SetWidth_false_keeps_page v cols :
  fst (SetWidth v cols) = false ->
  let v' := snd (SetWidth v cols) in
  markdown v' = markdown v
  /\ currentSourceFile v' = currentSourceFile v
  /\ renderedLines v' = renderedLines v
  /\ elements v' = elements v
  /\ selectedIndex v' = selectedIndex v
  /\ scrollOffset v' = scrollOffset v
  /\ cleaner v' = cleaner v
  /\ history v' = history v
  /\ currentWidth v'
     = if bool_decide (markdown v = "") then Z.max 0 cols else currentWidth v.
Proof.
  unfold SetWidth.
  replace (if cols <? 0 then 0 else cols) with (Z.max 0 cols)
    by (destruct (Z.ltb_spec cols 0); lia).
  destruct (Z.eqb_spec (currentWidth v) (Z.max 0 cols)) as [Hsame|_]; cbn [fst snd].
  { intros _. destruct (bool_decide _); auto 10. }
  destruct (bool_decide (markdown v = "")); cbn [fst snd]; [intros _; cbn; auto 10|].
  unfold reRenderWithWidth.
  destruct (Render _ _) as [rendered [err|]]; cbn [fst snd]; [|discriminate].
  intros _. cbn. auto 10.
Qed.

Lemma restoreScrollAndSelection_frame v anchorElem selectedElem :
  let v' := restoreScrollAndSelection v anchorElem selectedElem in
  renderer v' = renderer v
  /\ cleaner v' = cleaner v
  /\ alwaysScrollToAnchor v' = alwaysScrollToAnchor v.
Proof.
  unfold restoreScrollAndSelection.
  set (v1 := match anchorElem ≫= _ with Some _ => _ | None => v end).
  assert (renderer v1 = renderer v /\ cleaner v1 = cleaner v
          /\ alwaysScrollToAnchor v1 = alwaysScrollToAnchor v) as (Hr & Hc & Ha).
  { subst v1. destruct (anchorElem ≫= _) as [anchor|]; [|auto].
    destruct (List.find _ _); cbn; auto. }
  clearbody v1.
  destruct (match selectedElem with Some _ => _ | None => None end) as [i|]; cbn zeta.
  - cbn. auto.
  - destruct (_ && _); cbn; auto.
Qed.

(** X19.  When [SetWidth] returns true, the stored width is the requested
    one (a negative one counts as 0) and differs from the old one, and the
    markdown is not empty and was rendered again without an error.  The
    renderer that rendered it, which is also the renderer the session keeps,
    depends on the request: for a positive width a glamour renderer is set
    to wrap at that width and a custom renderer is used as it is; for a
    width of 0 or less the renderer of the session is used as it was, so a
    glamour renderer still wraps at the width it had, not at the width
    stored.  The rendered lines and the cleaner are the ones of this
    rendering (the identity for a nil cleaner), markdown, source path,
    history and the scroll setting are unchanged, and the elements are the
    same in all but their positions.  When no selection is restored and
    there are lines, the scroll offset is not beyond the last line. *)
Theorem SetWidth_true_rerenders v cols :
  fst (SetWidth v cols) = true ->
  let v' := snd (SetWidth v cols) in
  let used :=
    if 0 <? cols then
      match renderer v with
      | ANSIStyleRenderer _ => ANSIStyleRenderer cols
      | customRenderer render => customRenderer render
      end
    else renderer v in
  exists rendered,
    Render used (markdown v) = (rendered, None)
    /\ renderer v' = used
    /\ (cols <= 0 -> renderer v' = renderer v)
    /\ renderedLines v' = RenderResult.Lines rendered
    /\ cleaner v' = Some (default (fun s => s) (RenderResult.Cleaner rendered))
    /\ currentWidth v' = Z.max 0 cols
    /\ currentWidth v <> Z.max 0 cols
    /\ markdown v <> ""
    /\ markdown v' = markdown v
    /\ currentSourceFile v' = currentSourceFile v
    /\ history v' = history v
    /\ alwaysScrollToAnchor v' = alwaysScrollToAnchor v
    /\ identity <$> elements v' = identity <$> elements v
    /\ (selectedIndex v' = -1 ->
        0 < len (RenderResult.Lines rendered) < 2 ^ 63 ->
        scrollOffset v' <= len (RenderResult.Lines rendered) - 1).
Proof.
  cbv zeta. unfold SetWidth.
  replace (if cols <? 0 then 0 else cols) with (Z.max 0 cols)
    by (destruct (Z.ltb_spec cols 0); lia).
  destruct (Z.eqb_spec (currentWidth v) (Z.max 0 cols)) as [|Hwidth]; [discriminate|].
  destruct (decide (markdown v = "")) as [|Hmd];
    [rewrite bool_decide_eq_true_2 by assumption; discriminate|].
  rewrite bool_decide_eq_false_2 by exact Hmd.
  set (anchorElem := if _ && _ then _ else None). clearbody anchorElem.
  unfold reRenderWithWidth.
  change (rendererForWidth (setCurrentWidth v (Z.max 0 cols)) (Z.max 0 cols))
    with (rendererForWidth v (Z.max 0 cols)).
  change (markdown (assignRenderer (setCurrentWidth v (Z.max 0 cols)) _)) with (markdown v).
  assert (rendererForWidth v (Z.max 0 cols)
          = (if 0 <? cols then
               match renderer v with
               | ANSIStyleRenderer _ => ANSIStyleRenderer cols
               | customRenderer render => customRenderer render
               end
             else renderer v)) as Hused.
  { unfold rendererForWidth.
    destruct (Z.ltb_spec 0 cols) as [Hpos|Hneg].
    - replace (Z.max 0 cols) with cols by lia.
      destruct (Z.gtb_spec cols 0); [|lia]. destruct (renderer v); reflexivity.
    - replace (Z.max 0 cols) with 0 by lia. reflexivity. }
  rewrite Hused. clear Hused.
  set (used := if 0 <? cols then _ else renderer v).
  assert (cols <= 0 -> used = renderer v) as Hkept.
  { intros Hneg. subst used. destruct (Z.ltb_spec 0 cols); [lia | reflexivity]. }
  clearbody used.
  destruct (Render _ _) as [rendered [err|]]; cbn [fst snd]; [discriminate|].
  intros _. exists rendered. split; [reflexivity|].
  set (w := setCleaner _ _).
  destruct (correlatePositions_fields w) as (Hh & _ & _ & Hmd' & Hl & Hw).
  destruct (correlatePositions_source w) as (Hsrc & Hcl & Hr & Ha & _).
  pose proof (correlatePositions_identity w) as Hid.
  destruct (restoreScrollAndSelection_step (correlatePositions w) anchorElem (Selected v))
    as (Hh2 & He2 & Hl2 & _).
  destruct (restoreScrollAndSelection_content (correlatePositions w) anchorElem (Selected v))
    as (Hmd2 & Hsrc2 & Hw2).
  destruct (restoreScrollAndSelection_frame (correlatePositions w) anchorElem (Selected v))
    as (Hr2 & Hcl2 & Ha2).
  pose proof (restoreScrollAndSelection_clamps (correlatePositions w) anchorElem (Selected v))
    as Hclamp.
  cbn zeta in *.
  rewrite Hl2, Hw2, Hmd2, Hsrc2, Hh2, He2, Hr2, Hcl2, Ha2, Hl, Hw, Hmd', Hsrc, Hh, Hid,
    Hcl, Hr, Ha.
  rewrite Hl2, Hl in Hclamp.
  split; [reflexivity|]. split; [exact Hkept|].
  repeat split; try assumption.
Qed.

(** ** The session: anchors *)


(** The element the walk appends at the place of a node. *)
Lemma parseNodes_lookup nodes src (k : nat) (n : Node) :
  nodes !! k = Some n ->
  exists slug,
    parseNodes nodes src !! k = Some (elementOfNode src slug n)
    /\ forall text level,
         n = Heading text level ->
         slug = numberedSlug (generateSlug text)
                  (headingsWithBase (generateSlug text) (take k nodes)).
Proof.
  intros Hk. unfold parseNodes.
  assert (foldl (visit src) ([], ∅) nodes
          = foldl (visit src) (visit src (foldl (visit src) ([], ∅) (take k nodes)) n)
              (drop (S k) nodes)) as ->.
  { rewrite <- (take_drop_middle nodes k _ Hk) at 1. rewrite foldl_app. reflexivity. }
  destruct (visit_all_elements src (take k nodes) ([], ∅)) as (pre & Hpre & Hlen).
  pose proof (fun s => visit_all_counts src (take k nodes) ([], ∅) s) as Hcount.
  destruct (foldl (visit src) ([], ∅) (take k nodes)) as [elems counts].
  cbn [fst snd] in *. subst elems.
  rewrite length_take_le in Hlen by (apply lookup_lt_Some in Hk; lia).
  destruct (visit_all_elements src (drop (S k) nodes) (visit src (pre, counts) n))
    as (post & Hpost & _).
  change ([] ++ pre) with pre. rewrite Hpost.
  destruct n as [text level | text dest | url]; cbn [visit fst].
  - exists (numberedSlug (generateSlug text) (default 0 (counts !! generateSlug text))).
    split.
    + rewrite lookup_app_l by (rewrite length_app; cbn; lia).
      rewrite lookup_app_r by lia.
      replace (k - length pre)%nat with 0%nat by lia. reflexivity.
    + intros text' level' [= <- <-]. rewrite Hcount, lookup_empty. reflexivity.
  - exists "". split; [|discriminate].
    rewrite lookup_app_l by (rewrite length_app; cbn; lia).
    rewrite lookup_app_r by lia.
    replace (k - length pre)%nat with 0%nat by lia. reflexivity.
  - exists "". split; [|discriminate].
    rewrite lookup_app_l by (rewrite length_app; cbn; lia).
    rewrite lookup_app_r by lia.
    replace (k - length pre)%nat with 0%nat by lia. reflexivity.
Qed.

(** X21.  The parser gives one element for each heading, link and
    autolink the walk visits, in the order of the walk: a header with the
    text, the level and the numbered slug of the heading, a link with its
    text and destination, an autolink with its URL as the text; each
    carries the source path and no position yet. *)
Theorem parseMarkdownWithSource_follows_walk source sourceFilePath :
  length (parseMarkdownWithSource source sourceFilePath) = length (walk source)
  /\ forall (k : nat) (n : Node),
       walk source !! k = Some n ->
       exists slug,
         parseMarkdownWithSource source sourceFilePath !! k
         = Some (elementOfNode sourceFilePath slug n)
         /\ forall text level,
              n = Heading text level ->
              slug = numberedSlug (generateSlug text)
                       (headingsWithBase (generateSlug text) (take k (walk source))).
Proof.
  split.
  - unfold parseMarkdownWithSource, parseNodes.
    destruct (visit_all_elements sourceFilePath (walk source) ([], ∅)) as (rest & -> & Hlen).
    exact Hlen.
  - intros k n Hk. apply parseNodes_lookup. exact Hk.
Qed.

Lemma find_identity (p : NavElement -> bool) (l l' : list NavElement) :
  (forall e e', identity e = identity e' -> p e = p e') ->
  identity <$> l = identity <$> l' ->
  (exists x, x ∈ l' /\ p x = true) ->
  exists y, List.find p l = Some y /\ p y = true.
Proof.
  intros Hp Hid (x & Hx & Hpx).
  apply list_elem_of_lookup in Hx as [k Hk].
  assert (exists y, l !! k = Some y /\ identity y = identity x) as (y & Hy & Hyx).
  { pose proof (f_equal (fun m => m !! k) Hid) as Hlk. cbn in Hlk.
    rewrite !list_lookup_fmap, Hk in Hlk. cbn in Hlk.
    destruct (l !! k) as [y|]; [|discriminate]. exists y. split; [reflexivity|].
    cbn in Hlk. congruence. }
  destruct (List.find p l) as [z|] eqn:Hfind.
  - exists z. split; [reflexivity|]. apply find_some in Hfind. tauto.
  - exfalso. pose proof (find_none p l Hfind y) as Hnone.
    rewrite (Hp y x Hyx), Hpx in Hnone. enough (false = true) by discriminate.
    symmetry. apply Hnone. apply list_elem_of_In, list_elem_of_lookup. exists k. exact Hy.
Qed.

(** X22.  Every heading of a page that was loaded is an anchor: with the
    slug the parser gave it, [FindHeaderBySlug] finds a header with that
    slug and [ScrollToAnchor] returns true. *)
Theorem loaded_headings_are_anchors v content sourceFilePath pushToHistory rendered
    (k : nat) text level :
  Render (rendererForWidth v (currentWidth v)) content = (rendered, None) ->
  walk content !! k = Some (Heading text level) ->
  let v' := snd (SetMarkdownWithSource v content sourceFilePath pushToHistory) in
  let slug := numberedSlug (generateSlug text)
                (headingsWithBase (generateSlug text) (take k (walk content))) in
  (exists header, FindHeaderBySlug v' slug = Some header
                  /\ Type_ header = NavElementHeader /\ Slug header = slug)
  /\ forall viewportHeight push, fst (ScrollToAnchor v' slug viewportHeight push) = true.
Proof.
  intros Hrender Hk v' slug.
  destruct (load_history_elements v content sourceFilePath pushToHistory rendered Hrender)
    as (Hid & _).
  fold v' in Hid.
  destruct (parseNodes_lookup (walk content) sourceFilePath k _ Hk) as (slug' & Hel & Hslug).
  specialize (Hslug text level eq_refl). fold slug in Hslug. subst slug'.
  destruct (find_identity
              (fun e => bool_decide (Type_ e = NavElementHeader) && bool_decide (Slug e = slug))
              (elements v') (parseMarkdownWithSource content sourceFilePath))
    as (header & Hfind & Hheader).
  - intros e e' He. unfold identity in He. injection He as -> _ _ _ -> _. reflexivity.
  - exact Hid.
  - exists (elementOfNode sourceFilePath slug (Heading text level)). split.
    + apply list_elem_of_lookup. exists k. exact Hel.
    + cbn. rewrite !bool_decide_eq_true_2 by reflexivity. reflexivity.
  - apply andb_true_iff in Hheader as [Hty Hsl].
    apply bool_decide_eq_true in Hty, Hsl.
    split; [exists header; auto|].
    intros viewportHeight push. unfold ScrollToAnchor.
    change (FindHeaderBySlug v' slug) with
      (List.find (fun e => bool_decide (Type_ e = NavElementHeader)
                           && bool_decide (Slug e = slug)) (elements v')).
    rewrite Hfind. destruct (_ && _ && _); reflexivity.
Qed.

(** ** The session: the element nearest to a line *)

Lemma nearLoop_nearest lineIdx (elems : list NavElement) :
  forall i b d,
    0 <= i -> b = -1 \/ 0 <= b < i ->
    let r := nearLoop lineIdx elems i b d in
    (r = b /\ (b <> -1 \/ elems = [])
     /\ (b <> -1 -> forall j e, elems !! j = Some e -> d <= lineDistance lineIdx e))
    \/ (exists (k : nat) e,
          r = i + Z.of_nat k /\ elems !! k = Some e
          /\ (b = -1 \/ lineDistance lineIdx e < d)
          /\ (forall j e', elems !! j = Some e' ->
                           lineDistance lineIdx e <= lineDistance lineIdx e')
          /\ (forall j e', (j < k)%nat -> elems !! j = Some e' ->
                           lineDistance lineIdx e < lineDistance lineIdx e')).
Proof.
  induction elems as [|e elems IH]; intros i b d Hi Hb; cbn [nearLoop].
  - left. split; [reflexivity|]. split; [auto|]. intros _ j e He.
    rewrite lookup_nil in He. discriminate.
  - fold (lineDistance lineIdx e).
    destruct ((b =? -1) || (lineDistance lineIdx e <? d)) eqn:Hbetter.
    + assert (b = -1 \/ lineDistance lineIdx e < d) as Hwhy.
      { apply orb_true_iff in Hbetter as [Hb1 | Hlt]; [left; lia | right; lia]. }
      destruct (IH (i + 1) i (lineDistance lineIdx e) ltac:(lia) ltac:(lia))
        as [(Hr & _ & Hall) | (k & e' & Hr & He' & Hlt & Hmin & Hstrict)].
      * right. exists 0%nat, e. split; [cbn zeta in Hr; lia|]. split; [reflexivity|].
        split; [exact Hwhy|]. split.
        -- intros [|j] e' He'; [cbn in He'; injection He' as <-; lia|].
           apply (Hall ltac:(lia) j e' He').
        -- intros j e' Hj. lia.
      * right. exists (S k), e'. split; [cbn zeta in Hr; lia|]. split; [exact He'|].
        assert (lineDistance lineIdx e' < lineDistance lineIdx e) as Hlt'
          by (destruct Hlt; [lia | assumption]).
        split; [destruct Hwhy; [left; assumption | right; lia]|]. split.
        -- intros [|j] e'' He''; [cbn in He''; injection He'' as <-; lia|].
           apply (Hmin j e'' He'').
        -- intros [|j] e'' Hj He''; [cbn in He''; injection He'' as <-; lia|].
           apply (Hstrict j e''); [lia | exact He''].
    + apply orb_false_iff in Hbetter as [Hb1 Hge].
      assert (b <> -1) as Hbne by lia. assert (d <= lineDistance lineIdx e) as Hde by lia.
      destruct (IH (i + 1) b d ltac:(lia) ltac:(lia))
        as [(Hr & _ & Hall) | (k & e' & Hr & He' & Hlt & Hmin & Hstrict)].
      * left. split; [exact Hr|]. split; [left; exact Hbne|].
        intros _ [|j] e' He'; [cbn in He'; injection He' as <-; exact Hde|].
        apply (Hall Hbne j e' He').
      * right. exists (S k), e'. split; [cbn zeta in Hr; lia|]. split; [exact He'|].
        assert (lineDistance lineIdx e' < d) as Hlt' by (destruct Hlt; [lia | assumption]).
        split; [right; exact Hlt'|]. split.
        -- intros [|j] e'' He''; [cbn in He''; injection He'' as <-; lia|].
           apply (Hmin j e'' He'').
        -- intros [|j] e'' Hj He''; [cbn in He''; injection He'' as <-; lia|].
           apply (Hstrict j e''); [lia | exact He''].
Qed.

(** X23.  [findElementNearLine] returns the element whose first line is
    nearest to the line asked for, and of several at the same distance the
    first one; it returns none only when there are no elements. *)
Theorem findElementNearLine_nearest v lineIdx :
  elements v <> [] ->
  exists (i : nat) e,
    findElementNearLine v lineIdx = Some i
    /\ elements v !! i = Some e
    /\ (forall j e', elements v !! j = Some e' ->
                     lineDistance lineIdx e <= lineDistance lineIdx e')
    /\ (forall j e', (j < i)%nat -> elements v !! j = Some e' ->
                     lineDistance lineIdx e < lineDistance lineIdx e').
Proof.
  intros Hne. unfold findElementNearLine.
  destruct (Z.eqb_spec (len (elements v)) 0) as [Hempty|_].
  { destruct (elements v); [contradiction | discriminate]. }
  destruct (nearLoop_nearest lineIdx (elements v) 0 (-1) (-1) ltac:(lia) ltac:(lia))
    as [(_ & [Hb | Hnil] & _) | (k & e & Hr & He & _ & Hmin & Hstrict)];
    [contradiction | contradiction |].
  cbn zeta in Hr. rewrite Hr.
  destruct (Z.geb_spec (0 + Z.of_nat k) 0); [|lia].
  exists k, e. replace (Z.to_nat (0 + Z.of_nat k)) with k by lia. auto.
Qed.

End MoreSessionFacts.

(** ** The path resolver: what is returned *)

Section MorePathFacts.
Import GoStrings PathResolver.
Variable fileExists : string -> bool.

Lemma trySearchRoots_first linkURL searchRoots :
  match trySearchRoots fileExists linkURL searchRoots with
  | (path, None) =>
      fileExists path = true
      /\ exists (i : nat) root,
           searchRoots !! i = Some root /\ root <> ""
           /\ path = Clean (Join2 root linkURL)
           /\ forall j root', (j < i)%nat -> searchRoots !! j = Some root' ->
                 root' = "" \/ fileExists (Clean (Join2 root' linkURL)) = false
  | (path, Some err) =>
      path = "" /\ err = ErrFileNotFound
      /\ forall root, root ∈ searchRoots -> root <> "" ->
            fileExists (Clean (Join2 root linkURL)) = false
  end.
Proof.
  induction searchRoots as [|root rest IH]; cbn [trySearchRoots].
  - split; [reflexivity|]. split; [reflexivity|]. intros root Hin. set_unfold in Hin.
    contradiction.
  - destruct (decide (root = "")) as [Hempty|Hne].
    + rewrite bool_decide_eq_true_2 by exact Hempty.
      destruct (trySearchRoots fileExists linkURL rest) as [path [err|]].
      * destruct IH as (Hp & He & Hall). split; [exact Hp|]. split; [exact He|].
        intros root' Hin Hne'. set_unfold in Hin. destruct Hin as [-> | Hin];
          [contradiction | apply Hall; assumption].
      * destruct IH as (Hex & i & root' & Hi & Hne' & Hpath & Hbefore).
        split; [exact Hex|]. exists (S i), root'. split; [exact Hi|].
        split; [exact Hne'|]. split; [exact Hpath|].
        intros [|j] r Hj Hr; [cbn in Hr; injection Hr as <-; left; exact Hempty|].
        apply (Hbefore j r); [lia | exact Hr].
    + rewrite bool_decide_eq_false_2 by exact Hne.
      destruct (fileExists (Clean (Join2 root linkURL))) eqn:Hexists.
      * split; [exact Hexists|]. exists 0%nat, root. split; [reflexivity|].
        split; [exact Hne|]. split; [reflexivity|]. intros j r Hj. lia.
      * destruct (trySearchRoots fileExists linkURL rest) as [path [err|]].
        -- destruct IH as (Hp & He & Hall). split; [exact Hp|]. split; [exact He|].
           intros root' Hin Hne'. set_unfold in Hin. destruct Hin as [-> | Hin];
             [exact Hexists | apply Hall; assumption].
        -- destruct IH as (Hex & i & root' & Hi & Hne' & Hpath & Hbefore).
           split; [exact Hex|]. exists (S i), root'. split; [exact Hi|].
           split; [exact Hne'|]. split; [exact Hpath|].
           intros [|j] r Hj Hr; [cbn in Hr; injection Hr as <-; right; exact Hexists|].
           apply (Hbefore j r); [lia | exact Hr].
Qed.

(** X24.  For a link that is not empty and not an HTTP URL,
    [ResolveMarkdownPath] returns a path only of a file that exists and
    only for a link the traversal check lets through: the link itself when
    it is absolute, else the cleaned join of the directory of the source
    file and the link, else that of the first search root under which the
    file exists.  With an error the path is empty, and [ErrFileNotFound]
    for a relative link means that no candidate exists. *)
Theorem ResolveMarkdownPath_returns_existing linkURL sourceFilePath searchRoots :
  linkURL <> "" ->
  isHTTPURL linkURL = false ->
  let fromSource := Clean (Join2 (Dir sourceFilePath) linkURL) in
  match ResolveMarkdownPath fileExists linkURL sourceFilePath searchRoots with
  | (path, None) =>
      fileExists path = true
      /\ containsDirectoryTraversal linkURL = false
      /\ (if IsAbs linkURL then path = linkURL
          else (sourceFilePath <> "" /\ path = fromSource)
               \/ ((sourceFilePath = "" \/ fileExists fromSource = false)
                   /\ exists (i : nat) root,
                        searchRoots !! i = Some root /\ root <> ""
                        /\ path = Clean (Join2 root linkURL)
                        /\ forall j root', (j < i)%nat -> searchRoots !! j = Some root' ->
                              root' = "" \/ fileExists (Clean (Join2 root' linkURL)) = false))
  | (path, Some err) =>
      path = ""
      /\ (err = ErrDirectoryTraversal \/ err = ErrFileNotFound)
      /\ (err = ErrFileNotFound ->
          containsDirectoryTraversal linkURL = false
          /\ if IsAbs linkURL then fileExists linkURL = false
             else (sourceFilePath = "" \/ fileExists fromSource = false)
                  /\ forall root, root ∈ searchRoots -> root <> "" ->
                        fileExists (Clean (Join2 root linkURL)) = false)
  end.
Proof.
  intros Hne Hhttp fromSource. unfold ResolveMarkdownPath.
  rewrite bool_decide_eq_false_2 by exact Hne. rewrite Hhttp.
  destruct (containsDirectoryTraversal linkURL) eqn:Htrav.
  { split; [reflexivity|]. split; [left; reflexivity|]. discriminate. }
  destruct (IsAbs linkURL) eqn:Habs.
  { destruct (fileExists linkURL) eqn:Hexists.
    - auto.
    - split; [reflexivity|]. split; [right; reflexivity|]. intros _. auto. }
  fold fromSource.
  destruct (decide (sourceFilePath = "")) as [Hsrc|Hsrc].
  - rewrite bool_decide_eq_true_2 by exact Hsrc. cbn [negb andb].
    pose proof (trySearchRoots_first linkURL searchRoots) as Hroots.
    destruct (trySearchRoots fileExists linkURL searchRoots) as [path [err|]].
    + destruct Hroots as (Hp & He & Hall). split; [exact Hp|].
      split; [right; exact He|]. intros _. auto.
    + destruct Hroots as (Hex & Hroot). split; [exact Hex|].
      split; [reflexivity|]. right. auto.
  - rewrite bool_decide_eq_false_2 by exact Hsrc. cbn [negb andb].
    destruct (fileExists fromSource) eqn:Hfrom.
    + auto.
    + pose proof (trySearchRoots_first linkURL searchRoots) as Hroots.
      destruct (trySearchRoots fileExists linkURL searchRoots) as [path [err|]].
      * destruct Hroots as (Hp & He & Hall). split; [exact Hp|].
        split; [right; exact He|]. intros _. auto.
      * destruct Hroots as (Hex & Hroot). split; [exact Hex|].
        split; [reflexivity|]. right. auto.
Qed.

End MorePathFacts.

(** ** types.go: links to anchors *)

(** X25.  An element is an internal link exactly when it is a link whose
    URL begins with [#]; its anchor target is then the URL without the
    [#], and the anchor target of every other element is empty. *)
Theorem AnchorTarget_of_internal_link (e : NavElement) :
  (IsInternalLink e = true
   <-> Type_ e = NavElementURL /\ exists slug, URL e = "#" +:+ slug)
  /\ (IsInternalLink e = true -> URL e = "#" +:+ AnchorTarget e)
  /\ (IsInternalLink e = false -> AnchorTarget e = "").
Proof.
  unfold AnchorTarget, IsInternalLink.
  destruct (decide (Type_ e = NavElementURL)) as [Hty|Hty].
  - rewrite bool_decide_eq_true_2 by exact Hty. cbn [negb].
    destruct (URL e) as [|c rest].
    + cbn. split; [|split; [discriminate | reflexivity]].
      split; [discriminate|]. intros (_ & slug & Hslug). discriminate.
    + assert ((GoStrings.strlen (String c rest) >? 0) = true) as ->
        by (apply Z.gtb_lt; unfold GoStrings.strlen; cbn [String.length]; lia).
      cbn [andb]. destruct (Ascii.eqb_spec c "#") as [->|Hc]; cbn [negb].
      * split; [|split; [reflexivity | discriminate]].
        split; [intros _; split; [exact Hty | exists rest; reflexivity] | reflexivity].
      * split; [|split; [discriminate | reflexivity]].
        split; [discriminate|]. intros (_ & slug & [= Hc' _]). contradiction.
  - rewrite bool_decide_eq_false_2 by exact Hty. cbn [negb].
    split; [|split; [discriminate | reflexivity]].
    split; [discriminate|]. intros (Hty' & _). contradiction.
Qed.

(** ** The further properties on concrete runs *)

Section MoreRuns.
Import Scenarios MoreScenarios.


(** [GoForward] on the new session and after a [GoBack]. *)
Lemma GoForward_spec_witness :
  GoForward pagesSession = (false, pagesSession)
  /\ fst (GoForward wentBack) = true
  /\ markdown (snd (GoForward wentBack)) = "# Other"
  /\ last (History.backStack (history (snd (GoForward wentBack))))
     = Some (saveCurrentState wentBack).
Proof.
  destruct (GoForward_spec pagesSession) as [Hempty _].
  destruct (GoForward_spec wentBack) as [_ Hpop].
  split; [apply Hempty; reflexivity|].
  pose proof (Hpop [] (saveCurrentState twoPages)) as Hpopped.
  cbv zeta in Hpopped.
  destruct Hpopped as (Hret & _ & _ & _ & Hlast & Hmd & _).
  - vm_compute. reflexivity.
  - split; [exact Hret|]. split; [rewrite Hmd; reflexivity | exact Hlast].
Defined.

(** Back and forward again from the second page. *)
Lemma GoBack_then_GoForward_identity_witness :
  markdown (snd (GoForward (snd (GoBack twoPages)))) = markdown twoPages
  /\ scrollOffset (snd (GoForward (snd (GoBack twoPages)))) = scrollOffset twoPages.
Proof.
  destruct (GoBack_then_GoForward_identity twoPages)
    as (_ & _ & Hmd & _ & _ & _ & _ & Hso & _).
  - apply after_reachable. repeat constructor.
  - vm_compute. discriminate.
  - split; [exact Hmd | exact Hso].
Defined.

(** The history of the session with two pages. *)
Lemma reachable_history_bounded_witness :
  History.BackStackSize (history twoPages) + History.ForwardStackSize (history twoPages)
  <= History.maxSize (history twoPages).
Proof.
  destruct (reachable_history_bounded twoPages) as [_ Hsize].
  - apply after_reachable. repeat constructor.
  - exact Hsize.
Defined.

(** The second page is loaded over the first, and left again. *)
Lemma GoBack_after_load_witness :
  markdown (snd (GoBack (snd (SetMarkdownWithSource firstPage "# Other" "p2.md" true))))
  = "## B".
Proof.
  destruct (GoBack_after_load firstPage "# Other" "p2.md" (RenderResult.mk tenLines (Some (fun s => s))))
    as (_ & Hmd & _).
  - vm_compute. discriminate.
  - reflexivity.
  - rewrite Hmd. reflexivity.
Defined.

(** Of the two links found at line 0, column 0, the second has the longer
    match and gets the position. *)
Lemma correlatePositions_longest_match_witness :
  elements (correlatePositions overlapping) !! 1%nat
  = Some (withPosition (mkNavElement NavElementURL "ab" "ab.md" 0 "" "" 0 0 0 0) 0 0 2).
Proof.
  pose proof (correlatePositions_longest_match overlapping 1
                (mkNavElement NavElementURL "ab" "ab.md" 0 "" "" 0 0 0 0)) as Hlongest.
  cbv zeta in Hlongest.
  assert (fst (correlateAll (resetMarkerCorrelator (correlator overlapping))
                 (elements overlapping) (renderedLines overlapping) (cleaner overlapping))
          = [Some (0, 0, 1); Some (0, 0, 2)]) as Hcs by (vm_compute; reflexivity).
  rewrite Hcs in Hlongest. cbn [lookup list_lookup] in Hlongest.
  destruct Hlongest as [Hwins _].
  - vm_compute. discriminate.
  - vm_compute. reflexivity.
  - apply Hwins. intros [|[|j]] c Hj Hk; cbn in Hj; try discriminate;
      injection Hj as <-; vm_compute; discriminate.
Defined.

(** A page down from the top of ten lines, three lines high. *)
Lemma PageDown_offset_witness : scrollOffset (snd (PageDown firstPage 3)) = 3.
Proof.
  destruct (PageDown_offset firstPage 3) as (Hso & _).
  - vm_compute. discriminate.
  - rewrite Hso. reflexivity.
Defined.

(** A page up from the end of ten lines, three lines high. *)
Lemma PageUp_offset_witness : scrollOffset (snd (PageUp atEnd 3)) = 4.
Proof.
  destruct (PageUp_offset atEnd 3) as (Hso & _).
  - vm_compute. reflexivity.
  - rewrite Hso. reflexivity.
Defined.

(** The last three of ten lines. *)
Lemma VisibleLines_window_witness :
  VisibleLines atEnd 3 = Ok (["7"; "8"; "9"], atEnd).
Proof.
  rewrite (VisibleLines_window atEnd 3); [reflexivity|].
  vm_compute. reflexivity.
Defined.

(** The selected link is on line 0 and the view starts at line 2. *)
Lemma ensureVisible_shows_selection_witness :
  scrollOffset (ensureVisible offScreen 2) = 0.
Proof.
  assert (0 <= scrollOffset (ensureVisible offScreen 2) <= 0) as Hso; [|lia].
  apply (ensureVisible_shows_selection offScreen 2
           (mkNavElement NavElementURL "X" "#target" 0 "" "" 0 0 0 1)).
  - vm_compute. discriminate.
  - reflexivity.
  - vm_compute. split; discriminate.
  - vm_compute. reflexivity.
  - vm_compute. reflexivity.
  - vm_compute. reflexivity.
  - vm_compute. split; [discriminate | reflexivity].
Defined.

(** The first link of the anchor page, and no link after it. *)
Lemma MoveToNextLink_selects_next_witness :
  match MoveToNextLink anchored 3 with
  | Ok (true, v') => elements v' = elements anchored
  | Ok (false, v') => v' = anchored
  | Panic => False
  end.
Proof.
  pose proof (MoveToNextLink_selects_next anchored 3) as Hnext.
  cbv zeta in Hnext.
  destruct (MoveToNextLink anchored 3) as [[[] v']|].
  - apply Hnext; vm_compute; reflexivity.
  - apply Hnext; vm_compute; reflexivity.
  - apply Hnext; vm_compute; reflexivity.
Defined.

Lemma MoveToPreviousLink_selects_previous_witness :
  match MoveToPreviousLink anchored 3 with
  | Ok (true, v') => elements v' = elements anchored
  | Ok (false, v') => v' = anchored
  | Panic => False
  end.
Proof.
  pose proof (MoveToPreviousLink_selects_previous anchored 3) as Hprev.
  cbv zeta in Hprev.
  destruct (MoveToPreviousLink anchored 3) as [[[] v']|].
  - apply Hprev; vm_compute; reflexivity.
  - apply Hprev; vm_compute; reflexivity.
  - apply Hprev; vm_compute; reflexivity.
Defined.

(** The only link of the anchor page is its first and its last. *)
Lemma MoveToFirst_MoveToLast_select_witness :
  selectedIndex (snd (MoveToFirst anchored 3)) = 0
  /\ selectedIndex (snd (MoveToLast anchored 3)) = 0.
Proof.
  destruct (MoveToFirst_MoveToLast_select anchored 3 0
              (mkNavElement NavElementURL "X" "#target" 0 "" "" 0 0 0 1))
    as [Hfirst Hlast]; [reflexivity | reflexivity |].
  split.
  - apply Hfirst. intros j e' Hj. lia.
  - apply Hlast. intros [|[|j]] e' Hj He'; [lia | | discriminate].
    injection He' as <-. reflexivity.
Defined.

Lemma traversal_never_panics_witness :
  exists moved v', MoveToNextLink twoPages 3 = Ok (moved, v') /\ reachable v'.
Proof.
  destruct (traversal_never_panics twoPages 3) as [Hnext _].
  - apply after_reachable. repeat constructor.
  - vm_compute. reflexivity.
  - exact Hnext.
Defined.

(** A width for a session that has no markdown yet. *)
Lemma SetWidth_false_keeps_page_witness :
  currentWidth (snd (SetWidth pagesSession 40)) = 40
  /\ renderedLines (snd (SetWidth pagesSession 40)) = [].
Proof.
  destruct (SetWidth_false_keeps_page pagesSession 40)
    as (_ & _ & Hlines & _ & _ & _ & _ & _ & Hwidth).
  - reflexivity.
  - split; [rewrite Hwidth; reflexivity | exact Hlines].
Defined.

(** A new width for the page with one link, and the width 0 for a page
    that a glamour renderer wrapped at 80: the width stored is 0 and the
    renderer still wraps at 80. *)
Lemma SetWidth_true_rerenders_witness :
  currentWidth (snd (SetWidth linkLoaded 40)) = 40
  /\ markdown (snd (SetWidth linkLoaded 40)) = linkPage
  /\ fst (SetWidth wrappedAt80 0) = true
  /\ currentWidth (snd (SetWidth wrappedAt80 0)) = 0
  /\ renderer (snd (SetWidth wrappedAt80 0)) = ANSIStyleRenderer 80.
Proof.
  pose proof (SetWidth_true_rerenders linkLoaded 40) as Hlink.
  pose proof (SetWidth_true_rerenders wrappedAt80 0) as Hzero.
  cbv zeta in Hlink, Hzero.
  destruct Hlink as (rendered & _ & _ & _ & _ & _ & Hwidth & _ & _ & Hmd & _);
    [reflexivity|].
  destruct Hzero as (rendered0 & _ & _ & Hkept & _ & _ & Hwidth0 & _); [reflexivity|].
  split; [rewrite Hwidth; reflexivity|]. split; [rewrite Hmd; reflexivity|].
  split; [reflexivity|]. split; [rewrite Hwidth0; reflexivity|].
  rewrite Hkept; [reflexivity | lia].
Defined.


(** The two nodes of the anchor page. *)
Lemma parseMarkdownWithSource_follows_walk_witness :
  exists slug,
    parseMarkdownWithSource anchorPage "a.md" !! 1%nat
    = Some (elementOfNode "a.md" slug (Heading "target" 2)).
Proof.
  destruct (parseMarkdownWithSource_follows_walk anchorPage "a.md") as [_ Hnodes].
  destruct (Hnodes 1%nat (Heading "target" 2)) as (slug & Hel & _).
  - reflexivity.
  - exists slug. exact Hel.
Defined.

Lemma loaded_headings_are_anchors_witness :
  fst (ScrollToAnchor (snd (SetMarkdownWithSource anchorSession anchorPage "" false))
         "target" 1 false) = true.
Proof.
  destruct (loaded_headings_are_anchors anchorSession anchorPage "" false
              (RenderResult.mk ["X"; ""; "target"] (Some (fun s => s))) 1 "target" 2) as [_ Hjump].
  - reflexivity.
  - reflexivity.
  - exact (Hjump 1 false).
Defined.

(** The header on line 2 is the element nearest to line 2. *)
Lemma findElementNearLine_nearest_witness :
  exists (i : nat) e,
    findElementNearLine anchored 2 = Some i /\ elements anchored !! i = Some e.
Proof.
  destruct (findElementNearLine_nearest anchored 2) as (i & e & Hfind & He & _).
  - vm_compute. discriminate.
  - exists i, e. split; [exact Hfind | exact He].
Defined.

(** A link to the file beside the source file. *)
Lemma ResolveMarkdownPath_returns_existing_witness :
  match PathResolver.ResolveMarkdownPath oneFile "b.md" "/docs/a.md" [] with
  | (path, None) => oneFile path = true
  | (path, Some err) => path = ""
  end.
Proof.
  pose proof (ResolveMarkdownPath_returns_existing oneFile "b.md" "/docs/a.md" []) as Hpath.
  cbv zeta in Hpath.
  destruct (PathResolver.ResolveMarkdownPath oneFile "b.md" "/docs/a.md" [])
    as [path [err|]].
  - apply Hpath; [discriminate | reflexivity].
  - apply Hpath; [discriminate | reflexivity].
Defined.

(** The link of the anchor page. *)
Lemma AnchorTarget_of_internal_link_witness :
  "#target"
  = "#" +:+ AnchorTarget (mkNavElement NavElementURL "X" "#target" 0 "" "" 0 0 0 1).
Proof.
  destruct (AnchorTarget_of_internal_link
              (mkNavElement NavElementURL "X" "#target" 0 "" "" 0 0 0 1))
    as (_ & Hurl & _).
  apply Hurl. reflexivity.
Defined.

End MoreRuns.

(** ** The marker extractor *)

Section ExtractorFacts.
Context `{GoText}.

Lemma findFrom_spec (marker : list rune) (rest : list rune) :
  forall i,
    match findFrom rest marker i with
    | Some idx =>
        exists k, idx = (i + k)%nat
                  /\ (k + length marker <= length rest)%nat
                  /\ take (length marker) (drop k rest) = marker
                  /\ forall j, (j < k)%nat -> take (length marker) (drop j rest) <> marker
    | None =>
        forall j, (j + length marker <= length rest)%nat ->
                  take (length marker) (drop j rest) <> marker
    end.
Proof.
  induction rest as [|r rest IH]; intros i; cbn [findFrom].
  - destruct (Nat.leb_spec (length marker) (length (@nil rune))) as [Hfit|Hlong].
    + destruct (decide (take (length marker) [] = marker)) as [Heq|Hne].
      * rewrite bool_decide_eq_true_2 by exact Heq.
        exists 0%nat. split; [lia|]. split; [cbn in *; lia|]. split; [exact Heq|]. lia.
      * rewrite bool_decide_eq_false_2 by exact Hne.
        intros j Hj. cbn in Hj. replace j with 0%nat by lia. exact Hne.
    + intros j Hj. cbn in *. lia.
  - destruct (Nat.leb_spec (length marker) (length (r :: rest))) as [Hfit|Hlong].
    + destruct (decide (take (length marker) (r :: rest) = marker)) as [Heq|Hne].
      * rewrite bool_decide_eq_true_2 by exact Heq.
        exists 0%nat. split; [lia|]. split; [cbn in *; lia|]. split; [exact Heq|]. lia.
      * rewrite bool_decide_eq_false_2 by exact Hne.
        specialize (IH (S i)). destruct (findFrom rest marker (S i)) as [idx|].
        -- destruct IH as (k & -> & Hk & Hmatch & Hmin).
           exists (S k). split; [lia|]. split; [cbn; lia|]. split; [exact Hmatch|].
           intros [|j] Hj; [exact Hne | apply Hmin; lia].
        -- intros [|j] Hj; [exact Hne | apply IH; cbn in Hj; lia].
    + intros j Hj. lia.
Qed.

Lemma findMarkerSequence_spec (runes : list rune) (startIdx : nat) (marker : list rune) :
  match findMarkerSequence runes startIdx marker with
  | Some idx =>
      (startIdx <= idx)%nat
      /\ (idx + length marker <= length runes)%nat
      /\ take (length marker) (drop idx runes) = marker
      /\ forall j, (startIdx <= j < idx)%nat -> take (length marker) (drop j runes) <> marker
  | None =>
      forall j, (startIdx <= j)%nat -> (j + length marker <= length runes)%nat ->
                take (length marker) (drop j runes) <> marker
  end.
Proof.
  unfold findMarkerSequence.
  destruct (Nat.leb_spec (startIdx + length marker) (length runes)) as [Hfit|Hlong].
  - pose proof (findFrom_spec marker (drop startIdx runes) startIdx) as Hspec.
    destruct (findFrom (drop startIdx runes) marker startIdx) as [idx|].
    + destruct Hspec as (k & -> & Hk & Hmatch & Hmin). rewrite length_drop in Hk.
      rewrite drop_drop in Hmatch.
      split; [lia|]. split; [lia|]. split; [exact Hmatch|].
      intros j Hj. specialize (Hmin (j - startIdx)%nat ltac:(unfold rune in *; lia)).
      rewrite drop_drop in Hmin.
      replace (startIdx + (j - startIdx))%nat with j in Hmin by lia. exact Hmin.
    + intros j Hj Hlen. specialize (Hspec (j - startIdx)%nat).
      rewrite length_drop, drop_drop in Hspec.
      replace (startIdx + (j - startIdx))%nat with j in Hspec by lia. apply Hspec. lia.
  - intros j Hj Hlen. lia.
Qed.

Lemma findEndOfMarkedContent_range (runes : list rune) (startIdx : nat) (marker : list rune) :
  (startIdx <= length runes)%nat ->
  (startIdx + length marker <= findEndOfMarkedContent runes startIdx marker
   \/ findEndOfMarkedContent runes startIdx marker = length runes)%nat.
Proof.
  intros Hstart. unfold findEndOfMarkedContent.
  pose proof (findMarkerSequence_spec runes startIdx marker) as Hspec.
  destruct (findMarkerSequence runes startIdx marker) as [idx|]; [left; lia | right; lia].
Qed.

Lemma extractLinkMarker_wellFormed runes runeIdx lineIdx cleaner pos :
  extractLinkMarker runes runeIdx lineIdx cleaner = Some pos -> wellFormed lineIdx pos.
Proof.
  unfold extractLinkMarker. destruct (_ || _ || _); [discriminate|].
  destruct (findMarkerSequence _ _ _); [|discriminate].
  intros [= <-]. split; [reflexivity|]. left. split; reflexivity.
Qed.

Lemma extractHeaderMarker_wellFormed runes runeIdx lineIdx cleaner pos :
  extractHeaderMarker runes runeIdx lineIdx cleaner = Some pos -> wellFormed lineIdx pos.
Proof.
  unfold extractHeaderMarker. destruct (negb _); [discriminate|].
  set (level := countLevel _).
  destruct (Nat.ltb_spec level 1); [discriminate|].
  destruct (Nat.ltb_spec 6 level); [discriminate|]. cbn [orb].
  destruct (_ || _); [discriminate|].
  destruct (findMarkerSequence _ _ _); [|discriminate].
  intros [= <-]. split; [reflexivity|]. right. cbn. split; [reflexivity | lia].
Qed.

(** The loop reaches the end of the line: every round moves on, and the
    positions it adds are well formed. *)
Lemma extractLoop_total lineIdx cleaner (runes : list rune) (rounds : nat) :
  forall i positions,
    (length runes - i < rounds)%nat ->
    exists more,
      extractLoop rounds runes i lineIdx cleaner positions = Some (positions ++ more)
      /\ Forall (wellFormed lineIdx) more
      /\ ((forall j r, (i <= j)%nat -> runes !! j = Some r -> r <> 0x200B /\ r <> 0x200D) ->
          more = []).
Proof.
  induction rounds as [|rounds IH]; intros i positions Hrounds; [lia|].
  cbn [extractLoop]. unfold rune in *.
  destruct (runes !! i) as [r|] eqn:Hr.
  2:{ exists []. rewrite app_nil_r. split; [reflexivity|].
      split; [constructor | intros _; reflexivity]. }
  apply lookup_lt_Some in Hr as Hlt.
  destruct (if bool_decide (r = 0x200B) && bool_decide (runes !! S i = Some 0x200C)
            then extractLinkMarker runes i lineIdx cleaner else None) as [pos|] eqn:Hlink.
  - assert (r = 0x200B /\ extractLinkMarker runes i lineIdx cleaner = Some pos) as [Hzws Hpos].
    { destruct (decide (r = 0x200B)) as [Heq|Hne].
      - rewrite bool_decide_eq_true_2 in Hlink by exact Heq.
        destruct (bool_decide _); [auto | discriminate].
      - rewrite bool_decide_eq_false_2 in Hlink by exact Hne. discriminate. }
    destruct (findEndOfMarkedContent_range runes i linkEndRunes ltac:(unfold rune in *; lia)) as [Hnext|Hnext];
      cbn [length linkEndRunes] in Hnext.
    all: destruct (IH (findEndOfMarkedContent runes i linkEndRunes) (positions ++ [pos])
                     ltac:(unfold rune in *; lia)) as (more & Hrun & Hwf & _).
    all: exists (pos :: more); rewrite Hrun, <- app_assoc; split; [reflexivity|].
    all: split; [constructor; [eapply extractLinkMarker_wellFormed; exact Hpos | exact Hwf]|].
    all: intros Hnone; destruct (Hnone i r ltac:(unfold rune in *; lia) Hr) as [Hno _]; contradiction.
  - destruct (if bool_decide (r = 0x200D)
              then extractHeaderMarker runes i lineIdx cleaner else None) as [pos|] eqn:Hheader.
    + assert (r = 0x200D /\ extractHeaderMarker runes i lineIdx cleaner = Some pos)
        as [Hzwj Hpos].
      { destruct (decide (r = 0x200D)) as [Heq|Hne].
        - rewrite bool_decide_eq_true_2 in Hheader by exact Heq. auto.
        - rewrite bool_decide_eq_false_2 in Hheader by exact Hne. discriminate. }
      destruct (findEndOfMarkedContent_range runes i headerEndRunes ltac:(unfold rune in *; lia))
        as [Hnext|Hnext]; cbn [length headerEndRunes] in Hnext.
      all: destruct (IH (findEndOfMarkedContent runes i headerEndRunes) (positions ++ [pos])
                       ltac:(unfold rune in *; lia)) as (more & Hrun & Hwf & _).
      all: exists (pos :: more); rewrite Hrun, <- app_assoc; split; [reflexivity|].
      all: split; [constructor; [eapply extractHeaderMarker_wellFormed; exact Hpos | exact Hwf]|].
      all: intros Hnone; destruct (Hnone i r ltac:(unfold rune in *; lia) Hr) as [_ Hno]; contradiction.
    + destruct (IH (S i) positions ltac:(unfold rune in *; lia)) as (more & Hrun & Hwf & Hempty).
      exists more. split; [exact Hrun|]. split; [exact Hwf|].
      intros Hnone. apply Hempty. intros j r' Hj. apply Hnone. lia.
Qed.

(** More rounds than needed change nothing. *)
Lemma extractLoop_more lineIdx cleaner (runes : list rune) (rounds : nat) :
  forall i positions result,
    extractLoop rounds runes i lineIdx cleaner positions = Some result ->
    extractLoop (S rounds) runes i lineIdx cleaner positions = Some result.
Proof.
  induction rounds as [|rounds IH]; intros i positions result; [discriminate|].
  intros Hrun. cbn [extractLoop] in Hrun. change (extractLoop (S (S rounds))) with
    (fun runes i lineIdx cleaner positions =>
       match runes !! i with
       | None => Some positions
       | Some r =>
           match (if bool_decide (r = 0x200B) && bool_decide (runes !! S i = Some 0x200C)
                  then extractLinkMarker runes i lineIdx cleaner else None) with
           | Some pos =>
               extractLoop (S rounds) runes (findEndOfMarkedContent runes i linkEndRunes)
                 lineIdx cleaner (positions ++ [pos])
           | None =>
               match (if bool_decide (r = 0x200D)
                      then extractHeaderMarker runes i lineIdx cleaner else None) with
               | Some pos =>
                   extractLoop (S rounds) runes
                     (findEndOfMarkedContent runes i headerEndRunes)
                     lineIdx cleaner (positions ++ [pos])
               | None => extractLoop (S rounds) runes (S i) lineIdx cleaner positions
               end
           end
       end).
  cbv beta.
  destruct (runes !! i) as [r|]; [|exact Hrun].
  destruct (if bool_decide (r = 0x200B) && _ then _ else None) as [pos|];
    [apply IH; exact Hrun|].
  destruct (if bool_decide (r = 0x200D) then _ else None) as [pos|]; apply IH; exact Hrun.
Qed.

Lemma extractLoop_enough lineIdx cleaner (runes : list rune) (rounds rounds' : nat) i
    positions result :
  (rounds <= rounds')%nat ->
  extractLoop rounds runes i lineIdx cleaner positions = Some result ->
  extractLoop rounds' runes i lineIdx cleaner positions = Some result.
Proof.
  intros Hle Hrun. induction Hle as [|rounds' _ IH]; [exact Hrun|].
  apply extractLoop_more. exact IH.
Qed.

Lemma extractMarkersFromLine_runs line lineIdx cleaner (rounds : nat) :
  (length (runesOf line) < rounds)%nat ->
  extractLoop rounds (runesOf line) 0 lineIdx cleaner []
  = Some (extractMarkersFromLine line lineIdx cleaner).
Proof.
  intros Hrounds. unfold extractMarkersFromLine.
  destruct (extractLoop_total lineIdx cleaner (runesOf line) (S (length (runesOf line))) 0 []
              ltac:(unfold rune in *; lia)) as (more & Hrun & _).
  rewrite Hrun. cbn [default].
  eapply extractLoop_enough; [|exact Hrun]. lia.
Qed.

(** X26.  [extractMarkersFromLine] returns: its loop ends after at most as
    many rounds as the line has runes, and one more to see the end.  Every
    position it returns carries the index of the line and is a link of
    level 0 or a header of a level from 1 to 6; a line with no U+200B and
    no U+200D has no positions, and [ExtractAllMarkers] gives the positions
    of the lines in the order of the lines. *)
Theorem extractMarkersFromLine_well_formed line lineIdx cleaner :
  (forall rounds, (length (runesOf line) < rounds)%nat ->
     extractLoop rounds (runesOf line) 0 lineIdx cleaner []
     = Some (extractMarkersFromLine line lineIdx cleaner))
  /\ Forall (wellFormed lineIdx) (extractMarkersFromLine line lineIdx cleaner)
  /\ ((forall r, r ∈ runesOf line -> r <> 0x200B /\ r <> 0x200D) ->
      extractMarkersFromLine line lineIdx cleaner = [])
  /\ (forall before after,
        ExtractAllMarkers (before ++ line :: after) cleaner
        = ExtractAllMarkers before cleaner
          ++ extractMarkersFromLine line (len before) cleaner
          ++ concat (imap (fun k l => extractMarkersFromLine l (len before + 1 + Z.of_nat k)
                                        cleaner) after)).
Proof.
  split; [intros rounds; apply extractMarkersFromLine_runs|].
  destruct (extractLoop_total lineIdx cleaner (runesOf line) (S (length (runesOf line))) 0 []
              ltac:(unfold rune in *; lia)) as (more & Hrun & Hwf & Hempty).
  assert (extractMarkersFromLine line lineIdx cleaner = more) as ->.
  { unfold extractMarkersFromLine. rewrite Hrun. reflexivity. }
  split; [exact Hwf|]. split.
  - intros Hnone. apply Hempty. intros j r _ Hr. apply Hnone.
    apply list_elem_of_lookup. exists j. exact Hr.
  - intros before after. unfold ExtractAllMarkers.
    rewrite imap_app, concat_app. cbn [imap concat]. f_equal.
    rewrite Nat.add_0_r. f_equal. f_equal. apply imap_ext. intros k l _.
    unfold compose. f_equal. unfold GoInt.len. lia.
Qed.

(** *** A marked link and a marked header *)

Lemma drop_step {A} (l : list A) (i : nat) (x : A) (t : list A) :
  drop i l = x :: t -> l !! i = Some x /\ drop (S i) l = t.
Proof.
  intros Hd. assert (l !! i = Some x) as Hx.
  { rewrite <- (Nat.add_0_r i), <- lookup_drop, Hd. reflexivity. }
  split; [exact Hx|]. rewrite (drop_S l x i Hx) in Hd. congruence.
Qed.

Lemma drop_more {A} (l : list A) (i : nat) (skipped rest : list A) :
  drop i l = skipped ++ rest -> drop (i + length skipped) l = rest.
Proof.
  intros Hd. rewrite <- drop_drop, Hd. apply drop_app_length.
Qed.

Lemma findFrom_here (x y : Z) (rest : list Z) i :
  findFrom (x :: y :: rest) [x; y] i = Some i.
Proof. cbn. rewrite bool_decide_eq_true_2 by reflexivity. reflexivity. Qed.

Lemma findFrom_skip_one (x y x' z : Z) (rest : list Z) i :
  x' <> x \/ z <> y ->
  findFrom (x' :: z :: rest) [x; y] i = findFrom (z :: rest) [x; y] (S i).
Proof.
  intros Hne. cbn [findFrom length Nat.leb take].
  rewrite bool_decide_eq_false_2; [reflexivity|].
  intros [= -> ->]. destruct Hne; contradiction.
Qed.

Lemma findFrom_skip_all (x y : Z) (skipped rest : list Z) :
  Forall (fun r => r <> x) skipped -> (2 <= length rest)%nat ->
  forall i, findFrom (skipped ++ rest) [x; y] i = findFrom rest [x; y] (i + length skipped).
Proof.
  intros Hskip Hrest. induction Hskip as [|r skipped Hr _ IH]; intros i.
  - cbn. rewrite Nat.add_0_r. reflexivity.
  - cbn [app length]. destruct (skipped ++ rest) as [|z more] eqn:Hmore.
    { apply (f_equal length) in Hmore. rewrite length_app in Hmore. cbn in Hmore. lia. }
    rewrite findFrom_skip_one by (left; exact Hr). rewrite IH. f_equal. lia.
Qed.

Lemma findMarkerSequence_found (runes : list Z) (startIdx : nat) (x y : Z)
    (content post : list Z) :
  drop startIdx runes = content ++ x :: y :: post ->
  Forall (fun r => r <> x) content ->
  findMarkerSequence runes startIdx [x; y] = Some (startIdx + length content)%nat.
Proof.
  intros Hd Hcontent. unfold findMarkerSequence. unfold rune in *.
  assert (startIdx + 2 <= length runes)%nat as Hfit.
  { apply (f_equal length) in Hd. rewrite length_drop, length_app in Hd. cbn in Hd. lia. }
  cbn [length]. destruct (Nat.leb_spec (startIdx + 2) (length runes)); [|lia].
  rewrite Hd, findFrom_skip_all by (cbn; (exact Hcontent || lia)).
  apply findFrom_here.
Qed.

Lemma visibleRunes_all (rs : list Z) :
  Forall (fun r => IsMarkerRune r = false) rs -> visibleRunes rs = rs.
Proof.
  intros Hrs. induction Hrs as [|r rs Hr _ IH]; [reflexivity|].
  unfold visibleRunes in *. cbn. rewrite Hr. cbn. rewrite IH. reflexivity.
Qed.

Lemma visibleRunes_none (rs : list Z) :
  Forall (fun r => IsMarkerRune r = true) rs -> visibleRunes rs = [].
Proof.
  intros Hrs. induction Hrs as [|r rs Hr _ IH]; [reflexivity|].
  unfold visibleRunes in *. cbn. rewrite Hr. cbn. exact IH.
Qed.

Lemma visible_not (x : Z) (rs : list Z) :
  IsMarkerRune x = true ->
  Forall (fun r => IsMarkerRune r = false) rs -> Forall (fun r => r <> x) rs.
Proof.
  intros Hx Hrs. eapply Forall_impl; [exact Hrs|]. intros r Hr ->. congruence.
Qed.

Lemma extractLoop_skip lineIdx cleaner (runes : list Z) (skipped : list Z) :
  Forall (fun r => IsMarkerRune r = false) skipped ->
  forall rest i rounds positions,
    drop i runes = skipped ++ rest ->
    extractLoop (length skipped + rounds) runes i lineIdx cleaner positions
    = extractLoop rounds runes (i + length skipped) lineIdx cleaner positions.
Proof.
  intros Hskip. induction Hskip as [|r skipped Hr _ IH]; intros rest i rounds positions Hd.
  - cbn. rewrite Nat.add_0_r. reflexivity.
  - cbn [app] in Hd. apply drop_step in Hd as [Hi Hd].
    cbn [length Nat.add extractLoop]. unfold rune in *. rewrite Hi.
    rewrite (bool_decide_eq_false_2 (r = 8203)) by (intros ->; discriminate).
    rewrite (bool_decide_eq_false_2 (r = 8205)) by (intros ->; discriminate).
    cbn [andb]. rewrite (IH rest (S i) rounds positions Hd). f_equal. lia.
Qed.

Lemma extractLoop_end lineIdx cleaner (runes : list Z) i rounds positions :
  drop i runes = [] ->
  extractLoop (S rounds) runes i lineIdx cleaner positions = Some positions.
Proof.
  intros Hd. cbn [extractLoop]. unfold rune in *.
  assert (runes !! i = None) as ->; [|reflexivity].
  rewrite <- (Nat.add_0_r i), <- lookup_drop, Hd. reflexivity.
Qed.

Lemma extractLoop_link lineIdx cleaner (runes content post : list Z) i rounds positions :
  drop i runes = 0x200B :: 0x200C :: content ++ 0x200C :: 0x200B :: post ->
  Forall (fun r => IsMarkerRune r = false) content ->
  extractLoop (S rounds) runes i lineIdx cleaner positions
  = extractLoop rounds runes (i + 2 + length content + 2) lineIdx cleaner
      (positions
       ++ [MarkerPosition.mk MarkerTypeLink 0 lineIdx
             (calculateVisualColumn runes (i + 2) cleaner)
             (calculateVisualColumn runes (i + 2 + length content) cleaner)]).
Proof.
  intros Hd Hcontent. unfold rune in *.
  pose proof (visible_not 0x200C content eq_refl Hcontent) as Hno.
  assert (length runes = (i + (4 + length content + length post))%nat) as Hlen.
  { apply (f_equal length) in Hd. rewrite length_drop in Hd. cbn in Hd.
    rewrite length_app in Hd. cbn in Hd. lia. }
  destruct (drop_step _ _ _ _ Hd) as [H0 Hd1].
  destruct (drop_step _ _ _ _ Hd1) as [H1 Hd2].
  assert (findMarkerSequence runes (i + 2) linkEndRunes = Some (i + 2 + length content)%nat)
    as Hend.
  { apply (findMarkerSequence_found runes (i + 2) 0x200C 0x200B content post); [|exact Hno].
    replace (i + 2)%nat with (S (S i)) by lia. exact Hd2. }
  assert (findEndOfMarkedContent runes i linkEndRunes = (i + 2 + length content + 2)%nat)
    as Hnext.
  { unfold findEndOfMarkedContent, findMarkerSequence, linkEndRunes. cbn [length].
    unfold rune in *.
    destruct (Nat.leb_spec (i + 2) (length runes)); [|lia].
    rewrite Hd. rewrite findFrom_skip_one by (left; discriminate).
    assert (findFrom (0x200C :: content ++ 0x200C :: 0x200B :: post) [0x200C; 0x200B] (S i)
            = Some (S (S i) + length content)%nat) as ->.
    { destruct content as [|z content'].
      - cbn [app]. rewrite findFrom_skip_one by (right; discriminate).
        rewrite findFrom_here. f_equal. cbn. lia.
      - cbn [app]. rewrite findFrom_skip_one.
        2:{ right. inversion Hcontent as [|? ? Hz _]; subst. intros ->. discriminate. }
        change (z :: content' ++ 0x200C :: 0x200B :: post)
          with ((z :: content') ++ 0x200C :: 0x200B :: post).
        rewrite findFrom_skip_all by (cbn; (exact Hno || lia)).
        apply findFrom_here. }
    lia. }
  cbn [extractLoop]. unfold rune in *. rewrite H0, H1.
  rewrite !bool_decide_eq_true_2 by reflexivity. cbn [andb].
  unfold extractLinkMarker. unfold rune in *.
  destruct (Nat.leb_spec (length runes) (i + 1)); [lia|].
  replace (i + 1)%nat with (S i) by lia. rewrite H0, H1.
  rewrite !bool_decide_eq_true_2 by reflexivity. cbn [negb orb].
  rewrite Hend, Hnext. reflexivity.
Qed.

Lemma countLevel_replicate (level : nat) (z : Z) (rest : list Z) :
  z <> 0x2060 -> countLevel (replicate level 0x2060 ++ z :: rest) = level.
Proof.
  intros Hz. induction level as [|level IH]; cbn.
  - destruct (Z.eqb_spec z 8288); [contradiction | reflexivity].
  - rewrite IH. reflexivity.
Qed.

Lemma extractLoop_header lineIdx cleaner (runes content post : list Z) (level : nat)
    i rounds positions :
  (1 <= level <= 6)%nat ->
  drop i runes
  = 0x200D :: replicate level 0x2060 ++ 0x200D :: content ++ 0x200D :: 0x200C :: post ->
  Forall (fun r => IsMarkerRune r = false) content ->
  extractLoop (S rounds) runes i lineIdx cleaner positions
  = extractLoop rounds runes (i + 1 + level + 1 + length content + 2) lineIdx cleaner
      (positions
       ++ [MarkerPosition.mk MarkerTypeHeader (Z.of_nat level) lineIdx
             (calculateVisualColumn runes (i + 1 + level + 1) cleaner)
             (calculateVisualColumn runes (i + 1 + level + 1 + length content) cleaner)]).
Proof.
  intros Hlevel Hd Hcontent. unfold rune in *.
  pose proof (visible_not 0x200D content eq_refl Hcontent) as Hno.
  assert (length runes = (i + (1 + level + 1 + length content + 2 + length post))%nat)
    as Hlen.
  { apply (f_equal length) in Hd. rewrite length_drop in Hd. cbn in Hd.
    rewrite length_app, length_replicate in Hd. cbn in Hd. rewrite length_app in Hd.
    cbn in Hd. lia. }
  destruct (drop_step _ _ _ _ Hd) as [H0 Hd1].
  pose proof (drop_more runes (S i) (replicate level 0x2060) _ Hd1) as Hd2.
  rewrite length_replicate in Hd2.
  destruct (drop_step _ _ _ _ Hd2) as [Hclose Hd3].
  assert (findMarkerSequence runes (i + 1 + level + 1) headerEndRunes
          = Some (i + 1 + level + 1 + length content)%nat) as Hend.
  { apply (findMarkerSequence_found runes _ 0x200D 0x200C content post); [|exact Hno].
    replace (i + 1 + level + 1)%nat with (S (S i + level)) by lia. exact Hd3. }
  assert (findEndOfMarkedContent runes i headerEndRunes
          = (i + 1 + level + 1 + length content + 2)%nat) as Hnext.
  { unfold findEndOfMarkedContent, findMarkerSequence, headerEndRunes. cbn [length].
    unfold rune in *.
    destruct (Nat.leb_spec (i + 2) (length runes)); [|lia].
    rewrite Hd. destruct level as [|level']; [lia|]. cbn [replicate app].
    rewrite findFrom_skip_one by (right; discriminate).
    change (0x2060 :: replicate level' 0x2060 ++ 0x200D :: content ++ 0x200D :: 0x200C :: post)
      with (replicate (S level') 0x2060
            ++ 0x200D :: content ++ 0x200D :: 0x200C :: post).
    rewrite findFrom_skip_all.
    2:{ apply Forall_replicate. discriminate. }
    2:{ cbn. rewrite length_app. cbn. lia. }
    rewrite length_replicate.
    assert (findFrom (0x200D :: content ++ 0x200D :: 0x200C :: post) [0x200D; 0x200C]
              (S i + S level')
            = Some (S (S i + S level') + length content)%nat) as ->.
    { destruct content as [|z content'].
      - cbn [app]. rewrite findFrom_skip_one by (right; discriminate).
        rewrite findFrom_here. f_equal. cbn. lia.
      - cbn [app]. rewrite findFrom_skip_one.
        2:{ right. inversion Hcontent as [|? ? Hz _]; subst. intros ->. discriminate. }
        change (z :: content' ++ 0x200D :: 0x200C :: post)
          with ((z :: content') ++ 0x200D :: 0x200C :: post).
        rewrite findFrom_skip_all by (cbn; (exact Hno || lia)).
        apply findFrom_here. }
    lia. }
  cbn [extractLoop]. unfold rune in *. rewrite H0.
  replace (runes !! S i) with (Some 8288 : option Z).
  2:{ symmetry. rewrite <- (Nat.add_0_r (S i)), <- lookup_drop, Hd1.
      destruct level; [lia | reflexivity]. }
  rewrite (bool_decide_eq_false_2 (8205 = 8203)) by discriminate.
  cbn [andb]. rewrite (bool_decide_eq_true_2 (8205 = 8205)) by reflexivity.
  unfold extractHeaderMarker. unfold rune in *. rewrite H0.
  rewrite bool_decide_eq_true_2 by reflexivity. cbn [negb].
  replace (i + 1)%nat with (S i) by lia. rewrite Hd1.
  rewrite countLevel_replicate by discriminate.
  destruct (Nat.ltb_spec level 1); [lia|]. destruct (Nat.ltb_spec 6 level); [lia|].
  destruct (Nat.leb_spec (length runes) (S i + level)); [lia|].
  rewrite Hclose. rewrite bool_decide_eq_true_2 by reflexivity. cbn [negb orb].
  replace (S i + level + 1)%nat with (i + 1 + level + 1)%nat by lia.
  rewrite Hend, Hnext. reflexivity.
Qed.

(** X27.  A marked link and a marked header are found where they are.  In
    a line whose runes are a text, the start marker, a content, the end
    marker and a text, none of the three with a marker rune,
    [extractMarkersFromLine] with no cleaner returns one position: of the
    link, or of the header with the level its start marker has U+2060
    runes, from the column after the text before to the column after the
    content.  (Writing the runes before a column to a builder and reading
    them back is taken to keep the number of runes that are no markers, as
    UTF-8 does.) *)
Theorem marked_elements_are_found line lineIdx (pre content post : list rune) :
  Forall (fun r => IsMarkerRune r = false) pre ->
  Forall (fun r => IsMarkerRune r = false) content ->
  Forall (fun r => IsMarkerRune r = false) post ->
  (forall n,
     len (visibleRunes (runesOf (writeRunes (take n (runesOf line)))))
     = len (visibleRunes (take n (runesOf line)))) ->
  (runesOf line = pre ++ [0x200B; 0x200C] ++ content ++ [0x200C; 0x200B] ++ post ->
   extractMarkersFromLine line lineIdx None
   = [MarkerPosition.mk MarkerTypeLink 0 lineIdx (len pre) (len pre + len content)])
  /\ (forall level : nat,
        (1 <= level <= 6)%nat ->
        runesOf line
        = pre ++ [0x200D] ++ replicate level 0x2060 ++ [0x200D] ++ content
          ++ [0x200D; 0x200C] ++ post ->
        extractMarkersFromLine line lineIdx None
        = [MarkerPosition.mk MarkerTypeHeader (Z.of_nat level) lineIdx
             (len pre) (len pre + len content)]).
Proof.
  intros Hpre Hcontent Hpost Hround.
  assert (forall n, calculateVisualColumn (runesOf line) n None
                    = len (visibleRunes (take n (runesOf line)))) as Hcol.
  { intros n. unfold calculateVisualColumn. apply Hround. }
  assert (forall result rounds,
            extractLoop rounds (runesOf line) 0 lineIdx None [] = Some result ->
            extractMarkersFromLine line lineIdx None = result) as Hrun.
  { intros result rounds Hloop.
    pose proof (extractMarkersFromLine_runs line lineIdx None
                  (rounds + S (length (runesOf line))) ltac:(lia)) as Htotal.
    rewrite (extractLoop_enough lineIdx None (runesOf line) rounds
               (rounds + S (length (runesOf line))) 0 [] result ltac:(lia) Hloop) in Htotal.
    congruence. }
  assert (forall a b, visibleRunes (a ++ b) = visibleRunes a ++ visibleRunes b) as Happ
    by (intros a b; apply List.filter_app).
  split.
  - intros Hline.
    apply (Hrun _ (length pre + S (length post + 1))%nat).
    assert (drop 0 (runesOf line)
            = pre ++ [0x200B; 0x200C] ++ content ++ [0x200C; 0x200B] ++ post) as Hd0
      by exact Hline.
    assert (drop (0 + length pre) (runesOf line)
            = 0x200B :: 0x200C :: content ++ 0x200C :: 0x200B :: post) as Hd1
      by (rewrite Hline; apply drop_app_length).
    assert (drop (0 + length pre + 2 + length content + 2) (runesOf line) = post ++ [])
      as Hd2.
    { rewrite app_nil_r, Hline, !app_assoc. apply drop_app_length'.
      rewrite !length_app. cbn. unfold rune in *. lia. }
    rewrite (extractLoop_skip lineIdx None (runesOf line) pre Hpre _ 0 _ _ Hd0).
    rewrite (extractLoop_link lineIdx None (runesOf line) content post _ _ _ Hd1 Hcontent).
    rewrite (extractLoop_skip lineIdx None (runesOf line) post Hpost _ _ _ _ Hd2).
    rewrite extractLoop_end.
    2:{ apply drop_ge. rewrite Hline, !length_app. cbn. unfold rune in *. lia. }
    cbn [app]. rewrite !Hcol. f_equal. f_equal. f_equal.
    + rewrite Hline, (app_assoc pre).
      rewrite take_app_length' by (rewrite length_app; cbn; unfold rune in *; lia).
      rewrite Happ, (visibleRunes_all pre Hpre). cbn. rewrite ?app_nil_r, ?len_app. unfold GoInt.len. cbn [length]. unfold rune in *. lia.
    + rewrite Hline, (app_assoc pre), (app_assoc (pre ++ _)).
      rewrite take_app_length' by (rewrite !length_app; cbn; unfold rune in *; lia).
      rewrite !Happ, (visibleRunes_all pre Hpre), (visibleRunes_all content Hcontent).
      cbn. rewrite ?app_nil_r, ?len_app. unfold GoInt.len. cbn [length]. unfold rune in *. lia.
  - intros level Hlevel Hline.
    apply (Hrun _ (length pre + S (length post + 1))%nat).
    assert (drop 0 (runesOf line)
            = pre ++ [0x200D] ++ replicate level 0x2060 ++ [0x200D] ++ content
              ++ [0x200D; 0x200C] ++ post) as Hd0
      by exact Hline.
    assert (drop (0 + length pre) (runesOf line)
            = 0x200D :: replicate level 0x2060 ++ 0x200D :: content
              ++ 0x200D :: 0x200C :: post) as Hd1
      by (rewrite Hline; apply drop_app_length).
    assert (drop (0 + length pre + 1 + level + 1 + length content + 2) (runesOf line)
            = post ++ []) as Hd2.
    { rewrite app_nil_r, Hline, !app_assoc. apply drop_app_length'.
      rewrite !length_app, length_replicate. cbn. unfold rune in *. lia. }
    rewrite (extractLoop_skip lineIdx None (runesOf line) pre Hpre _ 0 _ _ Hd0).
    rewrite (extractLoop_header lineIdx None (runesOf line) content post level _ _ _
               Hlevel Hd1 Hcontent).
    rewrite (extractLoop_skip lineIdx None (runesOf line) post Hpost _ _ _ _ Hd2).
    rewrite extractLoop_end.
    2:{ apply drop_ge. rewrite Hline, !length_app, length_replicate. cbn. unfold rune in *. lia. }
    assert (visibleRunes (replicate level 0x2060) = []) as Hwj
      by (apply visibleRunes_none, Forall_replicate; reflexivity).
    cbn [app]. rewrite !Hcol. f_equal. f_equal. f_equal.
    + rewrite Hline, (app_assoc pre), (app_assoc (pre ++ _)), (app_assoc ((pre ++ _) ++ _)).
      rewrite take_app_length' by (rewrite !length_app, length_replicate; cbn; unfold rune in *; lia).
      rewrite !Happ, (visibleRunes_all pre Hpre), Hwj. cbn. rewrite ?app_nil_r, ?len_app. unfold GoInt.len. cbn [length]. unfold rune in *. lia.
    + rewrite Hline, (app_assoc pre), (app_assoc (pre ++ _)), (app_assoc ((pre ++ _) ++ _)),
        (app_assoc (((pre ++ _) ++ _) ++ _)).
      rewrite take_app_length' by (rewrite !length_app, length_replicate; cbn; unfold rune in *; lia).
      rewrite !Happ, (visibleRunes_all pre Hpre), (visibleRunes_all content Hcontent), Hwj.
      cbn. rewrite ?app_nil_r, ?len_app. unfold GoInt.len. cbn [length]. unfold rune in *. lia.
Qed.

End ExtractorFacts.

(** ** marker_correlator.go *)

Section MarkerCorrelatorFacts.
Context `{GoText}.
Variable fallback : NavElement -> list string -> option LineCleaner -> Z * Z * Z * bool.

(** The method of the interface is the method of the marker correlator. *)
Lemma asPositionCorrelator_CorrelatePosition mc e lines cleaner :
  CorrelatePosition (PositionCorrelator := MarkerCorrelator.asPositionCorrelator fallback)
    mc e lines cleaner
  = MarkerCorrelator.CorrelatePosition fallback mc e lines cleaner.
Proof. reflexivity. Qed.

Import MarkerCorrelator.

Lemma occurrence_lookup (p : MarkerPosition.t -> bool) (target : Z)
    (positions : list MarkerPosition.t) :
  forall current,
    0 <= current <= target -> current + len positions < 2 ^ 63 ->
    occurrence p positions current target
    = List.filter p positions !! Z.to_nat (target - current).
Proof.
  induction positions as [|pos positions IH]; intros current Hcur Hlen; [reflexivity|].
  cbn [occurrence List.filter].
  assert (len (pos :: positions) = 1 + len positions) as Hcons
    by (unfold GoInt.len; cbn [length]; lia).
  rewrite Hcons in Hlen. pose proof (len_nonneg positions) as Hpos.
  destruct (p pos).
  - destruct (Z.eqb_spec current target) as [->|Hne].
    + rewrite Z.sub_diag. reflexivity.
    + unfold GoInt.add. rewrite wrap_small by lia. rewrite IH by lia.
      replace (Z.to_nat (target - current)) with (S (Z.to_nat (target - (current + 1))))
        by lia.
      reflexivity.
  - apply IH; lia.
Qed.

Lemma filter_lookup_min {A} (p : A -> bool) (l : list A) (k : Z) :
  0 <= k ->
  List.filter p l !! Z.to_nat (Z.min k (len (List.filter p l)))
  = if k <? len (List.filter p l) then List.filter p l !! Z.to_nat k else None.
Proof.
  intros Hk. destruct (Z.ltb_spec k (len (List.filter p l))) as [Hlt|Hge].
  - rewrite Z.min_l by lia. reflexivity.
  - rewrite Z.min_r by lia. apply lookup_ge_None. unfold GoInt.len. lia.
Qed.

Lemma sameKind_kindOf (e e' : NavElement) : sameKind e e' = true -> kindOf e = kindOf e'.
Proof.
  unfold sameKind, kindOf. destruct (Type_ e).
  - intros [Hty Hl]%andb_true_iff. apply bool_decide_eq_true in Hty. rewrite Hty.
    apply Z.eqb_eq in Hl. rewrite Hl. reflexivity.
  - intros Hty. apply bool_decide_eq_true in Hty. rewrite Hty. reflexivity.
Qed.

Lemma sameKind_refl (e : NavElement) : sameKind e e = true.
Proof.
  unfold sameKind. destruct (Type_ e) eqn:Hty.
  - rewrite bool_decide_eq_true_2 by reflexivity. apply Z.eqb_refl.
  - apply bool_decide_eq_true_2. reflexivity.
Qed.

Lemma sameKind_sym (e e' : NavElement) : sameKind e e' = sameKind e' e.
Proof.
  unfold sameKind. destruct (Type_ e) eqn:Hty, (Type_ e') eqn:Hty'; cbn;
    rewrite ?bool_decide_eq_true_2 by reflexivity;
    rewrite ?bool_decide_eq_false_2 by discriminate; try reflexivity.
  cbn. apply Z.eqb_sym.
Qed.

(** One call: the element gets the next marker of its kind, or the answer
    of the fallback when there is none left. *)
Lemma CorrelatePosition_next lines cleaner (met : list NavElement) (mc : t) (e : NavElement) :
  ExtractAllMarkers lines cleaner <> [] ->
  len (ExtractAllMarkers lines cleaner) < 2 ^ 63 ->
  inOrder lines cleaner met mc ->
  let k := length (List.filter (sameKind e) met) in
  foundPosition (fst (CorrelatePosition fallback mc e lines cleaner))
  = match List.filter (kindOf e) (ExtractAllMarkers lines cleaner) !! k with
    | Some pos => Some (positionOf pos)
    | None => foundPosition (fallback e lines cleaner)
    end
  /\ inOrder lines cleaner (met ++ [e]) (snd (CorrelatePosition fallback mc e lines cleaner)).
Proof.
  intros Hsome Hlen [Hcache Hcount] k. unfold CorrelatePosition.
  set (positions := ExtractAllMarkers lines cleaner) in *.
  set (mc1 := if negb (isCacheValid mc lines) then _ else mc).
  assert (cachedPositions mc1 = positions
          /\ cachedLineCount mc1 = len lines
          /\ cachedFirstLine mc1 = match lines with first :: _ => first | [] => "" end
          /\ linkCounter mc1 = linkCounter mc
          /\ headerCounter mc1 = headerCounter mc) as (Hp1 & Hc1 & Hf1 & Hl1 & Hh1).
  { subst mc1. destruct (isCacheValid mc lines) eqn:Hvalid; cbn [negb]; [|cbn; auto].
    destruct Hcache as [Hnil | (Hp & Hc & Hf)]; [|auto 6].
    unfold isCacheValid in Hvalid. rewrite bool_decide_eq_true_2 in Hvalid by exact Hnil.
    discriminate. }
  clearbody mc1.
  assert ((len (cachedPositions mc1) =? 0) = false) as ->.
  { rewrite Hp1. apply Z.eqb_neq. unfold GoInt.len. destruct positions; [contradiction|].
    cbn [length]. lia. }
  assert (forall e', counterOf mc1 e' = counterOf mc e') as Hsame
    by (intros e'; unfold counterOf; rewrite Hl1, Hh1; reflexivity).
  pose proof (Hcount e) as Hk. rewrite <- Hsame in Hk.
  pose proof (len_nonneg (List.filter (sameKind e) met)) as Hk0.
  pose proof (len_nonneg (List.filter (kindOf e) positions)) as Hn0.
  assert (len (List.filter (kindOf e) positions) <= len positions) as Hnle.
  { unfold GoInt.len. pose proof (List.filter_length_le (kindOf e) positions). lia. }
  assert (occurrence (kindOf e) positions 0 (counterOf mc1 e)
          = if Z.of_nat k <? len (List.filter (kindOf e) positions)
            then List.filter (kindOf e) positions !! k else None) as Hocc.
  { rewrite occurrence_lookup by lia. rewrite Z.sub_0_r, Hk.
    fold (len (List.filter (sameKind e) met)).
    rewrite filter_lookup_min by lia. unfold GoInt.len. subst k.
    rewrite Nat2Z.id. reflexivity. }
  assert (forall e', len (List.filter (sameKind e') (met ++ [e]))
                     = len (List.filter (sameKind e') met)
                       + if sameKind e' e then 1 else 0) as Hmet.
  { intros e'. rewrite List.filter_app, len_app. cbn [List.filter].
    destruct (sameKind e' e); reflexivity. }
  assert (forall mc2 : t,
            cachedPositions mc2 = positions ->
            cachedLineCount mc2 = len lines ->
            cachedFirstLine mc2 = match lines with first :: _ => first | [] => "" end ->
            (forall e', counterOf mc2 e'
                        = if sameKind e' e
                          then Z.min (Z.of_nat k + 1) (len (List.filter (kindOf e) positions))
                          else counterOf mc1 e') ->
            inOrder lines cleaner (met ++ [e]) mc2) as Hnext.
  { intros mc2 Hp2 Hc2 Hf2 Hcounters. split; [right; auto|].
    intros e'. rewrite Hcounters, Hmet. fold positions.
    destruct (sameKind e' e) eqn:Hkind.
    - rewrite (sameKind_kindOf e' e Hkind).
      assert (List.filter (sameKind e') met = List.filter (sameKind e) met) as ->.
      { apply List.filter_ext. intros x. unfold sameKind in *.
        destruct (Type_ e') eqn:Hty'.
        - apply andb_true_iff in Hkind as [Hty Hl]. apply bool_decide_eq_true in Hty.
          apply Z.eqb_eq in Hl. rewrite Hty, Hl. reflexivity.
        - apply bool_decide_eq_true in Hkind. rewrite Hkind. reflexivity. }
      unfold GoInt.len at 1. fold k. reflexivity.
    - rewrite Hsame, Hcount, Z.add_0_r. reflexivity. }
  assert (Z.of_nat k < len (List.filter (kindOf e) positions) ->
          counterOf mc1 e +i 1
          = Z.min (Z.of_nat k + 1) (len (List.filter (kindOf e) positions))) as Hwrap.
  { intros Hlt. rewrite Hk. unfold GoInt.add. unfold GoInt.len in *. fold k.
    rewrite wrap_small by lia. lia. }
  assert (len (List.filter (kindOf e) positions) <= Z.of_nat k ->
          forall e', sameKind e' e = true ->
                     counterOf mc1 e'
                     = Z.min (Z.of_nat k + 1) (len (List.filter (kindOf e) positions)))
    as Hfull.
  { intros Hge e' Hkind. rewrite Hsame, Hcount, (sameKind_kindOf e' e Hkind).
    assert (List.filter (sameKind e') met = List.filter (sameKind e) met) as ->.
    { apply List.filter_ext. intros x. unfold sameKind in *.
      destruct (Type_ e') eqn:Hty'.
      - apply andb_true_iff in Hkind as [Hty Hl]. apply bool_decide_eq_true in Hty.
        apply Z.eqb_eq in Hl. rewrite Hty, Hl. reflexivity.
      - apply bool_decide_eq_true in Hkind. rewrite Hkind. reflexivity. }
    fold positions. unfold GoInt.len in *. fold k. lia. }
  unfold kindOf, counterOf in Hocc, Hwrap. unfold counterOf in Hnext, Hfull.
  unfold kindOf at 1.
  destruct (Type_ e) eqn:Hty.
  - (* a header *)
    unfold correlateHeaderPosition. rewrite Hp1, Hocc.
    destruct (Z.ltb_spec (Z.of_nat k) (len (List.filter (isHeader (Level e)) positions)))
      as [Hlt|Hge].
    + destruct (List.filter (isHeader (Level e)) positions !! k) as [pos|] eqn:Hpos.
      2:{ apply lookup_ge_None in Hpos. unfold GoInt.len in Hlt. lia. }
      cbn [fst snd foundPosition]. split; [reflexivity|].
      apply Hnext; try assumption; try reflexivity.
      intros e'. cbn [linkCounter headerCounter]. unfold sameKind. rewrite Hty.
      destruct (Type_ e') eqn:Hty'.
      * rewrite bool_decide_eq_true_2 by reflexivity. cbn [andb].
        destruct (Z.eqb_spec (Level e) (Level e')) as [Heq|Hne].
        -- rewrite <- Heq, lookup_insert_eq. cbn [default]. unfold kindOf. rewrite Hty.
           apply Hwrap. exact Hlt.
        -- rewrite lookup_insert_ne by exact Hne. reflexivity.
      * rewrite bool_decide_eq_false_2 by discriminate. reflexivity.
    + cbn [fst snd].
      assert (List.filter (isHeader (Level e)) positions !! k = None) as ->
        by (apply lookup_ge_None; unfold GoInt.len in Hge; lia).
      split; [reflexivity|].
      apply Hnext; try assumption.
      intros e'. destruct (sameKind e' e) eqn:Hkind; [|reflexivity].
      apply Hfull; [|exact Hkind]. unfold kindOf. rewrite Hty. exact Hge.
  - (* a link *)
    unfold correlateLinkPosition. rewrite Hp1, Hocc.
    destruct (Z.ltb_spec (Z.of_nat k) (len (List.filter isLink positions))) as [Hlt|Hge].
    + destruct (List.filter isLink positions !! k) as [pos|] eqn:Hpos.
      2:{ apply lookup_ge_None in Hpos. unfold GoInt.len in Hlt. lia. }
      cbn [fst snd foundPosition]. split; [reflexivity|].
      apply Hnext; try assumption; try reflexivity.
      intros e'. cbn [linkCounter headerCounter]. unfold sameKind. rewrite Hty.
      destruct (Type_ e') eqn:Hty'.
      * rewrite bool_decide_eq_false_2 by discriminate. cbn [andb]. reflexivity.
      * rewrite bool_decide_eq_true_2 by reflexivity. unfold kindOf. rewrite Hty.
        apply Hwrap. exact Hlt.
    + cbn [fst snd].
      assert (List.filter isLink positions !! k = None) as ->
        by (apply lookup_ge_None; unfold GoInt.len in Hge; lia).
      split; [reflexivity|].
      apply Hnext; try assumption.
      intros e'. destruct (sameKind e' e) eqn:Hkind; [|reflexivity].
      apply Hfull; [|exact Hkind]. unfold kindOf. rewrite Hty. exact Hge.
Qed.

Lemma correlateAll_in_order lines cleaner (rest : list NavElement) :
  ExtractAllMarkers lines cleaner <> [] ->
  len (ExtractAllMarkers lines cleaner) < 2 ^ 63 ->
  forall met mc (j : nat) e,
    inOrder lines cleaner met mc ->
    rest !! j = Some e ->
    fst (correlateAll (H2 := asPositionCorrelator fallback) mc rest lines cleaner) !! j
    = Some match List.filter (kindOf e) (ExtractAllMarkers lines cleaner)
                 !! length (List.filter (sameKind e) (met ++ take j rest)) with
           | Some pos => Some (positionOf pos)
           | None => foundPosition (fallback e lines cleaner)
           end.
Proof.
  intros Hsome Hlen. induction rest as [|e0 rest IH]; intros met mc j e Hin Hj.
  { rewrite lookup_nil in Hj. discriminate. }
  cbn [correlateAll].
  rewrite asPositionCorrelator_CorrelatePosition.
  destruct (CorrelatePosition_next lines cleaner met mc e0 Hsome Hlen Hin) as [Hanswer Hnext].
  destruct (MarkerCorrelator.CorrelatePosition fallback mc e0 lines cleaner)
    as [[[[lineIdx startCol] endCol] found] mc1].
  cbn [fst snd] in Hanswer, Hnext.
  specialize (IH (met ++ [e0]) mc1).
  destruct (correlateAll mc1 rest lines cleaner) as [cs mc2]. cbn [fst] in *.
  destruct j as [|j].
  - cbn in Hj. injection Hj as <-. rewrite lookup_cons. cbn [take]. rewrite app_nil_r.
    cbn [foundPosition] in Hanswer. rewrite Hanswer. reflexivity.
  - rewrite lookup_cons. cbn [take]. cbn in Hj. rewrite (IH j e Hnext Hj).
    rewrite <- app_assoc. reflexivity.
Qed.

Lemma correlateAll_no_markers lines cleaner (rest : list NavElement) :
  ExtractAllMarkers lines cleaner = [] ->
  forall mc (j : nat) e,
    cachedPositions mc = [] ->
    rest !! j = Some e ->
    fst (correlateAll (H2 := asPositionCorrelator fallback) mc rest lines cleaner) !! j
    = Some (foundPosition (fallback e lines cleaner)).
Proof.
  intros Hnone. induction rest as [|e0 rest IH]; intros mc j e Hnil Hj.
  { rewrite lookup_nil in Hj. discriminate. }
  cbn [correlateAll].
  rewrite asPositionCorrelator_CorrelatePosition.
  unfold MarkerCorrelator.CorrelatePosition, isCacheValid.
  rewrite bool_decide_eq_true_2 by exact Hnil. cbn [negb]. rewrite Hnone.
  cbn [cachedPositions]. change (len [] =? 0) with true. cbv iota.
  specialize (IH (mk [] (len lines) match lines with first :: _ => first | [] => "" end
                     (linkCounter mc) (headerCounter mc))).
  destruct (fallback e0 lines cleaner) as [[[lineIdx startCol] endCol] found] eqn:Hanswer.
  destruct (correlateAll _ rest lines cleaner) as [cs mc2]. cbn [fst] in *.
  destruct j as [|j].
  - cbn in Hj. injection Hj as <-. rewrite lookup_cons, Hanswer. reflexivity.
  - rewrite lookup_cons. cbn in Hj. apply IH; [reflexivity | exact Hj].
Qed.

(** X28.  The marker correlator matches in document order.  After a
    [Reset], when the elements of a page are correlated one after the other
    with the same lines, the element that is number [k] of its kind (the
    links, or the headers of its level) gets the line and the columns of
    marker number [k] of that kind, and the answer of the fallback when
    the lines have no such marker. *)
Theorem MarkerCorrelator_document_order mc lines cleaner (elems : list NavElement)
    (j : nat) (e : NavElement) :
  len (ExtractAllMarkers lines cleaner) < 2 ^ 63 ->
  elems !! j = Some e ->
  let k := length (List.filter (sameKind e) (take j elems)) in
  fst (correlateAll (H2 := asPositionCorrelator fallback) (Reset mc) elems lines cleaner) !! j
  = Some match List.filter (kindOf e) (ExtractAllMarkers lines cleaner) !! k with
         | Some pos => Some (positionOf pos)
         | None => foundPosition (fallback e lines cleaner)
         end.
Proof.
  intros Hlen Hj k.
  destruct (ExtractAllMarkers lines cleaner) as [|pos positions] eqn:Hpositions.
  - cbn [List.filter]. rewrite lookup_nil.
    apply (correlateAll_no_markers lines cleaner elems Hpositions); [reflexivity | exact Hj].
  - rewrite <- Hpositions in *.
    rewrite (correlateAll_in_order lines cleaner elems) with (met := []) (e := e);
      [reflexivity | | exact Hlen | | exact Hj].
    + rewrite Hpositions. discriminate.
    + split; [left; reflexivity|]. intros e'.
      assert (counterOf (Reset mc) e' = 0) as ->
        by (unfold counterOf; destruct (Type_ e'); reflexivity).
      pose proof (len_nonneg (List.filter (kindOf e') (ExtractAllMarkers lines cleaner))).
      change (len (List.filter (sameKind e') [])) with 0. lia.
Qed.

End MarkerCorrelatorFacts.

(** ** correlator.go: the substring correlator *)

Section SimpleSubstringFacts.
Context `{GoText}.

Lemma substringLoop_first elemText elemRuneLen clean (lines : list string) :
  forall lineIdx,
    match substringLoop elemText elemRuneLen clean lines lineIdx with
    | (foundIdx, startCol, endCol, true) =>
        exists (k : nat) line byteIdx,
          foundIdx = lineIdx + Z.of_nat k
          /\ lines !! k = Some line
          /\ GoStrings.Index (clean line) elemText = Some byteIdx
          /\ startCol = RuneCountInString (String.substring 0 byteIdx (clean line))
          /\ endCol = startCol +i elemRuneLen
          /\ forall (j : nat) l, (j < k)%nat -> lines !! j = Some l ->
                                 GoStrings.Contains (clean l) elemText = false
    | (foundIdx, startCol, endCol, false) =>
        foundIdx = 0 /\ startCol = 0 /\ endCol = 0
        /\ forall (j : nat) l, lines !! j = Some l ->
                               GoStrings.Contains (clean l) elemText = false
    end.
Proof.
  induction lines as [|line lines IH]; intros lineIdx; cbn [substringLoop].
  - split; [reflexivity|]. split; [reflexivity|]. split; [reflexivity|].
    intros j l Hl. rewrite lookup_nil in Hl. discriminate.
  - destruct (GoStrings.Index (clean line) elemText) as [byteIdx|] eqn:Hindex.
    + exists 0%nat, line, byteIdx. split; [lia|]. split; [reflexivity|].
      split; [exact Hindex|]. split; [reflexivity|]. split; [reflexivity|].
      intros j l Hj. lia.
    + assert (GoStrings.Contains (clean line) elemText = false) as Hnot.
      { unfold GoStrings.Contains. rewrite Hindex. apply bool_decide_eq_false_2.
        intros [x Hx]. discriminate. }
      specialize (IH (lineIdx + 1)).
      destruct (substringLoop elemText elemRuneLen clean lines (lineIdx + 1))
        as [[[foundIdx startCol] endCol] [|]].
      * destruct IH as (k & l & byteIdx & -> & Hl & Hidx & Hs & He & Hbefore).
        exists (S k), l, byteIdx. split; [lia|]. split; [exact Hl|].
        split; [exact Hidx|]. split; [exact Hs|]. split; [exact He|].
        intros [|j] l' Hj Hl'; [cbn in Hl'; injection Hl' as <-; exact Hnot|].
        apply (Hbefore j l'); [lia | exact Hl'].
      * destruct IH as (-> & -> & -> & Hnone).
        split; [reflexivity|]. split; [reflexivity|]. split; [reflexivity|].
        intros [|j] l' Hl'; [cbn in Hl'; injection Hl' as <-; exact Hnot|].
        apply (Hnone j l' Hl').
Qed.

(** X30.  The substring correlator finds the first line whose cleaned
    text contains the trimmed text of the element: the start column is the
    number of runes before the first occurrence in that line and the end
    column is the start column plus the number of runes of the text.  It
    finds nothing exactly when the trimmed text is empty or in no line. *)
Theorem SimpleSubstringCorrelator_first_line (elem : NavElement) (lines : list string)
    (cleaner : option LineCleaner) :
  let elemText := TrimSpace (Text elem) in
  let clean := default (fun s => s) cleaner in
  match SimpleSubstringCorrelator elem lines cleaner with
  | (lineIdx, startCol, endCol, true) =>
      elemText <> ""
      /\ exists (k : nat) line byteIdx,
           lineIdx = Z.of_nat k
           /\ lines !! k = Some line
           /\ GoStrings.Index (clean line) elemText = Some byteIdx
           /\ startCol = RuneCountInString (String.substring 0 byteIdx (clean line))
           /\ endCol = startCol +i RuneCountInString elemText
           /\ forall (j : nat) l, (j < k)%nat -> lines !! j = Some l ->
                                  GoStrings.Contains (clean l) elemText = false
  | (lineIdx, startCol, endCol, false) =>
      lineIdx = 0 /\ startCol = 0 /\ endCol = 0
      /\ (elemText = ""
          \/ forall (j : nat) l, lines !! j = Some l ->
                                 GoStrings.Contains (clean l) elemText = false)
  end.
Proof.
  intros elemText clean. unfold SimpleSubstringCorrelator. fold elemText clean.
  destruct (decide (elemText = "")) as [Hempty|Hne].
  - rewrite bool_decide_eq_true_2 by exact Hempty. auto.
  - rewrite bool_decide_eq_false_2 by exact Hne.
    pose proof (substringLoop_first elemText (RuneCountInString elemText) clean lines 0)
      as Hloop.
    destruct (substringLoop elemText (RuneCountInString elemText) clean lines 0)
      as [[[lineIdx startCol] endCol] [|]].
    + split; [exact Hne|].
      destruct Hloop as (k & line & byteIdx & Hk & Hrest).
      exists k, line, byteIdx. split; [lia | exact Hrest].
    + destruct Hloop as (-> & -> & -> & Hnone). auto.
Qed.

End SimpleSubstringFacts.

(** ** The content fetcher *)

Section ContentFetcherFacts.
Context {C : Type}.
Context `{GoText} `{Goldmark} `{Glamour} `{PositionCorrelator C}.
Variable fileExists : string -> bool.
Implicit Types v : MarkdownSession C.




End ContentFetcherFacts.

(** ** The markers, the correlators and the fetcher on concrete inputs *)

Section MarkedRuns.
Import Scenarios MoreScenarios Utf8Double MarkedScenarios.

(** The marked link is well formed, and a line without markers has no
    positions. *)
Lemma extractMarkersFromLine_well_formed_witness :
  Forall (wellFormed 2) (extractMarkersFromLine (H := utf8Text) markedLink 2 None)
  /\ extractMarkersFromLine (H := utf8Text) "plain" 0 None = [].
Proof.
  destruct (extractMarkersFromLine_well_formed (H := utf8Text) markedLink 2 None)
    as (_ & Hwf & _).
  destruct (extractMarkersFromLine_well_formed (H := utf8Text) "plain" 0 None)
    as (_ & _ & Hnone & _).
  split; [exact Hwf|]. apply Hnone. intros r Hr.
  change (runesOf (GoText := utf8Text) "plain") with [112; 108; 97; 105; 110] in Hr.
  repeat (apply elem_of_cons in Hr as [-> | Hr]; [split; discriminate|]).
  apply elem_of_nil in Hr. contradiction.
Defined.

(** The link of [markedLink] spans the columns 4 to 8. *)
Lemma marked_elements_are_found_witness :
  extractMarkersFromLine (H := utf8Text) markedLink 2 None
  = [MarkerPosition.mk MarkerTypeLink 0 2 4 8].
Proof.
  apply (proj1 (marked_elements_are_found (H := utf8Text) markedLink 2
                  seeRunes goodRunes nowRunes
                  ltac:(repeat constructor) ltac:(repeat constructor)
                  ltac:(repeat constructor)
                  ltac:(intros n;
                        do 17 (destruct n as [|n]; [vm_compute; reflexivity|]);
                        vm_compute; reflexivity))).
  vm_compute. reflexivity.
Defined.

(** The link of the page gets the link marker on line 2. *)
Lemma MarkerCorrelator_document_order_witness :
  fst (correlateAll (H2 := MarkerCorrelator.asPositionCorrelator (H := utf8Text) noFallback)
         (MarkerCorrelator.Reset MarkerCorrelator.NewMarkerCorrelator) [titleHeader; goodLink]
         markedLines None) !! 1%nat
  = Some (Some (2, 4, 8)).
Proof.
  rewrite (MarkerCorrelator_document_order (H := utf8Text) noFallback MarkerCorrelator.NewMarkerCorrelator
             markedLines None [titleHeader; goodLink] 1 goodLink).
  - vm_compute. reflexivity.
  - vm_compute. reflexivity.
  - reflexivity.
Defined.


(** The text of the link is on line 2, behind four runes. *)
Lemma SimpleSubstringCorrelator_first_line_witness :
  SimpleSubstringCorrelator (H := utf8Text) goodLink markedLines
    (Some (StripMarkers (H := utf8Text)))
  = (2, 4, 8, true)
  /\ TrimSpace (GoText := utf8Text) (Text goodLink) <> "".
Proof.
  pose proof (SimpleSubstringCorrelator_first_line (H := utf8Text) goodLink markedLines
                (Some (StripMarkers (H := utf8Text)))) as Hfirst.
  cbv zeta in Hfirst.
  assert (SimpleSubstringCorrelator (H := utf8Text) goodLink markedLines
            (Some (StripMarkers (H := utf8Text))) = (2, 4, 8, true)) as Hrun
    by (vm_compute; reflexivity).
  rewrite Hrun in Hfirst. split; [reflexivity|]. exact (proj1 Hfirst).
Defined.

End MarkedRuns.
